(** * Gecode: shared arrays and the serialization registry

    A shallow embedding of [gecode/support/shared-array.hh]
    (classes [SAO<T>] and [SharedArray<T>]) and of the interface declared in
    [gecode/serialization.hh] (classes [Registry] and [Deserializer]),
    together with the properties stated about them.

    The C++ code manipulates heap objects through raw pointers, so the
    embedding is a state-and-error monad over an explicit store:
    - [saos]    the [SAO<T>] objects allocated with [new];
    - [blocks]  the element storage obtained from [Memory::malloc];
    - [handles] the [SharedArray<T>] objects, named by their location, each
                holding its [sao] pointer;
    - [trace]   the allocation, construction and destruction events, in
                program order.
    Null pointers are [None]; dereferencing a null or dangling pointer, an
    out-of-range slot or a missing handle is an error of the monad. *)

From stdpp Require Import base numbers option list gmap strings fin_maps.
From Stdlib Require Import ZArith Lia.

Local Open Scope Z_scope.

(** ** Machine integers *)

(** [unsigned int] is 32 bits wide: arithmetic is modulo [2^32]. *)
Definition UINT_MOD : Z := 2 ^ 32.
Definition wrap_uint (z : Z) : Z := z mod UINT_MOD.

(** [int] is 32 bits wide, two's complement. The C++ standard leaves signed
    overflow undefined; the embedding takes the wrap-around of the
    hardware. *)
Definition INT_MAX : Z := 2 ^ 31 - 1.
Definition INT_MIN : Z := - 2 ^ 31.
Definition wrap_int (z : Z) : Z := (z + 2 ^ 31) mod 2 ^ 32 - 2 ^ 31.

(** ** Pointers, objects and events *)

(** Addresses of heap objects and of storage blocks. *)
Abbreviation addr := positive.
(** Locations of [SharedArray<T>] objects (the value of [this]). *)
Abbreviation hid := nat.

(** class SAO: the reference count [use], the element pointer [a] and the
    number of elements [n]. *)
Module SAO.
Record t : Type := mk {
  use : Z;            (* unsigned int use *)
  a   : option addr;  (* T* a *)
  n   : Z             (* int n *)
}.
End SAO.

Inductive event : Type :=
  | EMalloc (p : addr) (slots : Z)   (* Memory::malloc(sizeof(T)*slots) = p *)
  | EFree (p : addr)                 (* Memory::free(p) *)
  | EConstruct (p : addr) (i : Z)    (* new (&p[i]) T(...) *)
  | EDestruct (p : addr) (i : Z)     (* p[i].~T() *)
  | ENew (o : addr)                  (* new SAO<T>(...) = o *)
  | EDelete (o : addr).              (* delete o *)

Global Instance event_eq_dec : EqDecision event.
Proof. solve_decision. Defined.

Inductive error : Type :=
  | NullDeref          (* access through a NULL pointer *)
  | DanglingPointer    (* access to a deleted object or freed block *)
  | OutOfBounds        (* slot index outside the block *)
  | InvalidHandle      (* the SharedArray object does not exist *)
  | AssertionFailed    (* assert(...) failed *)
  | OutOfMemory.       (* Memory::malloc could not serve the request *)

Inductive res (A : Type) : Type :=
  | Ok (x : A)
  | Err (e : error).
Arguments Ok {A} x.
Arguments Err {A} e.

Section Store.

(** The element type of the template. A slot of raw storage holds [None]
    until a value is written to it; copying a raw slot copies its
    indeterminate content. *)
Context {T : Type}.

Record heap : Type := Heap {
  saos    : gmap addr SAO.t;
  blocks  : gmap addr (list (option T));
  handles : gmap hid (option addr);
  trace   : list event
}.

Definition empty_heap : heap := Heap ∅ ∅ ∅ [].

(** *** The monad *)

Definition M (A : Type) : Type := heap -> res (A * heap).

Definition ret {A} (x : A) : M A := fun h => Ok (x, h).

Definition bind {A B} (m : M A) (f : A -> M B) : M B :=
  fun h => match m h with
           | Ok (x, h') => f x h'
           | Err e => Err e
           end.

Definition fail {A} (e : error) : M A := fun _ => Err e.

End Store.

Arguments heap T : clear implicits.
Arguments M T A : clear implicits.

Declare Scope mem_scope.
Delimit Scope mem_scope with mem.
Notation "'let*' x ':=' m 'in' k" := (bind m (fun x => k))
  (at level 10, x name, m at level 100, k at level 200) : mem_scope.
Notation "m ;; k" := (bind m (fun _ => k))
  (at level 100, k at level 200, right associativity) : mem_scope.
Local Open Scope mem_scope.

Section SharedArray.

Context {T : Type}.

(** [Space* home] is passed to [update] and never looked at. *)
Context {Space : Type}.

Definition emit (e : event) : M T unit :=
  fun h => Ok (tt, Heap (saos h) (blocks h) (handles h) (trace h ++ [e])).

(** *** Storage blocks: [Memory::malloc], [Memory::free], slots *)

(** [Memory::malloc] and [Memory::free] belong to the kernel's memory
    manager. Memory is taken to be unbounded: a request for [m >= 0] slots
    always yields a fresh block of [m] raw slots; a negative [m] converts
    to a huge [size_t] and cannot be served. *)
Definition Memory_malloc (m : Z) : M T addr :=
  fun h =>
    if m <? 0 then Err OutOfMemory
    else
      let p := fresh (dom (blocks h)) in
      Ok (p, Heap (saos h) (<[p := replicate (Z.to_nat m) None]> (blocks h))
                  (handles h) (trace h ++ [EMalloc p m])).

Definition Memory_free (a : option addr) : M T unit :=
  match a with
  | None => ret tt                      (* free(NULL) does nothing *)
  | Some p =>
      fun h =>
        match blocks h !! p with
        | None => Err DanglingPointer
        | Some _ =>
            Ok (tt, Heap (saos h) (delete p (blocks h)) (handles h)
                         (trace h ++ [EFree p]))
        end
  end.

Definition block_of (a : option addr) : M T (addr * list (option T)) :=
  match a with
  | None => fail NullDeref
  | Some p =>
      fun h => match blocks h !! p with
               | Some b => Ok ((p, b), h)
               | None => Err DanglingPointer
               end
  end.

Definition in_block (b : list (option T)) (i : Z) : bool :=
  (0 <=? i) && (i <? Z.of_nat (length b)).

(** Reading [a[i]]. *)
Definition slot_read (a : option addr) (i : Z) : M T (option T) :=
  let* pb := block_of a in
  if in_block pb.2 i
  then ret (default None (pb.2 !! Z.to_nat i))
  else fail OutOfBounds.

(** Writing [a[i] = v] through the reference [operator[]] returns. *)
Definition slot_write (a : option addr) (i : Z) (v : option T) : M T unit :=
  let* pb := block_of a in
  if in_block pb.2 i
  then fun h => Ok (tt, Heap (saos h)
                             (<[pb.1 := <[Z.to_nat i := v]> pb.2]> (blocks h))
                             (handles h) (trace h))
  else fail OutOfBounds.

(** Placement construction [new (&a[i]) T(v)]. *)
Definition slot_construct (a : option addr) (i : Z) (v : option T) : M T unit :=
  slot_write a i v ;;
  let* pb := block_of a in emit (EConstruct pb.1 i).

(** Destruction [a[i].~T()]: the slot is raw again. *)
Definition slot_destruct (a : option addr) (i : Z) : M T unit :=
  slot_write a i None ;;
  let* pb := block_of a in emit (EDestruct pb.1 i).

(** *** The loop [for (int i=n; i--;) body] *)

Fixpoint for_down_nat (k : nat) (body : Z -> M T unit) : M T unit :=
  match k with
  | O => ret tt
  | S j => body (Z.of_nat j) ;; for_down_nat j body
  end.

(** With [n >= 0] the body runs at [n-1], ..., [0]. With [n < 0] the test
    [i--] is true at once and the body runs at [n-1]; every body in this
    file indexes an array at [i], which fails there, and the loop is cut
    after that iteration. *)
Definition for_down (n : Z) (body : Z -> M T unit) : M T unit :=
  if n <? 0 then body (n - 1) ;; fail OutOfBounds
  else for_down_nat (Z.to_nat n) body.

(** *** class SAO *)

Definition sao_load (o : addr) : M T SAO.t :=
  fun h => match saos h !! o with
           | Some s => Ok (s, h)
           | None => Err DanglingPointer
           end.

Definition sao_store (o : addr) (s : SAO.t) : M T unit :=
  fun h => match saos h !! o with
           | Some _ => Ok (tt, Heap (<[o := s]> (saos h)) (blocks h)
                                    (handles h) (trace h))
           | None => Err DanglingPointer
           end.

(** [new SAO<T>(n0)]:
    SAO(int n0) : use(1), n(n0) { a = (n>0) ? malloc(sizeof(T)*n0) : NULL; } *)
Definition SAO_new (n0 : Z) : M T addr :=
  let* a := (if n0 >? 0
             then let* p := Memory_malloc n0 in ret (Some p)
             else ret None) in
  fun h =>
    let o := fresh (dom (saos h)) in
    Ok (o, Heap (<[o := SAO.mk 1 a n0]> (saos h)) (blocks h) (handles h)
                (trace h ++ [ENew o])).

(** SAO* copy(void) const *)
Definition SAO_copy (this : addr) : M T addr :=
  let* s := sao_load this in
  let* o := SAO_new (SAO.n s) in
  let* so := sao_load o in
  for_down (SAO.n s)
    (fun i => let* v := slot_read (SAO.a s) i in
              slot_construct (SAO.a so) i v) ;;
  ret o.

(** [delete this]: the destructor
    ~SAO(void) { if (n>0) { for (int i=n; i--;) a[i].~T(); free(a); } }
    followed by the deallocation of the object. *)
Definition SAO_delete (this : addr) : M T unit :=
  let* s := sao_load this in
  (if SAO.n s >? 0
   then for_down (SAO.n s) (fun i => slot_destruct (SAO.a s) i) ;;
        Memory_free (SAO.a s)
   else ret tt) ;;
  fun h => Ok (tt, Heap (delete this (saos h)) (blocks h) (handles h)
                        (trace h ++ [EDelete this])).

(** void subscribe(void) { use++; } *)
Definition SAO_subscribe (this : addr) : M T unit :=
  let* s := sao_load this in
  sao_store this (SAO.mk (wrap_uint (SAO.use s + 1)) (SAO.a s) (SAO.n s)).

(** void release(void) { if (--use == 0) delete this; } *)
Definition SAO_release (this : addr) : M T unit :=
  let* s := sao_load this in
  let u := wrap_uint (SAO.use s - 1) in
  sao_store this (SAO.mk u (SAO.a s) (SAO.n s)) ;;
  if u =? 0 then SAO_delete this else ret tt.

(** void shrink(int m); the [assert(m < n)] at its head stops the call when
    it fails. *)
Definition SAO_shrink (this : addr) (m : Z) : M T unit :=
  let* s := sao_load this in
  (if m <? SAO.n s then ret tt else fail AssertionFailed) ;;
  let* na := (if m >? 0
              then let* p := Memory_malloc m in
                   for_down m
                     (fun i => let* v := slot_read (SAO.a s) i in
                               slot_construct (Some p) i v) ;;
                   ret (Some p)
              else ret None) in
  (if SAO.n s >? 0 then Memory_free (SAO.a s) else ret tt) ;;
  sao_store this (SAO.mk (SAO.use s) na m).

(** void ensure(int i) *)
Definition SAO_ensure (this : addr) (i : Z) : M T unit :=
  let* s := sao_load this in
  if i >=? SAO.n s then
    let m := Z.max (wrap_int (2 * SAO.n s)) i in
    let* p := Memory_malloc m in
    for_down (SAO.n s)
      (fun j => let* v := slot_read (SAO.a s) j in
                slot_construct (Some p) j v) ;;
    (if SAO.n s >? 0 then Memory_free (SAO.a s) else ret tt) ;;
    sao_store this (SAO.mk (SAO.use s) (Some p) m)
  else ret tt.

(** *** class SharedArray *)

Definition handle_load (this : hid) : M T (option addr) :=
  fun h => match handles h !! this with
           | Some s => Ok (s, h)
           | None => Err InvalidHandle
           end.

Definition handle_store (this : hid) (s : option addr) : M T unit :=
  fun h => Ok (tt, Heap (saos h) (blocks h) (<[this := s]> (handles h))
                        (trace h)).

Definition handle_drop (this : hid) : M T unit :=
  fun h => Ok (tt, Heap (saos h) (blocks h) (delete this (handles h))
                        (trace h)).

(** [if (sao != NULL) sao->f();] *)
Definition when_sao (s : option addr) (f : addr -> M T unit) : M T unit :=
  match s with
  | Some o => f o
  | None => ret tt
  end.

(** SharedArray(int n) : sao(new SAO<T>(n)) {} *)
Definition SharedArray_new (this : hid) (n : Z) : M T unit :=
  let* o := SAO_new n in
  handle_store this (Some o).

(** SharedArray(const SharedArray<T>& a) *)
Definition SharedArray_copy (this a : hid) : M T unit :=
  let* s := handle_load a in
  handle_store this s ;;
  when_sao s SAO_subscribe.

(** ~SharedArray(void); the object is gone afterwards. *)
Definition SharedArray_delete (this : hid) : M T unit :=
  let* s := handle_load this in
  when_sao s SAO_release ;;
  handle_drop this.

(** const SharedArray<T>& operator=(const SharedArray<T>& a) *)
Definition SharedArray_assign (this a : hid) : M T unit :=
  if decide (this = a) then ret tt
  else
    let* s := handle_load this in
    when_sao s SAO_release ;;
    let* sa := handle_load a in
    handle_store this sa ;;
    when_sao sa SAO_subscribe.

(** void update(Space* home, bool share, SharedArray<T>& a) *)
Definition SharedArray_update (this : hid) (home : Space) (share : bool)
    (a : hid) : M T unit :=
  let* s := handle_load this in
  when_sao s SAO_release ;;
  let* sa := handle_load a in
  if share then
    handle_store this sa ;;
    when_sao sa SAO_subscribe
  else
    match sa with
    | None => handle_store this None
    | Some o => let* c := SAO_copy o in handle_store this (Some c)
    end.

(** [operator[]], read through the reference: [sao->a[i]]. *)
Definition SharedArray_get (this : hid) (i : Z) : M T (option T) :=
  let* s := handle_load this in
  match s with
  | None => fail NullDeref
  | Some o => let* so := sao_load o in slot_read (SAO.a so) i
  end.

(** [operator[]], assignment through the reference: [sao->a[i] = v]. *)
Definition SharedArray_set (this : hid) (i : Z) (v : T) : M T unit :=
  let* s := handle_load this in
  match s with
  | None => fail NullDeref
  | Some o => let* so := sao_load o in slot_write (SAO.a so) i (Some v)
  end.

(** int size(void) const *)
Definition SharedArray_size (this : hid) : M T Z :=
  let* s := handle_load this in
  match s with
  | None => ret 0
  | Some o => let* so := sao_load o in ret (SAO.n so)
  end.

(** void size(int n) *)
Definition SharedArray_resize (this : hid) (n : Z) : M T unit :=
  let* s := handle_load this in
  if n =? 0 then
    when_sao s SAO_release ;;
    handle_store this None
  else
    match s with
    | None => fail NullDeref
    | Some o =>
        let* so := sao_load o in
        sao_store o (SAO.mk (SAO.use so) (SAO.a so) n)
    end.

(** void shrink(int n) *)
Definition SharedArray_shrink (this : hid) (n : Z) : M T unit :=
  let* s := handle_load this in
  when_sao s (fun o => SAO_shrink o n).

(** void ensure(int n) *)
Definition SharedArray_ensure (this : hid) (n : Z) : M T unit :=
  let* s := handle_load this in
  when_sao s (fun o => SAO_ensure o n).

End SharedArray.

(** ** Serialization: [Registry] and [Deserializer]

    [gecode/serialization.hh] declares the two classes, their fields and the
    function-pointer types; the member functions are defined in files that
    are not part of this development. A function pointer is the address of
    its code: the registry stores addresses, and [creator_code] and
    [poster_code] give the behaviour of the code found there. *)

Module Serialization.

Abbreviation fptr := positive.

Inductive exn : Type :=
  | UnknownVariableType
  | UnknownConstraintKind
  | UndefinedVariableReference.

(** A call either returns or throws; what it did to the state before
    throwing stays done. *)
Inductive outcome (A : Type) : Type :=
  | Returns (x : A)
  | Throws (e : exn).
Arguments Returns {A} x.
Arguments Throws {A} e.

(** The calls made through the registry, in program order. *)
Inductive call : Type :=
  | CallCreator (f : fptr)
  | CallPoster (p : fptr).

Global Instance call_eq_dec : EqDecision call.
Proof. solve_decision. Defined.

(** class Registry: [posters] and [varCreators]. *)
Record Registry : Type := mkRegistry {
  posters     : gmap string fptr;   (* std::map<std::string, poster> *)
  varCreators : gmap Z fptr         (* std::map<int, varCreator> *)
}.

Section Model.

(** [Space], [VarBase] and the payloads of the specifications come from
    the kernel. *)
Context {Space VarBase VarPayload ActorPayload : Type}.

(** Modelled from the spec: the type [Reflection::VarSpec] is missing;
    a variable specification has an integer type identifier, an
    optional external identifier and a payload. *)
Record VarSpec : Type := mkVarSpec {
  vti      : Z;
  vname    : option string;
  vpayload : VarPayload
}.

(** Modelled from the spec: the type [Reflection::ActorSpec] is missing;
    a constraint specification has a string kind identifier, an ordered
    sequence of argument indices into the creation-order sequence and a
    payload. *)
Record ActorSpec : Type := mkActorSpec {
  ati      : string;
  args     : list Z;
  apayload : ActorPayload
}.

(** The type [varCreator] of variable creation functions, from [Space*]
    and [Reflection::VarSpec&] to [VarBase*]: the code returns the new
    variable and leaves [home] updated. *)
Context (creator_code : fptr -> Space -> VarSpec -> VarBase * Space).

(** The type [poster] of constraint posting functions, from [Space*],
    the vector of variables and [Reflection::ActorSpec&]: the posting
    code, applied to the argument variables once the indices are
    resolved. *)
Context (poster_code : fptr -> Space -> list VarBase -> ActorSpec -> Space).

(** The target state with the log of the calls made on it. *)
Record target : Type := mkTarget {
  space : Space;
  calls : list call
}.

(** Modelled from the spec: the body of [Registry::add(int, varCreator)]
    is missing; it registers a variable factory for a type identifier
    and overwrites any prior registration for the same identifier. *)
Definition Registry_add_varCreator (r : Registry) (vti0 : Z) (vc : fptr)
    : Registry :=
  mkRegistry (posters r) (<[vti0 := vc]> (varCreators r)).

(** Modelled from the spec: the body of
    [Registry::add(const char*, poster)] is missing; it registers a
    constraint poster for a string kind identifier, same overwrite
    policy. *)
Definition Registry_add_poster (r : Registry) (id : string) (p : fptr)
    : Registry :=
  mkRegistry (<[id := p]> (posters r)) (varCreators r).

(** Modelled from the spec: the body of [Registry::createVar] is
    missing; it looks up the factory for the specification's type
    identifier, fails with UnknownVariableType if absent, otherwise
    invokes it with the target state and the specification and returns
    the newly created variable. *)
Definition Registry_createVar (r : Registry) (spec : VarSpec) (w : target)
    : outcome VarBase * target :=
  match varCreators r !! vti spec with
  | None => (Throws UnknownVariableType, w)
  | Some f =>
      let xs := creator_code f (space w) spec in
      (Returns xs.1, mkTarget xs.2 (calls w ++ [CallCreator f]))
  end.

(** Modelled from the spec: a poster resolves the argument indices of
    the specification against the creation-order sequence itself; every
    index must be a valid position, an out-of-range index fails with
    UndefinedVariableReference. *)
Definition resolve (vars : list VarBase) (idx : list Z)
    : option (list VarBase) :=
  mapM (fun i => if 0 <=? i then vars !! Z.to_nat i else None) idx.

Definition invoke_poster (p : fptr) (vars : list VarBase)
    (spec : ActorSpec) (w : target) : outcome unit * target :=
  match resolve vars (args spec) with
  | None =>
      (Throws UndefinedVariableReference,
       mkTarget (space w) (calls w ++ [CallPoster p]))
  | Some xs =>
      (Returns tt,
       mkTarget (poster_code p (space w) xs spec)
                (calls w ++ [CallPoster p]))
  end.

(** Modelled from the spec: the body of [Registry::post] is missing; it
    looks up the poster for the specification's kind identifier, fails
    with UnknownConstraintKind if absent, otherwise invokes it with the
    target state, the full creation-order sequence and the
    specification. *)
Definition Registry_post (r : Registry) (vars : list VarBase)
    (spec : ActorSpec) (w : target) : outcome unit * target :=
  match posters r !! ati spec with
  | None => (Throws UnknownConstraintKind, w)
  | Some p => invoke_poster p vars spec w
  end.

(** class Deserializer: the space [home], the map [m] of the variables
    to reuse and the vector [v] of the newly created variables. [home]
    and [m] refer to objects of the caller; the record holds their
    current content. *)
Record Deserializer : Type := mkDeserializer {
  home : target;
  m    : gmap string VarBase;
  v    : list VarBase
}.

(** Deserializer(Space* home0, Reflection::VarMap& m0) *)
Definition Deserializer_new (home0 : target) (m0 : gmap string VarBase)
    : Deserializer :=
  mkDeserializer home0 m0 [].

(** Reflection::VarMap& varMap(void) const *)
Definition Deserializer_varMap (d : Deserializer) : gmap string VarBase :=
  m d.

(** Modelled from the spec: the body of [Deserializer::var] is missing;
    it calls [createVar] on the target state, appends the result to the
    creation-order sequence and records the mapping from the external
    identifier, if present, to the new variable. A failure of
    [createVar] aborts the call. *)
Definition Deserializer_var (registry : Registry) (d : Deserializer)
    (spec : VarSpec) : outcome unit * Deserializer :=
  match Registry_createVar registry spec (home d) with
  | (Throws e, w) => (Throws e, mkDeserializer w (m d) (v d))
  | (Returns x, w) =>
      (Returns tt,
       mkDeserializer w
         (match vname spec with
          | Some id => <[id := x]> (m d)
          | None => m d
          end)
         (v d ++ [x]))
  end.

(** Modelled from the spec: the body of [Deserializer::post] is missing;
    it calls [Registry::post] with the target state, the creation-order
    sequence and the specification. *)
Definition Deserializer_post (registry : Registry) (d : Deserializer)
    (spec : ActorSpec) : outcome unit * Deserializer :=
  let rw := Registry_post registry (v d) spec (home d) in
  (rw.1, mkDeserializer rw.2 (m d) (v d)).

(** Modelled from the spec: a second reading of the description of
    [Deserializer::post], whose body is missing. The sentence on the
    argument indices (each must already be a valid position of the
    creation-order sequence, an out-of-range index fails with
    UndefinedVariableReference) is taken as a check that the
    deserializer makes itself, before it calls [Registry::post]. *)
Definition Deserializer_post_checked (registry : Registry)
    (d : Deserializer) (spec : ActorSpec) : outcome unit * Deserializer :=
  match resolve (v d) (args spec) with
  | None => (Throws UndefinedVariableReference, d)
  | Some _ => Deserializer_post registry d spec
  end.

End Model.

End Serialization.

(** ** The linear congruential generator of [gecode/support/random.hh]

    class LinearCongruentialGenerator<m, a, q, r>: the template parameters
    are [unsigned int], the state [s] is an [int]. In [s%q], [s/q], [a*...],
    [r*...] and [s += m] the [int] operand is converted to [unsigned int]
    and the arithmetic is modulo [2^32]; storing the result in [s] converts
    it back to [int]. Division by a parameter [q] or [m] equal to 0 is not
    defined in C++; the embedding is meant for positive [q] and [m].
    [operator()] computes with [double] and is not embedded. *)

Module LCG.

Section Generator.

Context (m a q r : Z).

(** The data members: the state and the constant [rand_max]. *)
Record t : Type := mk {
  s        : Z;   (* int s *)
  rand_max : Z    (* const unsigned long rand_max *)
}.

(** unsigned int next(): the value returned and the generator left. *)
Definition next (g : t) : Z * t :=
  let su := wrap_uint (s g) in
  let s1 := wrap_int (wrap_uint (wrap_uint (a * (su mod q))
                                 - wrap_uint (r * (su / q)))) in
  let s2 := if s1 <? 0 then wrap_int (wrap_uint (wrap_uint s1 + m)) else s1 in
  let res := s2 in
  let s3 := if s2 =? 0 then 1 else s2 in
  (wrap_uint res, mk s3 (rand_max g)).

(** void seed(unsigned int _seed) *)
Definition seed (g : t) (_seed : Z) : t :=
  let s1 := wrap_int (_seed mod m) in
  mk (if s1 =? 0 then 1 else s1) (rand_max g).

(** unsigned int seed(void) const *)
Definition get_seed (g : t) : Z := wrap_uint (s g).

(** LinearCongruentialGenerator(int _seed = 1) : rand_max(1UL<<31);
    the [int] argument converts to the [unsigned int] parameter of
    [seed]. *)
Definition create (_seed : Z) : t :=
  seed (mk 0 (Z.shiftl 1 31)) (wrap_uint _seed).

(** The generator after [k] calls of [next], and the values they
    returned, the first call first. *)
Fixpoint draw (k : nat) (g : t) : list Z * t :=
  match k with
  | O => ([], g)
  | S k' => let vg := next g in
            let rest := draw k' vg.2 in
            (vg.1 :: rest.1, rest.2)
  end.

End Generator.

(** typedef LinearCongruentialGenerator<2147483647, 48271, 44488, 3399>
    RandomGenerator *)
Definition RandomGenerator_m : Z := 2147483647.
Definition RandomGenerator_a : Z := 48271.
Definition RandomGenerator_q : Z := 44488.
Definition RandomGenerator_r : Z := 3399.

End LCG.

(** ** Vocabulary of the properties *)

(** The indices a [for_down] loop of [k] rounds visits, in order. *)
Fixpoint countdown (k : nat) : list Z :=
  match k with
  | O => []
  | S j => Z.of_nat j :: countdown j
  end.

(** What a call answers, without the store it leaves. *)
Definition answer {T A} (r : res (A * heap T)) : res A :=
  match r with
  | Ok (x, _) => Ok x
  | Err e => Err e
  end.

(** The events recorded in [st] after those of [st0]. *)
Definition since {T} (st0 st : heap T) : list event :=
  drop (length (trace st0)) (trace st).

(** The store a program leaves when it runs without error. *)
Definition run_from {T A} (c : M T A) (st : heap T) : heap T :=
  match c st with
  | Ok (_, st') => st'
  | Err _ => st
  end.

(** Destroying the handles [hs] one after the other. *)
Fixpoint delete_all {T} (hs : list hid) : M T unit :=
  match hs with
  | [] => ret tt
  | h :: r => SharedArray_delete h ;; delete_all r
  end.

Section Vocabulary.

Context {T Space : Type}.
Implicit Types (st : heap T) (s : SAO.t) (b : list (option T)).

(** The class invariant of [SAO], as the constructor sets it up. Storage:
    [a] is NULL exactly when there is no element, and otherwise points to a
    live block with room for [n] elements. *)
Definition wf_storage st s : Prop :=
  match SAO.a s with
  | None => SAO.n s = 0
  | Some p =>
      0 < SAO.n s /\
      exists b, blocks st !! p = Some b /\ SAO.n s <= Z.of_nat (length b)
  end.

(** Count: the count of a live object is positive and fits
    [unsigned int]. *)
Definition wf_sao st s : Prop :=
  1 <= SAO.use s < UINT_MOD /\ wf_storage st s.

(** What [delete] leaves of the storage of [s], and the events it
    records. *)
Definition blocks_without s (bl : gmap addr (list (option T)))
    : gmap addr (list (option T)) :=
  match SAO.a s with
  | Some p => delete p bl
  | None => bl
  end.

Definition teardown (o : addr) s : list event :=
  match SAO.a s with
  | Some p => (EDestruct p <$> countdown (Z.to_nat (SAO.n s))) ++ [EFree p]
  | None => []
  end ++ [EDelete o].

(** A handle that holds a buffer holds a live, well-formed one. *)
Definition holds_wf st (x : option addr) : Prop :=
  match x with
  | None => True
  | Some o => exists s, saos st !! o = Some s /\ wf_sao st s
  end.

(** What [update] needs of the buffer the updated handle gives up: a
    buffer other than the source's is well-formed; the source's own
    buffer has a second stake. *)
Definition releasable st (x : option addr) (o : addr) s : Prop :=
  match x with
  | None => True
  | Some o' =>
      if decide (o' = o) then 2 <= SAO.use s
      else exists s', saos st !! o' = Some s' /\ wf_sao st s'
  end.

(** What C5 says of a store [st'] reached from [st] by updating the handle
    [x] from the handle [y] without sharing: [y] reports the length and
    the elements it reported before; [x] holds a buffer that did not
    exist in [st], is not the buffer of [y], has count 1 and storage of
    its own, and reports the length and the elements of [y]. *)
Definition diverged st st' (x y : hid) : Prop :=
  answer (SharedArray_size y st') = answer (SharedArray_size y st) /\
  (forall i, answer (SharedArray_get y i st')
             = answer (SharedArray_get y i st)) /\
  exists c sc len,
    handles st' !! x = Some (Some c) /\
    handles st' !! y <> Some (Some c) /\
    saos st !! c = None /\
    saos st' !! c = Some sc /\
    SAO.use sc = 1 /\
    (forall q, SAO.a sc = Some q -> blocks st !! q = None) /\
    answer (SharedArray_size x st') = Ok len /\
    answer (SharedArray_size y st') = Ok len /\
    forall i, 0 <= i < len ->
              answer (SharedArray_get x i st')
              = answer (SharedArray_get y i st').

(** The statement of C1 as given, for the handles [this] and [a]. *)
Definition update_share_claim st (this a : hid) (home : Space) : Prop :=
  forall o s,
    handles st !! a = Some (Some o) -> saos st !! o = Some s ->
    exists st' s',
      SharedArray_update this home true a st = Ok (tt, st') /\
      answer (SharedArray_size this st') = answer (SharedArray_size a st') /\
      (forall i, answer (SharedArray_get this i st')
                 = answer (SharedArray_get a i st')) /\
      saos st' !! o = Some s' /\
      SAO.use s' = SAO.use s + 1.

(** The statement of C2 as given, for the handle [this] and the new
    length [m]: fresh storage of exactly [m] slots holding copies of the
    first [m] elements, every old element destructed, the old storage
    freed, length [m]. *)
Definition shrink_claim st (this : hid) (m : Z) : Prop :=
  forall o s p b,
    handles st !! this = Some (Some o) -> saos st !! o = Some s ->
    SAO.a s = Some p -> blocks st !! p = Some b ->
    0 <= m < SAO.n s ->
    exists st' q,
      SharedArray_shrink this m st = Ok (tt, st') /\
      blocks st !! q = None /\
      saos st' !! o = Some (SAO.mk (SAO.use s) (Some q) m) /\
      blocks st' !! q = Some (take (Z.to_nat m) b) /\
      (forall j, 0 <= j < m -> EConstruct q j ∈ since st st') /\
      (forall j, 0 <= j < SAO.n s -> EDestruct p j ∈ since st st') /\
      EFree p ∈ since st st' /\
      blocks st' !! p = None /\
      SharedArray_size this st' = Ok (m, st').



(** The statement of C6 as given, for the handle [this] and the argument
    [n]. *)
Definition resize_claim st (this : hid) (n : Z) : Prop :=
  if decide (n = 0) then
    exists st',
      SharedArray_resize this 0 st = Ok (tt, st') /\
      handles st' !! this = Some None /\
      SharedArray_size this st' = Ok (0, st')
  else
    exists st',
      SharedArray_resize this n st = Ok (tt, st') /\
      SharedArray_size this st' = Ok (n, st') /\
      handles st' = handles st /\
      blocks st' = blocks st /\
      forall o s,
        saos st !! o = Some s ->
        exists s', saos st' !! o = Some s' /\
                   SAO.use s' = SAO.use s /\ SAO.a s' = SAO.a s.

(** The statement of C5 as given: copy the handle [a] into [b], then
    update [b] from [a] with [share = false]. *)
Definition copy_then_diverge_claim st (a b : hid) (home : Space) : Prop :=
  exists st1 st2,
    SharedArray_copy b a st = Ok (tt, st1) /\
    SharedArray_update b home false a st1 = Ok (tt, st2) /\
    diverged st1 st2 b a.

End Vocabulary.

Import Serialization.

Section RegistryVocabulary.

Context {Space VarBase VarPayload ActorPayload : Type}.
Context (poster_code :
           fptr -> Space -> list VarBase -> @ActorSpec ActorPayload -> Space).

(** The calls recorded on the target after the first ones. *)
Definition new_calls (w w' : @target Space) : list call :=
  drop (length (calls w)) (calls w').

(** Some argument index is not a position of the sequence [vars]. *)
Definition bad_index (vars : list VarBase) (idx : list Z) : Prop :=
  exists i, i ∈ idx /\ ~ (0 <= i < Z.of_nat (length vars)).

(** The statement of C9 as given, for the session [d] and the constraint
    specification [spec]; [post] is the function that posts, in one of
    the two readings of its description. *)
Definition post_claim
    (post : Deserializer -> ActorSpec
            -> outcome unit * @Deserializer Space VarBase)
    (d : Deserializer) (spec : @ActorSpec ActorPayload) : Prop :=
  let r := post d spec in
  v r.2 = v d /\
  (forall f, CallCreator f ∉ new_calls (home d) (home r.2)) /\
  (bad_index (v d) (args spec) ->
   r.1 = Throws UndefinedVariableReference /\
   space (home r.2) = space (home d)).

End RegistryVocabulary.

(** The parameters suit Schrage's method: [m = a*q + r] with [r < q], and
    [m] fits the positive range of [int]. *)
Definition schrage (m a q r : Z) : Prop :=
  0 <= a /\ 0 < q /\ 0 <= r < q /\ m = a * q + r /\ 2 <= m <= 2 ^ 31.

(** The number of handles of [hm] that hold the buffer [o]. *)
Definition stakes (hm : gmap hid (option addr)) (o : addr) : nat :=
  size (filter (fun kv => kv.2 = Some o) hm).

(** Exact counting: every handle that holds a buffer holds a live one, and
    the count of every live buffer is positive and equal to the number of
    handles that hold it. *)
Definition counted_objs (sm : gmap addr SAO.t)
    (hm : gmap hid (option addr)) : Prop :=
  (forall h o, hm !! h = Some (Some o) -> is_Some (sm !! o)) /\
  (forall o s, sm !! o = Some s ->
               1 <= SAO.use s /\ SAO.use s = Z.of_nat (stakes hm o)).

Definition counted {T} (st : heap T) : Prop :=
  counted_objs (saos st) (handles st).

Section Calls.

Context {T Space : Type}.

(** The member functions of [SharedArray] a program can call. *)
Inductive call : Type :=
  | CallNew (this : hid) (n : Z)
  | CallCopy (this a : hid)
  | CallDelete (this : hid)
  | CallAssign (this a : hid)
  | CallUpdate (this : hid) (home : Space) (share : bool) (a : hid)
  | CallSet (this : hid) (i : Z) (v : T)
  | CallResize (this : hid) (n : Z)
  | CallShrink (this : hid) (n : Z)
  | CallEnsure (this : hid) (n : Z).

Definition perform (c : call) : M T unit :=
  match c with
  | CallNew this n => SharedArray_new this n
  | CallCopy this a => SharedArray_copy this a
  | CallDelete this => SharedArray_delete this
  | CallAssign this a => SharedArray_assign this a
  | CallUpdate this home share a => SharedArray_update this home share a
  | CallSet this i v => SharedArray_set this i v
  | CallResize this n => SharedArray_resize this n
  | CallShrink this n => SharedArray_shrink this n
  | CallEnsure this n => SharedArray_ensure this n
  end.

(** A constructor runs at a location that holds no handle. *)
Definition placed (st : heap T) (c : call) : Prop :=
  match c with
  | CallNew this _ | CallCopy this _ => handles st !! this = None
  | _ => True
  end.

(** The stores a program reaches from the empty store by calls that
    return, with fewer than [2^32 - 1] handles alive at any time. *)
Inductive reachable : heap T -> Prop :=
  | reachable_empty : reachable empty_heap
  | reachable_call st c st' :
      reachable st ->
      placed st c ->
      Z.of_nat (size (handles st)) + 1 < UINT_MOD ->
      perform c st = Ok (tt, st') ->
      reachable st'.

(** A computation that, when it returns, has touched neither the objects
    nor the handles. *)
Definition keeps_objects {A} (c : M T A) : Prop :=
  forall st x st', c st = Ok (x, st') ->
                   saos st' = saos st /\ handles st' = handles st.

End Calls.

(** ** Concrete stores and sessions *)

Module Examples.

(** One handle over three elements 10, 11, 12. *)
Definition one_handle : heap Z :=
  run_from (SharedArray_new 0%nat 3 ;;
            SharedArray_set 0%nat 0 10 ;;
            SharedArray_set 0%nat 1 11 ;;
            SharedArray_set 0%nat 2 12) empty_heap.

(** Two handles sharing the buffer of [one_handle]. *)
Definition two_handles : heap Z :=
  run_from (SharedArray_copy 1%nat 0%nat) one_handle.

(** Three handles sharing it. *)
Definition three_handles : heap Z :=
  run_from (SharedArray_copy 2%nat 0%nat) two_handles.

(** A second buffer, held by handle 3 alone. *)
Definition two_buffers : heap Z :=
  run_from (SharedArray_new 3%nat 1) two_handles.

(** A handle emptied by [size(0)]. *)
Definition emptied : heap Z :=
  run_from (SharedArray_new 0%nat 1 ;; SharedArray_resize 0%nat 0) empty_heap.

Definition buffer3 : SAO.t := SAO.mk 1 (Some 1%positive) 3.

Definition buffer3_shared (k : Z) : SAO.t := SAO.mk k (Some 1%positive) 3.
Definition buffer1 : SAO.t := SAO.mk 1 (Some 2%positive) 1.

End Examples.

Module Scenario.

(** A target state: the bounds of its variables and the constraints
    posted on it, by kind and argument variables. A variable is known by
    its position in the target state. *)
Record Model : Type := mkModel {
  variables   : list (Z * Z);
  constraints : list (string * list nat)
}.

Definition creator (f : fptr) (sp : Model) (spec : @VarSpec (Z * Z))
    : nat * Model :=
  (length (variables sp),
   mkModel (variables sp ++ [vpayload spec]) (constraints sp)).

Definition poster (p : fptr) (sp : Model) (xs : list nat)
    (spec : @ActorSpec unit) : Model :=
  mkModel (variables sp) (constraints sp ++ [(ati spec, xs)]).

(** A factory for type 1 and a poster for kind "eq". *)
Definition registry : Registry :=
  Registry_add_poster
    (Registry_add_varCreator (mkRegistry ∅ ∅) 1 1%positive)
    "eq" 2%positive.

Definition bounded : @VarSpec (Z * Z) := mkVarSpec 1 None (0, 10).

Definition session0 : @Deserializer Model nat :=
  Deserializer_new (mkTarget (mkModel [] []) []) ∅.

(** The session after two variable declarations. *)
Definition session2 : @Deserializer Model nat :=
  (Deserializer_var creator registry
     (Deserializer_var creator registry session0 bounded).2 bounded).2.

Definition eq01 : @ActorSpec unit := mkActorSpec "eq" [0; 1] tt.
Definition eq02 : @ActorSpec unit := mkActorSpec "eq" [0; 2] tt.
Definition neq02 : @ActorSpec unit := mkActorSpec "neq" [0; 2] tt.

End Scenario.

(** A generator in state 1, as the default constructor leaves it. *)
Definition default_generator : LCG.t := LCG.mk 1 (2 ^ 31).

(** The store after [SharedArray<int> x(3)]. *)
Definition first_handle : heap Z :=
  run_from (SharedArray_new 0%nat 3) empty_heap.

(** The store after [SharedArray<int> x(0); x.ensure(0);]: the buffer has
    length 0 and holds the block that [Memory::malloc] returned for no
    slot. *)
Definition regrown : heap Z :=
  run_from (SharedArray_new 0%nat 0 ;; SharedArray_ensure 0%nat 0)
           empty_heap.

Definition buffer0 : SAO.t := SAO.mk 1 (Some 1%positive) 0.

(** ** Facts about the store and the loops *)

Section StoreFacts.

Context {T : Type}.
Implicit Types (st : heap T) (s : SAO.t) (b : list (option T)).

Lemma bind_ok {A B} (c : M T A) (f : A -> M T B) st x st' :
  c st = Ok (x, st') -> bind c f st = f x st'.
Proof. unfold bind. by intros ->. Qed.

Lemma bind_err {A B} (c : M T A) (f : A -> M T B) st e :
  c st = Err e -> bind c f st = Err e.
Proof. unfold bind. by intros ->. Qed.

Lemma heap_eta st : Heap (saos st) (blocks st) (handles st) (trace st) = st.
Proof. by destruct st. Qed.

Lemma sao_load_ok o s st :
  saos st !! o = Some s -> sao_load o st = Ok (s, st).
Proof. unfold sao_load. by intros ->. Qed.

Lemma sao_store_ok o s0 s st :
  saos st !! o = Some s0 ->
  sao_store o s st
  = Ok (tt, Heap (<[o := s]> (saos st)) (blocks st) (handles st) (trace st)).
Proof. unfold sao_store. by intros ->. Qed.

Lemma handle_load_ok h x st :
  handles st !! h = Some x -> handle_load h st = Ok (x, st).
Proof. unfold handle_load. by intros ->. Qed.

Lemma in_block_true b (j : nat) :
  (j < length b)%nat -> in_block b (Z.of_nat j) = true.
Proof.
  intros Hj. unfold in_block.
  apply andb_true_intro; split; [apply Z.leb_le | apply Z.ltb_lt]; lia.
Qed.

Lemma slot_read_ok p b (j : nat) st :
  blocks st !! p = Some b -> (j < length b)%nat ->
  slot_read (Some p) (Z.of_nat j) st = Ok (default None (b !! j), st).
Proof.
  intros Hp Hj. unfold slot_read, block_of, bind. rewrite Hp. simpl.
  rewrite in_block_true by done. by rewrite Nat2Z.id.
Qed.

Lemma slot_write_ok p b (j : nat) v st :
  blocks st !! p = Some b -> (j < length b)%nat ->
  slot_write (Some p) (Z.of_nat j) v st
  = Ok (tt, Heap (saos st) (<[p := <[j := v]> b]> (blocks st))
                 (handles st) (trace st)).
Proof.
  intros Hp Hj. unfold slot_write, block_of, bind. rewrite Hp. simpl.
  rewrite in_block_true by done. by rewrite Nat2Z.id.
Qed.

Lemma slot_construct_ok p b (j : nat) v st :
  blocks st !! p = Some b -> (j < length b)%nat ->
  slot_construct (Some p) (Z.of_nat j) v st
  = Ok (tt, Heap (saos st) (<[p := <[j := v]> b]> (blocks st))
                 (handles st) (trace st ++ [EConstruct p (Z.of_nat j)])).
Proof.
  intros Hp Hj. unfold slot_construct.
  erewrite bind_ok by (by apply slot_write_ok).
  unfold block_of, bind, emit. simpl. by rewrite lookup_insert_eq.
Qed.

Lemma slot_destruct_ok p b (j : nat) st :
  blocks st !! p = Some b -> (j < length b)%nat ->
  slot_destruct (Some p) (Z.of_nat j) st
  = Ok (tt, Heap (saos st) (<[p := <[j := None]> b]> (blocks st))
                 (handles st) (trace st ++ [EDestruct p (Z.of_nat j)])).
Proof.
  intros Hp Hj. unfold slot_destruct.
  erewrite bind_ok by (by apply slot_write_ok).
  unfold block_of, bind, emit. simpl. by rewrite lookup_insert_eq.
Qed.

Lemma drop_insert_here {A} (l : list A) (j : nat) x :
  (j < length l)%nat -> drop j (<[j := x]> l) = x :: drop (S j) l.
Proof.
  revert j. induction l as [|y l IH]; intros [|j] Hj; simpl in *;
    try lia; [done | apply IH; lia].
Qed.

Lemma replicate_shift {A} (k : nat) (x : A) l :
  replicate k x ++ x :: l = x :: replicate k x ++ l.
Proof. induction k; simpl; [done | by f_equal]. Qed.

(** The destructor loop of [~SAO]. *)
Lemma destruct_loop_run k p b st :
  blocks st !! p = Some b -> (k <= length b)%nat ->
  for_down_nat k (fun i => slot_destruct (Some p) i) st
  = Ok (tt, Heap (saos st)
                 (<[p := replicate k None ++ drop k b]> (blocks st))
                 (handles st)
                 (trace st ++ (EDestruct p <$> countdown k))).
Proof.
  revert b st. induction k as [|k IH]; intros b st Hp Hk; simpl.
  - rewrite drop_0, insert_id, app_nil_r by done.
    unfold ret. by rewrite heap_eta.
  - erewrite bind_ok by (apply slot_destruct_ok; [done | lia]).
    rewrite (IH (<[k := None]> b)); simpl.
    + rewrite insert_insert_eq, drop_insert_here by lia.
      rewrite replicate_shift, <- app_assoc. done.
    + by rewrite lookup_insert_eq.
    + rewrite length_insert. lia.
Qed.

(** The copy loop of [copy], [shrink] and [ensure]. *)
Lemma copy_loop_run k p q bp bq st :
  p <> q ->
  blocks st !! p = Some bp -> blocks st !! q = Some bq ->
  (k <= length bp)%nat -> (k <= length bq)%nat ->
  for_down_nat k
    (fun i => let* v := slot_read (Some p) i in
              slot_construct (Some q) i v) st
  = Ok (tt, Heap (saos st)
                 (<[q := take k bp ++ drop k bq]> (blocks st))
                 (handles st)
                 (trace st ++ (EConstruct q <$> countdown k))).
Proof.
  intros Hpq. revert bq st.
  induction k as [|k IH]; intros bq st Hp Hq Hkp Hkq; simpl.
  - rewrite drop_0, insert_id, app_nil_r by done.
    unfold ret. by rewrite heap_eta.
  - erewrite bind_ok; cycle 1.
    { erewrite bind_ok by (apply slot_read_ok; [done | lia]).
      apply slot_construct_ok; [done | lia]. }
    destruct (lookup_lt_is_Some_2 bp k) as [x Hx]; [lia |].
    rewrite (IH (<[k := default None (bp !! k)]> bq)); simpl.
    + rewrite insert_insert_eq, drop_insert_here by lia.
      rewrite Hx. simpl. rewrite (take_S_r _ _ x) by done.
      rewrite <- !app_assoc. done.
    + by rewrite lookup_insert_ne.
    + by rewrite lookup_insert_eq.
    + lia.
    + rewrite length_insert. lia.
Qed.

End StoreFacts.

Section SAOFacts.

Context {T : Type}.
Implicit Types (st : heap T) (s : SAO.t) (b : list (option T)).

Lemma wrap_uint_small z : 0 <= z < UINT_MOD -> wrap_uint z = z.
Proof. intros Hz. unfold wrap_uint. by apply Z.mod_small. Qed.

Lemma wrap_int_small z : INT_MIN <= z <= INT_MAX -> wrap_int z = z.
Proof.
  unfold wrap_int, INT_MIN, INT_MAX. intros Hz.
  rewrite Z.mod_small; lia.
Qed.

Lemma for_down_nonneg n (body : Z -> M T unit) :
  0 <= n -> for_down n body = for_down_nat (Z.to_nat n) body.
Proof.
  intros Hn. unfold for_down.
  destruct (Z.ltb_spec n 0); [lia | done].
Qed.

Lemma Memory_malloc_ok n st :
  0 <= n ->
  Memory_malloc n st
  = Ok (fresh (dom (blocks st)),
        Heap (saos st)
             (<[fresh (dom (blocks st)) := replicate (Z.to_nat n) None]>
                (blocks st))
             (handles st)
             (trace st ++ [EMalloc (fresh (dom (blocks st))) n])).
Proof.
  intros Hn. unfold Memory_malloc.
  destruct (Z.ltb_spec n 0); [lia | done].
Qed.

Lemma fresh_block st : blocks st !! fresh (dom (blocks st)) = None.
Proof. apply not_elem_of_dom, is_fresh. Qed.

Lemma fresh_sao st : saos st !! fresh (dom (saos st)) = None.
Proof. apply not_elem_of_dom, is_fresh. Qed.

Lemma fresh_block_ne st p b :
  blocks st !! p = Some b -> p <> fresh (dom (blocks st)).
Proof. intros Hp ->. by rewrite fresh_block in Hp. Qed.

Lemma fresh_sao_ne st o s :
  saos st !! o = Some s -> o <> fresh (dom (saos st)).
Proof. intros Ho ->. by rewrite fresh_sao in Ho. Qed.

Lemma Memory_free_ok p b st :
  blocks st !! p = Some b ->
  Memory_free (Some p) st
  = Ok (tt, Heap (saos st) (delete p (blocks st)) (handles st)
                 (trace st ++ [EFree p])).
Proof. unfold Memory_free. by intros ->. Qed.

(** [delete this] on a well-formed object. *)
Lemma SAO_delete_run o s st :
  saos st !! o = Some s -> wf_storage st s ->
  SAO_delete o st
  = Ok (tt, Heap (delete o (saos st)) (blocks_without s (blocks st))
                 (handles st) (trace st ++ teardown o s)).
Proof.
  intros Ho Hwf. unfold SAO_delete, blocks_without, teardown, wf_storage in *.
  erewrite bind_ok by (by apply sao_load_ok).
  destruct (SAO.a s) as [p|] eqn:Ha.
  - destruct Hwf as (Hn & b & Hp & Hlen).
    destruct (Z.gtb_spec (SAO.n s) 0); [| lia].
    rewrite for_down_nonneg by lia.
    erewrite bind_ok; cycle 1.
    { erewrite bind_ok by (apply destruct_loop_run; [done | lia]).
      eapply Memory_free_ok. simpl. by rewrite lookup_insert_eq. }
    simpl. rewrite delete_insert_eq, <- !app_assoc. done.
  - rewrite Hwf. simpl. unfold bind, ret. done.
Qed.

(** [release] when other stakes remain. *)
Lemma SAO_release_shared o s st :
  saos st !! o = Some s -> 2 <= SAO.use s < UINT_MOD ->
  SAO_release o st
  = Ok (tt, Heap (<[o := SAO.mk (SAO.use s - 1) (SAO.a s) (SAO.n s)]>
                    (saos st))
                 (blocks st) (handles st) (trace st)).
Proof.
  intros Ho Hu. unfold SAO_release.
  erewrite bind_ok by (by apply sao_load_ok).
  rewrite wrap_uint_small by lia.
  erewrite bind_ok by (by eapply sao_store_ok).
  destruct (Z.eqb_spec (SAO.use s - 1) 0); [lia | done].
Qed.

(** [release] of the last stake. *)
Lemma SAO_release_last o s st :
  saos st !! o = Some s -> wf_sao st s -> SAO.use s = 1 ->
  SAO_release o st
  = Ok (tt, Heap (delete o (saos st)) (blocks_without s (blocks st))
                 (handles st) (trace st ++ teardown o s)).
Proof.
  intros Ho Hwf Hu. unfold SAO_release.
  erewrite bind_ok by (by apply sao_load_ok).
  rewrite Hu. change (wrap_uint (1 - 1)) with 0.
  erewrite bind_ok by (by eapply sao_store_ok).
  change (0 =? 0) with true. cbv iota.
  erewrite (SAO_delete_run o (SAO.mk 0 (SAO.a s) (SAO.n s))); simpl.
  - by rewrite delete_insert_eq.
  - by rewrite lookup_insert_eq.
  - apply Hwf.
Qed.

(** [subscribe]. *)
Lemma SAO_subscribe_run o s st :
  saos st !! o = Some s -> 0 <= SAO.use s -> SAO.use s + 1 < UINT_MOD ->
  SAO_subscribe o st
  = Ok (tt, Heap (<[o := SAO.mk (SAO.use s + 1) (SAO.a s) (SAO.n s)]>
                    (saos st))
                 (blocks st) (handles st) (trace st)).
Proof.
  intros Ho Hu Hv. unfold SAO_subscribe.
  erewrite bind_ok by (by apply sao_load_ok).
  rewrite wrap_uint_small by lia. by eapply sao_store_ok.
Qed.

(** [new SAO<T>(n0)] with and without elements. *)
Lemma SAO_new_elems n0 st :
  0 < n0 ->
  let q := fresh (dom (blocks st)) in
  let o := fresh (dom (saos st)) in
  SAO_new n0 st
  = Ok (o, Heap (<[o := SAO.mk 1 (Some q) n0]> (saos st))
                (<[q := replicate (Z.to_nat n0) None]> (blocks st))
                (handles st)
                (trace st ++ [EMalloc q n0; ENew o])).
Proof.
  intros Hn q o. unfold SAO_new.
  destruct (Z.gtb_spec n0 0); [| lia].
  erewrite bind_ok; cycle 1.
  { erewrite bind_ok by (apply Memory_malloc_ok; lia). done. }
  simpl. by rewrite <- app_assoc.
Qed.

Lemma SAO_new_none n0 st :
  n0 <= 0 ->
  let o := fresh (dom (saos st)) in
  SAO_new n0 st
  = Ok (o, Heap (<[o := SAO.mk 1 None n0]> (saos st)) (blocks st)
                (handles st) (trace st ++ [ENew o])).
Proof.
  intros Hn o. unfold SAO_new.
  destruct (Z.gtb_spec n0 0); [lia | done].
Qed.

(** [copy] of a well-formed object: a new object with count 1 over a
    fresh block holding the first [n] slots of the source. *)
Lemma SAO_copy_elems o s p b st :
  saos st !! o = Some s -> SAO.a s = Some p -> 0 < SAO.n s ->
  blocks st !! p = Some b -> SAO.n s <= Z.of_nat (length b) ->
  let q := fresh (dom (blocks st)) in
  let c := fresh (dom (saos st)) in
  SAO_copy o st
  = Ok (c, Heap (<[c := SAO.mk 1 (Some q) (SAO.n s)]> (saos st))
                (<[q := take (Z.to_nat (SAO.n s)) b]> (blocks st))
                (handles st)
                (trace st ++ [EMalloc q (SAO.n s); ENew c]
                   ++ (EConstruct q <$> countdown (Z.to_nat (SAO.n s))))).
Proof.
  intros Ho Ha Hn Hp Hlen q c. unfold SAO_copy.
  erewrite bind_ok by (by apply sao_load_ok).
  erewrite bind_ok by (by apply SAO_new_elems).
  erewrite bind_ok by (apply sao_load_ok; simpl; apply lookup_insert_eq).
  rewrite for_down_nonneg by lia. rewrite Ha. simpl.
  erewrite bind_ok; cycle 1.
  { eapply (copy_loop_run _ p q b); simpl.
    - by eapply fresh_block_ne.
    - rewrite lookup_insert_ne; [done | symmetry; by eapply fresh_block_ne].
    - apply lookup_insert_eq.
    - lia.
    - rewrite length_replicate. lia. }
  unfold ret. simpl.
  rewrite insert_insert_eq, drop_replicate, Nat.sub_diag, app_nil_r.
  by rewrite <- app_assoc.
Qed.

Lemma SAO_copy_none o s st :
  saos st !! o = Some s -> SAO.a s = None -> SAO.n s = 0 ->
  let c := fresh (dom (saos st)) in
  SAO_copy o st
  = Ok (c, Heap (<[c := SAO.mk 1 None 0]> (saos st)) (blocks st)
                (handles st) (trace st ++ [ENew c])).
Proof.
  intros Ho Ha Hn c. unfold SAO_copy.
  erewrite bind_ok by (by apply sao_load_ok).
  rewrite Hn.
  erewrite bind_ok by (by apply SAO_new_none).
  erewrite bind_ok by (apply sao_load_ok; simpl; apply lookup_insert_eq).
  done.
Qed.

End SAOFacts.

Section ReallocFacts.

Context {T : Type}.
Implicit Types (st : heap T) (s : SAO.t) (b : list (option T)).

(** [shrink] to [m > 0] elements. *)
Lemma SAO_shrink_some o s p b m st :
  saos st !! o = Some s -> SAO.a s = Some p ->
  blocks st !! p = Some b -> SAO.n s <= Z.of_nat (length b) ->
  0 < m < SAO.n s ->
  let q := fresh (dom (blocks st)) in
  SAO_shrink o m st
  = Ok (tt, Heap (<[o := SAO.mk (SAO.use s) (Some q) m]> (saos st))
                 (delete p (<[q := take (Z.to_nat m) b]> (blocks st)))
                 (handles st)
                 (trace st ++ [EMalloc q m]
                    ++ (EConstruct q <$> countdown (Z.to_nat m))
                    ++ [EFree p])).
Proof.
  intros Ho Ha Hp Hlen Hm q. unfold SAO_shrink.
  erewrite bind_ok by (by apply sao_load_ok).
  destruct (Z.ltb_spec m (SAO.n s)); [| lia].
  erewrite bind_ok by done.
  destruct (Z.gtb_spec m 0); [| lia].
  assert (Hpq : p <> q) by (by eapply fresh_block_ne).
  erewrite bind_ok; cycle 1.
  { erewrite bind_ok by (apply Memory_malloc_ok; lia).
    rewrite for_down_nonneg by lia. rewrite Ha.
    erewrite bind_ok; cycle 1.
    { eapply (copy_loop_run _ p q b); simpl.
      - done.
      - by rewrite lookup_insert_ne.
      - apply lookup_insert_eq.
      - lia.
      - rewrite length_replicate. lia. }
    done. }
  destruct (Z.gtb_spec (SAO.n s) 0); [| lia].
  rewrite Ha.
  erewrite bind_ok; cycle 1.
  { eapply Memory_free_ok. simpl.
    rewrite lookup_insert_ne by done. by rewrite lookup_insert_ne. }
  simpl. erewrite sao_store_ok by done. simpl.
  rewrite insert_insert_eq, drop_replicate, Nat.sub_diag, app_nil_r.
  by rewrite <- !app_assoc.
Qed.

(** [shrink] to no element: nothing is allocated. *)
Lemma SAO_shrink_zero o s p b st :
  saos st !! o = Some s -> SAO.a s = Some p ->
  blocks st !! p = Some b -> 0 < SAO.n s ->
  SAO_shrink o 0 st
  = Ok (tt, Heap (<[o := SAO.mk (SAO.use s) None 0]> (saos st))
                 (delete p (blocks st)) (handles st)
                 (trace st ++ [EFree p])).
Proof.
  intros Ho Ha Hp Hn. unfold SAO_shrink.
  erewrite bind_ok by (by apply sao_load_ok).
  destruct (Z.ltb_spec 0 (SAO.n s)); [| lia].
  erewrite bind_ok by done.
  change (0 >? 0) with false. cbv iota.
  erewrite bind_ok by done.
  destruct (Z.gtb_spec (SAO.n s) 0); [| lia].
  rewrite Ha.
  erewrite bind_ok by (by eapply Memory_free_ok).
  simpl. by erewrite sao_store_ok.
Qed.


(** [ensure] at or beyond the current length of an object with
    elements. *)
Lemma SAO_ensure_grow o s p b i st :
  saos st !! o = Some s -> SAO.a s = Some p ->
  blocks st !! p = Some b -> SAO.n s <= Z.of_nat (length b) ->
  0 < SAO.n s <= i -> 2 * SAO.n s <= INT_MAX ->
  let q := fresh (dom (blocks st)) in
  let m := Z.max (2 * SAO.n s) i in
  SAO_ensure o i st
  = Ok (tt, Heap (<[o := SAO.mk (SAO.use s) (Some q) m]> (saos st))
                 (delete p
                    (<[q := take (Z.to_nat (SAO.n s)) b
                             ++ replicate (Z.to_nat m - Z.to_nat (SAO.n s))
                                  None]> (blocks st)))
                 (handles st)
                 (trace st ++ [EMalloc q m]
                    ++ (EConstruct q <$> countdown (Z.to_nat (SAO.n s)))
                    ++ [EFree p])).
Proof.
  intros Ho Ha Hp Hlen Hn H2 q m. unfold SAO_ensure.
  erewrite bind_ok by (by apply sao_load_ok).
  destruct (Z.geb_spec i (SAO.n s)); [| lia].
  rewrite wrap_int_small by (unfold INT_MIN, INT_MAX in *; lia).
  fold m.
  assert (Hpq : p <> q) by (by eapply fresh_block_ne).
  erewrite bind_ok by (apply Memory_malloc_ok; lia).
  rewrite for_down_nonneg by lia. rewrite Ha.
  erewrite bind_ok; cycle 1.
  { eapply (copy_loop_run _ p q b); simpl.
    - done.
    - by rewrite lookup_insert_ne.
    - apply lookup_insert_eq.
    - lia.
    - rewrite length_replicate. lia. }
  destruct (Z.gtb_spec (SAO.n s) 0); [| lia].
  erewrite bind_ok; cycle 1.
  { eapply Memory_free_ok. simpl.
    rewrite lookup_insert_ne by done. by rewrite lookup_insert_ne. }
  simpl. erewrite sao_store_ok by done. simpl.
  rewrite insert_insert_eq, drop_replicate.
  by rewrite <- !app_assoc.
Qed.

(** [ensure] on an object without elements. *)
Lemma SAO_ensure_first o s i st :
  saos st !! o = Some s -> SAO.a s = None -> SAO.n s = 0 -> 0 <= i ->
  let q := fresh (dom (blocks st)) in
  SAO_ensure o i st
  = Ok (tt, Heap (<[o := SAO.mk (SAO.use s) (Some q) i]> (saos st))
                 (<[q := replicate (Z.to_nat i) None]> (blocks st))
                 (handles st) (trace st ++ [EMalloc q i])).
Proof.
  intros Ho Ha Hn Hi q. unfold SAO_ensure.
  erewrite bind_ok by (by apply sao_load_ok).
  rewrite Hn.
  destruct (Z.geb_spec i 0); [| lia].
  change (wrap_int (2 * 0)) with 0. rewrite Z.max_r by lia.
  erewrite bind_ok by (apply Memory_malloc_ok; lia).
  change (for_down 0 _) with (@ret T unit tt).
  erewrite bind_ok by done.
  erewrite bind_ok by done.
  by erewrite sao_store_ok.
Qed.


End ReallocFacts.

Section HandleFacts.

Context {T Space : Type}.
Implicit Types (st : heap T) (s : SAO.t) (b : list (option T)).

Lemma since_app st st' evs :
  trace st' = trace st ++ evs -> since st st' = evs.
Proof. unfold since. intros ->. by rewrite drop_app_length. Qed.

Lemma since_same st st' : trace st' = trace st -> since st st' = [].
Proof. unfold since. intros ->. by rewrite drop_all. Qed.

Lemma countdown_elem (k : nat) j :
  0 <= j < Z.of_nat k -> j ∈ countdown k.
Proof.
  induction k as [|k IH]; intros Hj; [lia |]. simpl.
  destruct (decide (j = Z.of_nat k)) as [-> | Hne].
  - apply list_elem_of_here.
  - apply list_elem_of_further, IH. lia.
Qed.

Lemma SharedArray_shrink_held h o m st :
  handles st !! h = Some (Some o) ->
  SharedArray_shrink h m st = SAO_shrink o m st.
Proof.
  intros Hh. unfold SharedArray_shrink.
  by erewrite bind_ok by (by apply handle_load_ok).
Qed.

Lemma SharedArray_ensure_held h o i st :
  handles st !! h = Some (Some o) ->
  SharedArray_ensure h i st = SAO_ensure o i st.
Proof.
  intros Hh. unfold SharedArray_ensure.
  by erewrite bind_ok by (by apply handle_load_ok).
Qed.

Lemma SharedArray_size_held h o s st :
  handles st !! h = Some (Some o) -> saos st !! o = Some s ->
  SharedArray_size h st = Ok (SAO.n s, st).
Proof.
  intros Hh Ho. unfold SharedArray_size.
  erewrite bind_ok by (by apply handle_load_ok). cbv beta iota.
  erewrite bind_ok by (by apply sao_load_ok). done.
Qed.

Lemma SharedArray_size_empty h st :
  handles st !! h = Some None -> SharedArray_size h st = Ok (0, st).
Proof.
  intros Hh. unfold SharedArray_size.
  erewrite bind_ok by (by apply handle_load_ok). done.
Qed.

Lemma SharedArray_get_held h o s i st :
  handles st !! h = Some (Some o) -> saos st !! o = Some s ->
  SharedArray_get h i st = slot_read (SAO.a s) i st.
Proof.
  intros Hh Ho. unfold SharedArray_get.
  erewrite bind_ok by (by apply handle_load_ok). cbv beta iota.
  erewrite bind_ok by (by apply sao_load_ok). done.
Qed.

(** What a slot read answers depends on the block read only. *)
Lemma slot_read_answer a i st1 st2 :
  (forall p, a = Some p -> blocks st1 !! p = blocks st2 !! p) ->
  answer (slot_read a i st1) = answer (slot_read a i st2).
Proof.
  intros Hb. unfold slot_read, block_of, bind.
  destruct a as [p|]; [| done].
  rewrite <- (Hb p eq_refl).
  destruct (blocks st1 !! p) as [b|]; [| done]. simpl.
  by destruct (in_block b i).
Qed.

Lemma slot_read_take p q b1 b2 (k : nat) i st :
  blocks st !! p = Some b1 -> blocks st !! q = Some b2 ->
  b2 = take k b1 -> (k <= length b1)%nat -> 0 <= i < Z.of_nat k ->
  answer (slot_read (Some q) i st) = answer (slot_read (Some p) i st).
Proof.
  intros Hp Hq -> Hk Hi.
  rewrite <- (Z2Nat.id i) by lia.
  rewrite (slot_read_ok q (take k b1)), (slot_read_ok p b1);
    try done; try lia.
  - rewrite lookup_take_lt by lia. done.
  - rewrite length_take. lia.
Qed.

End HandleFacts.

Section SharedArrayProperties.

Context {T Space : Type}.
Implicit Types (st : heap T) (s : SAO.t) (b : list (option T)).

(** C7. For every [n >= 0], constructing a handle over a newly created
    buffer of [n] elements and then reading its length returns exactly
    [n]. *)
Theorem create_then_size (this : hid) (n : Z) st :
  0 <= n ->
  exists st',
    SharedArray_new this n st = Ok (tt, st') /\
    SharedArray_size this st' = Ok (n, st').
Proof.
  intros Hn. unfold SharedArray_new.
  destruct (decide (n = 0)) as [-> | Hne].
  - erewrite bind_ok by (by apply SAO_new_none).
    eexists; split; [reflexivity |].
    eapply (SharedArray_size_held _ _ (SAO.mk 1 None 0));
      simpl; apply lookup_insert_eq.
  - erewrite bind_ok by (apply SAO_new_elems; lia).
    eexists; split; [reflexivity |].
    eapply (SharedArray_size_held _ _ (SAO.mk _ _ _));
      simpl; apply lookup_insert_eq.
Qed.

(** C10. Self-assignment is a no-op: [h = h] leaves the whole store as it
    is, so the buffer pointer of [h], the reference count, the length and
    the elements are unchanged. [update] has no such check: updating the
    only handle of a buffer from itself releases the buffer and then
    subscribes to the deleted object. *)
Theorem assign_self_noop :
  (forall (this : hid) st, SharedArray_assign this this st = Ok (tt, st)) /\
  (forall home : Space,
      (SharedArray_new 0%nat 0 ;;
       SharedArray_update 0%nat home true 0%nat) (@empty_heap T)
      = Err DanglingPointer).
Proof.
  split.
  - intros this st. unfold SharedArray_assign.
    destruct (decide (this = this)); [done | congruence].
  - intros home. vm_compute. reflexivity.
Qed.


(** C2, amended. For a buffer of length [n] with storage [p] and
    [0 <= m < n], [shrink(m)] frees the old storage and leaves the length
    equal to [m]. With [m > 0] the first [m] elements are
    placement-constructed as copies into freshly allocated storage of
    exactly [m] slots; with [m = 0] nothing is allocated and the storage
    pointer is NULL. *)
Theorem shrink_reallocates (this : hid) o s p b m st :
  handles st !! this = Some (Some o) ->
  saos st !! o = Some s ->
  SAO.a s = Some p ->
  blocks st !! p = Some b ->
  SAO.n s <= Z.of_nat (length b) ->
  0 <= m < SAO.n s ->
  exists st',
    SharedArray_shrink this m st = Ok (tt, st') /\
    SharedArray_size this st' = Ok (m, st') /\
    EFree p ∈ since st st' /\
    blocks st' !! p = None /\
    if decide (m = 0) then
      saos st' !! o = Some (SAO.mk (SAO.use s) None 0) /\
      forall q k, EMalloc q k ∉ since st st'
    else
      exists q,
        blocks st !! q = None /\
        saos st' !! o = Some (SAO.mk (SAO.use s) (Some q) m) /\
        blocks st' !! q = Some (take (Z.to_nat m) b) /\
        length (take (Z.to_nat m) b) = Z.to_nat m /\
        EMalloc q m ∈ since st st' /\
        forall j, 0 <= j < m -> EConstruct q j ∈ since st st'.
Proof.
  intros Hh Ho Ha Hp Hlen Hm.
  rewrite (SharedArray_shrink_held _ o) by done.
  destruct (decide (m = 0)) as [-> | Hne].
  - erewrite SAO_shrink_zero by (done || lia).
    eexists; split; [reflexivity |].
    erewrite since_app by (simpl; reflexivity).
    split.
    { eapply (SharedArray_size_held _ o (SAO.mk _ _ 0));
        simpl; [done | apply lookup_insert_eq]. }
    split; [apply list_elem_of_here |].
    split; [simpl; apply lookup_delete_eq |].
    split; [simpl; apply lookup_insert_eq |].
    intros q k Hin. apply list_elem_of_singleton in Hin. discriminate.
  - erewrite SAO_shrink_some by (done || lia).
    set (q := fresh (dom (blocks st))).
    assert (Hpq : p <> q) by (by eapply fresh_block_ne).
    eexists; split; [reflexivity |].
    erewrite since_app by (simpl; reflexivity).
    split.
    { eapply (SharedArray_size_held _ o (SAO.mk _ _ m));
        simpl; [done | apply lookup_insert_eq]. }
    split; [apply list_elem_of_further, elem_of_app; right;
            apply list_elem_of_here |].
    split; [simpl; apply lookup_delete_eq |].
    exists q.
    split; [apply fresh_block |].
    split; [simpl; apply lookup_insert_eq |].
    split.
    { simpl. rewrite lookup_delete_ne by done. apply lookup_insert_eq. }
    split; [rewrite length_take; lia |].
    split; [apply list_elem_of_here |].
    intros j Hj. apply list_elem_of_further, elem_of_app; left.
    apply list_elem_of_fmap_2, countdown_elem. lia.
Qed.

(** [shrink] calls no destructor: the elements of the old storage are
    copied from and the storage is freed as it is. *)
Remark shrink_runs_no_destructor (this : hid) o s p b m st :
  handles st !! this = Some (Some o) ->
  saos st !! o = Some s ->
  SAO.a s = Some p ->
  blocks st !! p = Some b ->
  SAO.n s <= Z.of_nat (length b) ->
  0 <= m < SAO.n s ->
  forall p' j,
    EDestruct p' j ∉ since st (run_from (SharedArray_shrink this m) st).
Proof.
  intros Hh Ho Ha Hp Hlen Hm p' j. unfold run_from.
  rewrite (SharedArray_shrink_held _ o) by done.
  destruct (decide (m = 0)) as [-> | Hne].
  - erewrite SAO_shrink_zero by (done || lia).
    erewrite since_app by (simpl; reflexivity).
    intros Hin. apply list_elem_of_singleton in Hin. discriminate.
  - erewrite SAO_shrink_some by (done || lia).
    erewrite since_app by (simpl; reflexivity).
    intros Hin. apply elem_of_cons in Hin as [Hin | Hin]; [discriminate |].
    apply elem_of_app in Hin as [Hin | Hin].
    + apply list_elem_of_fmap in Hin as (k & Hk & _). discriminate.
    + apply list_elem_of_singleton in Hin. discriminate.
Qed.

(** C6, amended. For every handle whose buffer, if any, is well-formed:
    [size(0)] releases the stake of the handle (the count drops by one, or
    the buffer is destroyed when the stake was the last one) and leaves
    the handle empty, after which [size()] returns 0. For every handle
    that holds a buffer and every [n <> 0], [size(n)] overwrites only the
    stored length with [n]: the storage pointer, the stored elements and
    the reference count are unchanged and nothing is allocated. *)
Theorem resize_contract (this : hid) x st :
  handles st !! this = Some x ->
  holds_wf st x ->
  (exists st',
      SharedArray_resize this 0 st = Ok (tt, st') /\
      handles st' !! this = Some None /\
      SharedArray_size this st' = Ok (0, st') /\
      forall o s,
        x = Some o -> saos st !! o = Some s ->
        saos st' !! o
        = if decide (SAO.use s = 1) then None
          else Some (SAO.mk (SAO.use s - 1) (SAO.a s) (SAO.n s))) /\
  (forall n o s,
      n <> 0 -> x = Some o -> saos st !! o = Some s ->
      SharedArray_resize this n st
      = Ok (tt, Heap (<[o := SAO.mk (SAO.use s) (SAO.a s) n]> (saos st))
                     (blocks st) (handles st) (trace st))).
Proof.
  intros Hh Hx. split.
  - unfold SharedArray_resize.
    erewrite bind_ok by (by apply handle_load_ok).
    change (0 =? 0) with true. cbv iota.
    destruct x as [o|]; simpl in Hx.
    + destruct Hx as (s & Ho & Hu & Hwf). simpl.
      destruct (decide (SAO.use s = 1)) as [H1 | H1].
      * erewrite bind_ok by (by apply SAO_release_last).
        eexists; split; [reflexivity |].
        split; [simpl; apply lookup_insert_eq |].
        split; [apply SharedArray_size_empty; simpl; apply lookup_insert_eq |].
        intros o' s' [= <-] Ho'. rewrite Ho in Ho'. injection Ho' as <-.
        rewrite decide_True by done. simpl. apply lookup_delete_eq.
      * erewrite bind_ok by (apply SAO_release_shared; [done | lia]).
        eexists; split; [reflexivity |].
        split; [simpl; apply lookup_insert_eq |].
        split; [apply SharedArray_size_empty; simpl; apply lookup_insert_eq |].
        intros o' s' [= <-] Ho'. rewrite Ho in Ho'. injection Ho' as <-.
        rewrite decide_False by done. simpl. apply lookup_insert_eq.
    + simpl. erewrite bind_ok by done.
      eexists; split; [reflexivity |].
      split; [simpl; apply lookup_insert_eq |].
      split; [apply SharedArray_size_empty; simpl; apply lookup_insert_eq |].
      intros o s [=].
  - intros n o s Hn -> Ho. unfold SharedArray_resize.
    erewrite bind_ok by (by apply handle_load_ok).
    destruct (Z.eqb_spec n 0); [done |].
    erewrite bind_ok by (by apply sao_load_ok).
    by eapply sao_store_ok.
Qed.

End SharedArrayProperties.

(** Destroying the handles [hs] one after the other. *)
Section Stakes.

Context {T Space : Type}.
Implicit Types (st : heap T) (s : SAO.t) (b : list (option T)).

Lemma SharedArray_delete_shared (h : hid) o s st :
  handles st !! h = Some (Some o) -> saos st !! o = Some s ->
  2 <= SAO.use s < UINT_MOD ->
  SharedArray_delete h st
  = Ok (tt, Heap (<[o := SAO.mk (SAO.use s - 1) (SAO.a s) (SAO.n s)]>
                    (saos st))
                 (blocks st) (delete h (handles st)) (trace st)).
Proof.
  intros Hh Ho Hu. unfold SharedArray_delete.
  erewrite bind_ok by (by apply handle_load_ok). simpl.
  erewrite bind_ok by (by apply SAO_release_shared). done.
Qed.

Lemma SharedArray_delete_last (h : hid) o s st :
  handles st !! h = Some (Some o) -> saos st !! o = Some s ->
  wf_sao st s -> SAO.use s = 1 ->
  SharedArray_delete h st
  = Ok (tt, Heap (delete o (saos st)) (blocks_without s (blocks st))
                 (delete h (handles st)) (trace st ++ teardown o s)).
Proof.
  intros Hh Ho Hwf Hu. unfold SharedArray_delete.
  erewrite bind_ok by (by apply handle_load_ok). simpl.
  erewrite bind_ok by (by apply SAO_release_last). done.
Qed.

Lemma delete_all_app (l1 l2 : list hid) st :
  delete_all (l1 ++ l2) st = (delete_all l1 ;; delete_all l2) st.
Proof.
  revert st. induction l1 as [|h l1 IH]; intros st; simpl;
    [reflexivity |].
  unfold bind at 1 2 3.
  destruct (SharedArray_delete h st) as [[[] st1] | e]; [| done].
  apply IH.
Qed.

(** Destroying fewer handles than there are stakes only lowers the
    count. *)
Lemma delete_all_shared (hs : list hid) o s st :
  NoDup hs ->
  (forall h, h ∈ hs -> handles st !! h = Some (Some o)) ->
  saos st !! o = Some s ->
  Z.of_nat (length hs) < SAO.use s < UINT_MOD ->
  exists st',
    delete_all hs st = Ok (tt, st') /\
    saos st'
    = <[o := SAO.mk (SAO.use s - Z.of_nat (length hs)) (SAO.a s) (SAO.n s)]>
        (saos st) /\
    blocks st' = blocks st /\
    trace st' = trace st /\
    (forall h, h ∉ hs -> handles st' !! h = handles st !! h).
Proof.
  revert s st. induction hs as [|h hs IH]; intros s st Hnd Hhs Ho Hu.
  - exists st. simpl. repeat split; try done.
    rewrite Z.sub_0_r. destruct s. simpl. by rewrite insert_id.
  - apply NoDup_cons in Hnd as [Hh Hnd]. simpl in *.
    erewrite bind_ok; cycle 1.
    { eapply SharedArray_delete_shared; [| done | lia].
      apply Hhs, list_elem_of_here. }
    set (s1 := SAO.mk (SAO.use s - 1) (SAO.a s) (SAO.n s)).
    set (st1 := Heap (<[o := s1]> (saos st)) (blocks st)
                     (delete h (handles st)) (trace st)).
    destruct (IH s1 st1)
      as (st' & Hrun & Hs & Hb & Ht & Hrest); [done | | | | ].
    + intros h' Hh'. simpl.
      rewrite lookup_delete_ne by (intros ->; exact (Hh Hh')).
      apply Hhs. by apply list_elem_of_further.
    + simpl. apply lookup_insert_eq.
    + simpl. lia.
    + exists st'. split; [exact Hrun |]. simpl in *.
      split.
      { rewrite Hs, insert_insert_eq. do 2 f_equal. lia. }
      repeat split; try done.
      intros h' Hh'. apply not_elem_of_cons in Hh' as [Hne Hh'].
      rewrite Hrest by done. by apply lookup_delete_ne.
Qed.

Lemma teardown_once o s :
  count_occ event_eq_dec (teardown o s) (EDelete o) = 1%nat.
Proof.
  unfold teardown. rewrite count_occ_app.
  assert (H1 : count_occ event_eq_dec [EDelete o] (EDelete o) = 1%nat).
  { cbn [count_occ].
    destruct (event_eq_dec (EDelete o) (EDelete o)); congruence. }
  rewrite H1. destruct (SAO.a s) as [p|]; [| done].
  rewrite count_occ_app.
  assert (H0 : count_occ event_eq_dec [EFree p] (EDelete o) = 0%nat).
  { cbn [count_occ].
    destruct (event_eq_dec (EFree p) (EDelete o)); congruence. }
  rewrite H0.
  induction (countdown (Z.to_nat (SAO.n s))) as [|j l IH]; [done |].
  cbn [fmap list_fmap count_occ].
  destruct (event_eq_dec (EDestruct p j) (EDelete o)); [congruence |].
  exact IH.
Qed.

Lemma stakes_prefix (l1 l2 : list hid) o s st :
  NoDup (l1 ++ l2) ->
  (forall h, h ∈ l1 ++ l2 -> handles st !! h = Some (Some o)) ->
  saos st !! o = Some s ->
  Z.of_nat (length l1) < SAO.use s < UINT_MOD ->
  exists st',
    delete_all l1 st = Ok (tt, st') /\
    saos st' !! o
    = Some (SAO.mk (SAO.use s - Z.of_nat (length l1)) (SAO.a s) (SAO.n s)) /\
    blocks st' = blocks st /\
    trace st' = trace st /\
    (forall h, h ∈ l2 -> handles st' !! h = Some (Some o)).
Proof.
  intros Hnd Hhs Ho Hu.
  apply NoDup_app in Hnd as (Hnd1 & Hdisj & _).
  destruct (delete_all_shared l1 o s st)
    as (st' & Hrun & Hs & Hb & Ht & Hrest); try done.
  { intros h Hh. apply Hhs, elem_of_app. by left. }
  exists st'. split; [done |].
  split; [rewrite Hs; apply lookup_insert_eq |].
  repeat split; try done.
  intros h Hh. rewrite Hrest.
  - apply Hhs, elem_of_app. by right.
  - intros Hh1. exact (Hdisj h Hh1 Hh).
Qed.

(** C4. When [k >= 1] handles hold the stakes of a well-formed buffer,
    the count being [k]: destroying any [j < k] of them, in any order,
    leaves the buffer alive with count [k - j > 0], its storage untouched
    and reachable from the remaining handles, and destroys nothing;
    destroying all [k] destroys the buffer, and destroys it exactly once,
    with the last stake. *)
Theorem stakes_released_in_turn (hs : list hid) o s st :
  saos st !! o = Some s ->
  wf_sao st s ->
  NoDup hs ->
  (forall h, h ∈ hs -> handles st !! h = Some (Some o)) ->
  SAO.use s = Z.of_nat (length hs) ->
  (forall j : nat,
      (j < length hs)%nat ->
      exists st',
        delete_all (take j hs) st = Ok (tt, st') /\
        saos st' !! o
        = Some (SAO.mk (SAO.use s - Z.of_nat j) (SAO.a s) (SAO.n s)) /\
        0 < SAO.use s - Z.of_nat j /\
        blocks st' = blocks st /\
        (forall h, h ∈ drop j hs -> handles st' !! h = Some (Some o)) /\
        count_occ event_eq_dec (since st st') (EDelete o) = 0%nat) /\
  (exists st',
      delete_all hs st = Ok (tt, st') /\
      saos st' !! o = None /\
      (forall p, SAO.a s = Some p -> blocks st' !! p = None) /\
      count_occ event_eq_dec (since st st') (EDelete o) = 1%nat).
Proof.
  intros Ho [Hu Hwf] Hnd Hhs Hk. split.
  - intros j Hj.
    destruct (stakes_prefix (take j hs) (drop j hs) o s st)
      as (st' & Hrun & Hs & Hb & Ht & Hrest);
      rewrite ?take_drop, ?length_take; try done; try lia.
    exists st'. rewrite length_take, Nat.min_l in Hs by lia.
    repeat split; try done; try lia.
    by rewrite since_same.
  - assert (Hne : hs <> []) by (intros ->; simpl in Hk; lia).
    destruct (exists_last Hne) as (l1 & h & ->).
    rewrite length_app in Hk. simpl in Hk.
    destruct (stakes_prefix l1 [h] o s st)
      as (st1 & Hrun & Hs & Hb & Ht & Hrest); try done; try lia.
    set (s1 := SAO.mk (SAO.use s - Z.of_nat (length l1)) (SAO.a s)
                      (SAO.n s)) in *.
    assert (Hwf1 : wf_sao st1 s1).
    { split; [simpl; lia |].
      unfold wf_storage in *. simpl. by rewrite Hb. }
    rewrite delete_all_app.
    erewrite bind_ok by exact Hrun. simpl.
    erewrite bind_ok; cycle 1.
    { eapply (SharedArray_delete_last h o s1); try done.
      - apply Hrest, list_elem_of_here.
      - simpl. lia. }
    eexists; split; [reflexivity |].
    split; [simpl; apply lookup_delete_eq |].
    split.
    + intros p Hp. simpl. unfold blocks_without. simpl. rewrite Hp.
      apply lookup_delete_eq.
    + erewrite since_app by (simpl; rewrite Ht; reflexivity).
      apply teardown_once.
Qed.

End Stakes.

Section Update.

Context {T Space : Type}.
Implicit Types (st : heap T) (s : SAO.t) (b : list (option T)).

(** The sharing branch of [update], and the body of the copy constructor
    and of [operator=] after the release. *)
Lemma adopt_stake (this a : hid) o s st :
  handles st !! a = Some (Some o) -> saos st !! o = Some s ->
  0 <= SAO.use s -> SAO.use s + 1 < UINT_MOD ->
  (let* sa := handle_load a in
   handle_store this sa ;; when_sao sa SAO_subscribe) st
  = Ok (tt, Heap (<[o := SAO.mk (SAO.use s + 1) (SAO.a s) (SAO.n s)]>
                    (saos st))
                 (blocks st) (<[this := Some o]> (handles st)) (trace st)).
Proof.
  intros Ha Ho Hu Hv.
  erewrite bind_ok by (by apply handle_load_ok).
  erewrite bind_ok by reflexivity. simpl.
  by erewrite SAO_subscribe_run.
Qed.

(** The copy constructor takes a stake in the buffer of [a]. *)
Lemma SharedArray_copy_stakes (this a : hid) o s st :
  handles st !! a = Some (Some o) -> saos st !! o = Some s ->
  0 <= SAO.use s -> SAO.use s + 1 < UINT_MOD ->
  SharedArray_copy this a st
  = Ok (tt, Heap (<[o := SAO.mk (SAO.use s + 1) (SAO.a s) (SAO.n s)]>
                    (saos st))
                 (blocks st) (<[this := Some o]> (handles st)) (trace st)).
Proof. intros Ha Ho Hu Hv. unfold SharedArray_copy. by apply adopt_stake. Qed.

Lemma lookup_insert_same_value (hm : gmap hid (option addr)) h a v :
  hm !! a = Some v -> <[h := v]> hm !! a = Some v.
Proof.
  intros Ha. destruct (decide (h = a)) as [-> | Hne].
  - apply lookup_insert_eq.
  - by rewrite lookup_insert_ne.
Qed.

(** C1, amended. Let [a] hold a live buffer whose count can still grow.
    [h.update(home, true, a)] makes [h] and [a] hold that buffer, so that
    they report identical length and identical elements. When [h] did not
    hold the buffer before, its count is incremented by exactly one; when
    [h] already held it, the count after the call is the count before. *)
Theorem update_share_stakes (this a : hid) (home : Space) o s x st :
  handles st !! a = Some (Some o) ->
  saos st !! o = Some s ->
  1 <= SAO.use s -> SAO.use s + 1 < UINT_MOD ->
  handles st !! this = Some x ->
  releasable st x o s ->
  exists st',
    SharedArray_update this home true a st = Ok (tt, st') /\
    handles st' !! this = Some (Some o) /\
    handles st' !! a = Some (Some o) /\
    SharedArray_size this st' = Ok (SAO.n s, st') /\
    SharedArray_size a st' = Ok (SAO.n s, st') /\
    (forall i, SharedArray_get this i st' = SharedArray_get a i st') /\
    saos st' !! o
    = Some (SAO.mk (if decide (x = Some o) then SAO.use s
                    else SAO.use s + 1)
                   (SAO.a s) (SAO.n s)).
Proof.
  intros Ha Ho Hu Hv Hh Hx.
  assert (Hfin : forall st' u,
    handles st' !! this = Some (Some o) ->
    handles st' !! a = Some (Some o) ->
    saos st' !! o = Some (SAO.mk u (SAO.a s) (SAO.n s)) ->
    SharedArray_size this st' = Ok (SAO.n s, st') /\
    SharedArray_size a st' = Ok (SAO.n s, st') /\
    (forall i, SharedArray_get this i st' = SharedArray_get a i st')).
  { intros st' u H1 H2 H3. repeat split.
    - by apply (SharedArray_size_held _ o (SAO.mk u (SAO.a s) (SAO.n s))).
    - by apply (SharedArray_size_held _ o (SAO.mk u (SAO.a s) (SAO.n s))).
    - intros i.
      by rewrite !(SharedArray_get_held _ o
                     (SAO.mk u (SAO.a s) (SAO.n s))). }
  unfold SharedArray_update.
  erewrite bind_ok by (by apply handle_load_ok).
  destruct x as [o'|]; simpl in Hx; simpl.
  - destruct (decide (o' = o)) as [-> | Hne].
    + erewrite bind_ok by (apply SAO_release_shared; [done | lia]).
      rewrite (adopt_stake _ _ o
                 (SAO.mk (SAO.use s - 1) (SAO.a s) (SAO.n s)));
        simpl; try done; try lia; [| apply lookup_insert_eq].
      rewrite decide_True by done. rewrite insert_insert_eq.
      replace (SAO.use s - 1 + 1) with (SAO.use s) by lia.
      eexists; split; [reflexivity |]. simpl.
      assert (H1 := lookup_insert_eq (handles st) this (Some o)).
      assert (H2 := lookup_insert_same_value (handles st) this a _ Ha).
      assert (H3 := lookup_insert_eq (saos st) o
                      (SAO.mk (SAO.use s) (SAO.a s) (SAO.n s))).
      repeat split; try done; by eapply Hfin.
    + destruct Hx as (s' & Ho' & Hwf').
      rewrite decide_False by congruence.
      assert (H1 := lookup_insert_eq (handles st) this (Some o)).
      assert (H2 := lookup_insert_same_value (handles st) this a _ Ha).
      destruct (decide (SAO.use s' = 1)) as [Hlast | Hmore].
      * erewrite bind_ok by (by apply SAO_release_last).
        rewrite (adopt_stake _ _ o s);
          simpl; try done; try lia; [| by rewrite lookup_delete_ne].
        assert (H3 := lookup_insert_eq (delete o' (saos st)) o
                      (SAO.mk (SAO.use s + 1) (SAO.a s) (SAO.n s))).
        eexists; split; [reflexivity |]. simpl.
        repeat split; try done; by eapply Hfin.
      * destruct Hwf' as [Hu' _].
        erewrite bind_ok by (apply SAO_release_shared; [done | lia]).
        rewrite (adopt_stake _ _ o s);
          simpl; try done; try lia; [| by rewrite lookup_insert_ne].
        eexists; split; [reflexivity |]. simpl.
        assert (H3 := lookup_insert_eq
                      (<[o' := SAO.mk (SAO.use s' - 1) (SAO.a s')
                                      (SAO.n s')]> (saos st)) o
                      (SAO.mk (SAO.use s + 1) (SAO.a s) (SAO.n s))).
        repeat split; try done; by eapply Hfin.
  - erewrite bind_ok by reflexivity.
    rewrite (adopt_stake _ _ o s); simpl; try done; try lia.
    assert (H1 := lookup_insert_eq (handles st) this (Some o)).
    assert (H2 := lookup_insert_same_value (handles st) this a _ Ha).
    assert (H3 := lookup_insert_eq (saos st) o
                    (SAO.mk (SAO.use s + 1) (SAO.a s) (SAO.n s))).
    eexists; split; [reflexivity |]. simpl.
    repeat split; try done; by eapply Hfin.
Qed.

End Update.

Section Divergence.

Context {T Space : Type}.
Implicit Types (st : heap T) (s : SAO.t) (b : list (option T)).

(** [update] without sharing, between two handles of one buffer. *)
Lemma update_copy_diverges (x y : hid) (home : Space) o s st :
  x <> y ->
  handles st !! x = Some (Some o) ->
  handles st !! y = Some (Some o) ->
  saos st !! o = Some s ->
  wf_sao st s ->
  2 <= SAO.use s ->
  exists st',
    SharedArray_update x home false y st = Ok (tt, st') /\
    saos st' !! o = Some (SAO.mk (SAO.use s - 1) (SAO.a s) (SAO.n s)) /\
    diverged st st' x y.
Proof.
  intros Hxy Hx Hy Ho [Hu Hwf] H2. unfold SharedArray_update.
  erewrite bind_ok by (by apply handle_load_ok). simpl.
  erewrite bind_ok by (apply SAO_release_shared; [done | lia]).
  erewrite bind_ok by (by apply handle_load_ok). simpl.
  set (s1 := SAO.mk (SAO.use s - 1) (SAO.a s) (SAO.n s)).
  set (c := fresh (dom (<[o := s1]> (saos st)))).
  assert (Hc : <[o := s1]> (saos st) !! c = None)
    by apply not_elem_of_dom, is_fresh.
  assert (Hco : c <> o).
  { intros E. rewrite E, lookup_insert_eq in Hc. done. }
  assert (Hc0 : saos st !! c = None) by (by rewrite lookup_insert_ne in Hc).
  assert (Hy2 : <[x := Some c]> (handles st) !! y = Some (Some o))
    by (by rewrite lookup_insert_ne).
  assert (Hx2 : <[x := Some c]> (handles st) !! x = Some (Some c))
    by apply lookup_insert_eq.
  assert (Ho2 : forall sc, <[c := sc]> (<[o := s1]> (saos st)) !! o
                           = Some s1).
  { intros sc. rewrite lookup_insert_ne by done. apply lookup_insert_eq. }
  assert (Hc2 : forall sc, <[c := sc]> (<[o := s1]> (saos st)) !! c
                           = Some sc)
    by (intros sc; apply lookup_insert_eq).
  unfold wf_storage in Hwf.
  destruct (SAO.a s) as [p|] eqn:Ha.
  - destruct Hwf as (Hn & b & Hp & Hlen).
    set (q := fresh (dom (blocks st))).
    assert (Hq : blocks st !! q = None) by apply fresh_block.
    assert (Hpq : p <> q) by (by eapply fresh_block_ne).
    erewrite bind_ok; cycle 1.
    { eapply (SAO_copy_elems o s1 p b); simpl; try done.
      apply lookup_insert_eq. }
    cbn [saos blocks handles trace SAO.n]. fold c q.
    set (sc := SAO.mk 1 (Some q) (SAO.n s)).
    eexists; split; [reflexivity |].
    split; [apply Ho2 |].
    unfold diverged.
    rewrite (SharedArray_size_held y o s1) by (apply Hy2 || apply Ho2).
    rewrite (SharedArray_size_held y o s) by done.
    rewrite (SharedArray_size_held x c sc) by (apply Hx2 || apply Hc2).
    split; [done |].
    split.
    { intros i.
      rewrite (SharedArray_get_held y o s1) by (apply Hy2 || apply Ho2).
      rewrite (SharedArray_get_held y o s) by done.
      simpl SAO.a. rewrite Ha.
      apply slot_read_answer. intros p' [= <-]. simpl.
      by rewrite lookup_insert_ne. }
    exists c, sc, (SAO.n s).
    cbn [saos blocks handles trace].
    split; [apply Hx2 |].
    split; [rewrite Hy2; congruence |].
    split; [done |].
    split; [apply Hc2 |].
    split; [done |].
    split; [intros q' [= <-]; done |].
    split; [done |].
    split; [done |].
    intros i Hi.
    rewrite (SharedArray_get_held x c sc) by (apply Hx2 || apply Hc2).
    rewrite (SharedArray_get_held y o s1) by (apply Hy2 || apply Ho2).
    unfold sc, s1. simpl SAO.a.
    eapply (slot_read_take p q b _ (Z.to_nat (SAO.n s))); simpl.
    + by rewrite lookup_insert_ne.
    + apply lookup_insert_eq.
    + done.
    + lia.
    + lia.
  - erewrite bind_ok; cycle 1.
    { eapply (SAO_copy_none o s1); simpl; try done.
      apply lookup_insert_eq. }
    cbn [saos blocks handles trace SAO.n]. fold c.
    set (sc := SAO.mk 1 None 0).
    eexists; split; [reflexivity |].
    split; [apply Ho2 |].
    unfold diverged.
    rewrite (SharedArray_size_held y o s1) by (apply Hy2 || apply Ho2).
    rewrite (SharedArray_size_held y o s) by done.
    rewrite (SharedArray_size_held x c sc) by (apply Hx2 || apply Hc2).
    split; [done |].
    split.
    { intros i.
      rewrite (SharedArray_get_held y o s1) by (apply Hy2 || apply Ho2).
      rewrite (SharedArray_get_held y o s) by done.
      simpl SAO.a. rewrite Ha. done. }
    exists c, sc, 0.
    cbn [saos blocks handles trace].
    split; [apply Hx2 |].
    split; [rewrite Hy2; congruence |].
    split; [done |].
    split; [apply Hc2 |].
    split; [done |].
    split; [intros q' [=] |].
    split; [done |].
    split; [simpl; by rewrite Hwf |].
    intros i Hi. lia.
Qed.

(** C5, amended. For every handle [a] that holds a well-formed buffer
    whose count can still grow: after copying [a] into another handle [b],
    updating either of the two from the other with [share = false] leaves
    the other handle's length and elements unchanged, and the updated
    handle holds an independent buffer with reference count 1 whose
    elements equal the source's elements. *)
Theorem copy_then_diverge (a b : hid) (home : Space) o s st :
  a <> b ->
  handles st !! a = Some (Some o) ->
  saos st !! o = Some s ->
  wf_sao st s ->
  SAO.use s + 1 < UINT_MOD ->
  exists st1,
    SharedArray_copy b a st = Ok (tt, st1) /\
    forall x y,
      (x = b /\ y = a) \/ (x = a /\ y = b) ->
      exists st2,
        SharedArray_update x home false y st1 = Ok (tt, st2) /\
        diverged st1 st2 x y.
Proof.
  intros Hab Ha Ho [Hu Hwf] Hv.
  erewrite SharedArray_copy_stakes by (done || lia).
  eexists; split; [reflexivity |].
  intros x y Hdir.
  edestruct (update_copy_diverges x y home o
               (SAO.mk (SAO.use s + 1) (SAO.a s) (SAO.n s)))
    as (st2 & Hrun & _ & Hdiv); cycle 6.
  { exists st2. split; [exact Hrun | exact Hdiv]. }
  - destruct Hdir as [[-> ->] | [-> ->]]; congruence.
  - simpl. destruct Hdir as [[-> ->] | [-> ->]].
    + apply lookup_insert_eq.
    + by rewrite lookup_insert_ne.
  - simpl. destruct Hdir as [[-> ->] | [-> ->]].
    + by rewrite lookup_insert_ne.
    + apply lookup_insert_eq.
  - simpl. apply lookup_insert_eq.
  - split; [simpl; lia | exact Hwf].
  - simpl. lia.
Qed.

End Divergence.

Section RegistryProperties.

Context {Space VarBase VarPayload ActorPayload : Type}.
Context (creator_code :
           fptr -> Space -> @VarSpec VarPayload -> VarBase * Space).
Context (poster_code :
           fptr -> Space -> list VarBase -> @ActorSpec ActorPayload -> Space).

Abbreviation createVar := (Registry_createVar creator_code).
Abbreviation dpost := (Deserializer_post poster_code).
Abbreviation dpost_checked := (Deserializer_post_checked poster_code).

Lemma resolve_bad_index (vars : list VarBase) idx :
  bad_index vars idx -> resolve vars idx = None.
Proof.
  unfold resolve. intros (i & Hi & Hbad).
  induction idx as [|j idx IH]; [by apply elem_of_nil in Hi |].
  apply elem_of_cons in Hi as [Heq | Hi]; [subst j |]; simpl.
  - destruct (Z.leb_spec 0 i) as [H0 | H0]; [| done].
    rewrite lookup_ge_None_2 by lia. done.
  - rewrite (IH Hi).
    by destruct (if 0 <=? j then vars !! Z.to_nat j else None).
Qed.

(** C8. For every registry state and every variable specification: if a
    factory is registered for the type identifier of the specification,
    [createVar] invokes that factory, once, on the target state and the
    specification, and returns its result; if none is registered it fails
    with UnknownVariableType and leaves the target state as it is. A
    factory just registered for the type identifier is the one
    invoked. *)
Theorem createVar_dispatch (r : Registry) (spec : VarSpec) (w : target) :
  match varCreators r !! vti spec with
  | Some f =>
      createVar r spec w
      = (Returns (creator_code f (space w) spec).1,
         mkTarget (creator_code f (space w) spec).2
                  (calls w ++ [CallCreator f]))
  | None => createVar r spec w = (Throws UnknownVariableType, w)
  end /\
  (forall f,
      let w' := (createVar (Registry_add_varCreator r (vti spec) f) spec w).2 in
      createVar (Registry_add_varCreator r (vti spec) f) spec w
      = (Returns (creator_code f (space w) spec).1, w') /\
      space w' = (creator_code f (space w) spec).2 /\
      new_calls w w' = [CallCreator f]).
Proof.
  split.
  - unfold Registry_createVar. by destruct (varCreators r !! vti spec).
  - intros f. unfold Registry_createVar, Registry_add_varCreator, new_calls.
    simpl. rewrite lookup_insert_eq. simpl.
    by rewrite drop_app_length.
Qed.

Lemma resolve_None_bad (vars : list VarBase) idx :
  resolve vars idx = None -> bad_index vars idx.
Proof.
  unfold resolve. induction idx as [|j idx IH]; [discriminate |].
  intros Hnone.
  destruct (decide (0 <= j < Z.of_nat (length vars))) as [Hj | Hj].
  - destruct IH as (i & Hi & Hbad).
    + simpl in Hnone.
      destruct (Z.leb_spec 0 j) as [_ | ?]; [| lia].
      destruct (lookup_lt_is_Some_2 vars (Z.to_nat j)) as [x Hx]; [lia |].
      rewrite Hx in Hnone. simpl in Hnone.
      by destruct (mapM _ idx).
    + exists i. split; [by apply list_elem_of_further | done].
  - exists j. split; [apply list_elem_of_here | done].
Qed.

(** The first reading of the description of [postConstraint], in which it
    only calls [Registry::post] and the poster resolves the indices. For
    every session, [postConstraint] never creates variables: the
    creation-order sequence and the identifier map are unchanged and no
    factory is called. If the constraint kind is registered and some
    argument index is not a valid position of the creation-order
    sequence, it fails with UndefinedVariableReference and the target
    state is unchanged; if the kind is not registered, it fails with
    UnknownConstraintKind, whatever the indices, and the target state is
    unchanged. *)
Theorem post_creates_no_variable (registry : Registry) (d : Deserializer)
    (spec : ActorSpec) :
  let r := dpost registry d spec in
  v r.2 = v d /\
  m r.2 = m d /\
  (forall f, CallCreator f ∉ new_calls (home d) (home r.2)) /\
  (forall p,
      posters registry !! ati spec = Some p ->
      bad_index (v d) (args spec) ->
      r.1 = Throws UndefinedVariableReference /\
      space (home r.2) = space (home d)) /\
  (posters registry !! ati spec = None ->
   r.1 = Throws UnknownConstraintKind /\ home r.2 = home d).
Proof.
  unfold Deserializer_post, Registry_post, invoke_poster, new_calls. simpl.
  split; [reflexivity |]. split; [reflexivity |].
  split; [| split].
  - intros f.
    destruct (posters registry !! ati spec) as [p|]; simpl.
    + destruct (resolve (v d) (args spec)); simpl;
        rewrite drop_app_length; intros Hin;
        apply list_elem_of_singleton in Hin; discriminate.
    + rewrite drop_all. apply not_elem_of_nil.
  - intros p Hp Hbad. rewrite Hp, (resolve_bad_index _ _ Hbad). by split.
  - intros Hp. rewrite Hp. by split.
Qed.

(** The second reading, in which the deserializer checks the indices
    before it calls the registry: the statement of C9 holds as given, for
    every registry, session and specification. *)
Lemma post_checked_claim (registry : Registry) (d : Deserializer)
    (spec : ActorSpec) :
  post_claim (dpost_checked registry) d spec.
Proof.
  unfold post_claim, Deserializer_post_checked.
  destruct (resolve (v d) (args spec)) as [xs|] eqn:Hres.
  - destruct (post_creates_no_variable registry d spec)
      as (Hv & _ & Hcalls & _).
    split; [exact Hv |]. split; [exact Hcalls |].
    intros Hbad. rewrite (resolve_bad_index _ _ Hbad) in Hres. discriminate.
  - simpl. split; [reflexivity |]. split.
    + intros f. unfold new_calls. rewrite drop_all. apply not_elem_of_nil.
    + intros _. by split.
Qed.

(** The two readings give the same outcome, the same target state, the
    same creation-order sequence and the same identifier map whenever the
    constraint kind is registered or every index is a valid position:
    they part only on an unregistered kind with an index out of range. *)
Lemma post_readings_agree (registry : Registry) (d : Deserializer)
    (spec : ActorSpec) :
  is_Some (posters registry !! ati spec) \/
  ~ bad_index (v d) (args spec) ->
  (dpost_checked registry d spec).1 = (dpost registry d spec).1 /\
  space (home (dpost_checked registry d spec).2)
  = space (home (dpost registry d spec).2) /\
  v (dpost_checked registry d spec).2 = v (dpost registry d spec).2 /\
  m (dpost_checked registry d spec).2 = m (dpost registry d spec).2.
Proof.
  intros Hcase. unfold Deserializer_post_checked.
  destruct (resolve (v d) (args spec)) as [xs|] eqn:Hres; [done |].
  destruct Hcase as [[p Hp] | Hgood].
  - unfold Deserializer_post, Registry_post, invoke_poster.
    rewrite Hp, Hres. done.
  - destruct Hgood. by apply resolve_None_bad.
Qed.

End RegistryProperties.

(** ** The generator *)

Section GeneratorFacts.

Context (m a q r : Z).

Lemma wrap_int_uint z : wrap_int (wrap_uint z) = wrap_int z.
Proof.
  unfold wrap_int, wrap_uint, UINT_MOD.
  rewrite Zplus_mod_idemp_l. done.
Qed.

Lemma wrap_uint_sub z1 z2 :
  wrap_uint (wrap_uint z1 - wrap_uint z2) = wrap_uint (z1 - z2).
Proof. unfold wrap_uint. by rewrite <- Zminus_mod. Qed.

Lemma wrap_uint_add_l z1 z2 :
  wrap_uint (wrap_uint z1 + z2) = wrap_uint (z1 + z2).
Proof. unfold wrap_uint. by rewrite Zplus_mod_idemp_l. Qed.

(** One step of Schrage's method on a state in [0, m). *)
Lemma schrage_step (g : LCG.t) :
  schrage m a q r ->
  0 <= LCG.s g < m ->
  LCG.next m a q r g
  = ((a * LCG.s g) mod m,
     LCG.mk (if (a * LCG.s g) mod m =? 0 then 1 else (a * LCG.s g) mod m)
            (LCG.rand_max g)).
Proof.
  intros (Ha & Hq & Hr & Hm & Hm2) Hs.
  set (s0 := LCG.s g) in *.
  set (x := s0 mod q). set (y := s0 / q).
  assert (Hxy : s0 = q * y + x) by (apply Z.div_mod; lia).
  assert (Hx : 0 <= x < q) by (apply Z.mod_pos_bound; lia).
  assert (Hy : 0 <= y) by (apply Z.div_pos; lia).
  set (d := a * x - r * y).
  assert (Hd : a * s0 = m * y + d) by (unfold d; nia).
  assert (Hya : y <= a).
  { destruct (Z_le_gt_dec y a); [done | nia]. }
  assert (Hdm : - m < d < m) by (unfold d; nia).
  assert (Hmod : (a * s0) mod m
                 = if d <? 0 then d + m else d).
  { destruct (Z.ltb_spec d 0).
    - symmetry. apply (Z.mod_unique_pos _ _ (y - 1)); lia.
    - symmetry. apply (Z.mod_unique_pos _ _ y); lia. }
  unfold LCG.next. fold s0.
  rewrite (wrap_uint_small s0) by (unfold UINT_MOD; lia).
  fold x y. rewrite wrap_uint_sub, wrap_int_uint. fold d.
  rewrite (wrap_int_small d) by (unfold INT_MIN, INT_MAX; lia).
  rewrite Hmod.
  destruct (Z.ltb_spec d 0).
  - rewrite wrap_uint_add_l, wrap_int_uint.
    rewrite (wrap_int_small (d + m)) by (unfold INT_MIN, INT_MAX; lia).
    rewrite wrap_uint_small by (unfold UINT_MOD; lia). done.
  - rewrite wrap_uint_small by (unfold UINT_MOD; lia). done.
Qed.

End GeneratorFacts.

Section GeneratorProperties.

Context (m a q r : Z).

Lemma draw_length k (g : LCG.t) : length (LCG.draw m a q r k g).1 = k.
Proof. revert g. induction k as [|k IH]; intros g; simpl; [done | by rewrite IH]. Qed.

(** X1. With parameters that satisfy [m = a*q + r], [r < q] and
    [m <= 2^31], [next] on a state [s] in [0, m) returns [a*s mod m]
    although it never forms the product [a*s]; the new state is the value
    returned, or 1 when that value is 0; [rand_max] is kept. *)
Theorem next_is_multiplication (g : LCG.t) :
  schrage m a q r ->
  0 <= LCG.s g < m ->
  (LCG.next m a q r g).1 = (a * LCG.s g) mod m /\
  LCG.s (LCG.next m a q r g).2
  = (if (a * LCG.s g) mod m =? 0 then 1 else (a * LCG.s g) mod m) /\
  LCG.rand_max (LCG.next m a q r g).2 = LCG.rand_max g.
Proof.
  intros Hp Hs. rewrite (schrage_step m a q r g Hp Hs). simpl.
  repeat split.
Qed.

(** The state after a reseed. *)
Lemma seed_state (g : LCG.t) x :
  2 <= m <= 2 ^ 31 ->
  LCG.s (LCG.seed m g x) = (if x mod m =? 0 then 1 else x mod m) /\
  1 <= LCG.s (LCG.seed m g x) < m.
Proof.
  intros Hm. unfold LCG.seed. simpl.
  assert (Hx : 0 <= x mod m < m) by (apply Z.mod_pos_bound; lia).
  rewrite wrap_int_small by (unfold INT_MIN, INT_MAX; lia).
  destruct (Z.eqb_spec (x mod m) 0); split; lia.
Qed.

Lemma next_state_range (g : LCG.t) :
  schrage m a q r ->
  1 <= LCG.s g < m ->
  0 <= (LCG.next m a q r g).1 < m /\
  1 <= LCG.s (LCG.next m a q r g).2 < m.
Proof.
  intros Hp Hs. rewrite (schrage_step m a q r g Hp) by lia. simpl.
  destruct Hp as (_ & _ & _ & _ & Hm).
  assert (Hv : 0 <= (a * LCG.s g) mod m < m) by (apply Z.mod_pos_bound; lia).
  destruct (Z.eqb_spec ((a * LCG.s g) mod m) 0); lia.
Qed.

Lemma draw_range k (g : LCG.t) :
  schrage m a q r ->
  1 <= LCG.s g < m ->
  Forall (fun v => 0 <= v < m) (LCG.draw m a q r k g).1 /\
  1 <= LCG.s (LCG.draw m a q r k g).2 < m.
Proof.
  intros Hp. revert g. induction k as [|k IH]; intros g Hs; simpl.
  - split; [constructor | done].
  - destruct (next_state_range g Hp Hs) as [Hv Hs'].
    destruct (IH _ Hs') as [Hvs Hs''].
    split; [by constructor | done].
Qed.

Lemma draw_rand_max k (g : LCG.t) :
  LCG.rand_max (LCG.draw m a q r k g).2 = LCG.rand_max g.
Proof.
  revert g. induction k as [|k IH]; intros g; simpl; [done |].
  by rewrite IH.
Qed.

(** X2. Whatever [int] seed a generator is constructed with, and however
    many numbers are drawn from it, the state stays in [1, m-1], every
    number returned by [next] is below [m], and [rand_max] is [2^31]. *)
Theorem generator_stays_in_range (seed0 : Z) (k : nat) :
  schrage m a q r ->
  INT_MIN <= seed0 <= INT_MAX ->
  let vg := LCG.draw m a q r k (LCG.create m seed0) in
  Forall (fun v => 0 <= v < m) vg.1 /\
  length vg.1 = k /\
  1 <= LCG.s vg.2 < m /\
  LCG.rand_max vg.2 = 2 ^ 31.
Proof.
  intros Hp Hseed vg.
  assert (Hm : 2 <= m <= 2 ^ 31) by apply Hp.
  destruct (seed_state (LCG.mk 0 (Z.shiftl 1 31)) (wrap_uint seed0) Hm)
    as [_ Hs].
  destruct (draw_range k (LCG.create m seed0) Hp Hs) as [Hvs Hs'].
  split; [exact Hvs |]. split; [apply draw_length |]. split; [exact Hs' |].
  subst vg. rewrite draw_rand_max. reflexivity.
Qed.

(** X3. Reading the seed back after [seed(x)] gives [x mod m], or 1 when
    that is 0; so a seed [x] in [1, m-1] is read back as it was set. *)
Theorem seed_round_trip (g : LCG.t) (x : Z) :
  2 <= m <= 2 ^ 31 ->
  LCG.get_seed (LCG.seed m g x) = (if x mod m =? 0 then 1 else x mod m) /\
  (1 <= x < m -> LCG.get_seed (LCG.seed m g x) = x).
Proof.
  intros Hm. destruct (seed_state g x Hm) as [Hs Hrange].
  unfold LCG.get_seed.
  rewrite wrap_uint_small by (unfold UINT_MOD; lia).
  split; [exact Hs |].
  intros Hx. rewrite Hs, Z.mod_small by lia.
  destruct (Z.eqb_spec x 0); lia.
Qed.

(** With [a] prime to [m], a nonzero state never leads to the value 0. *)
Lemma next_nonzero (s0 : Z) :
  schrage m a q r -> Z.gcd a m = 1 -> 1 <= s0 < m -> (a * s0) mod m <> 0.
Proof.
  intros (_ & _ & _ & _ & Hm) Hgcd Hs Hz.
  apply Z.mod_divide in Hz; [| lia].
  apply Z.gauss in Hz; [| by rewrite Z.gcd_comm].
  apply Z.divide_pos_le in Hz; lia.
Qed.

Lemma draw_powers k (g : LCG.t) :
  schrage m a q r -> Z.gcd a m = 1 -> 1 <= LCG.s g < m ->
  (LCG.draw m a q r k g).1
  = map (fun i => (a ^ Z.of_nat (S i) * LCG.s g) mod m) (seq 0 k) /\
  LCG.s (LCG.draw m a q r k g).2 = (a ^ Z.of_nat k * LCG.s g) mod m.
Proof.
  intros Hp Hgcd. revert g. induction k as [|k IH]; intros g Hs.
  - simpl. split; [done |]. rewrite Z.mod_small; lia.
  - cbn [LCG.draw].
    rewrite (schrage_step m a q r g Hp) by lia. cbn [fst snd].
    assert (Hnz := next_nonzero (LCG.s g) Hp Hgcd Hs).
    destruct (Z.eqb_spec ((a * LCG.s g) mod m) 0) as [? | _]; [done |].
    set (g1 := LCG.mk ((a * LCG.s g) mod m) (LCG.rand_max g)).
    assert (Hm : 2 <= m <= 2 ^ 31) by apply Hp.
    assert (Hs1 : 1 <= LCG.s g1 < m).
    { simpl.
      assert (0 <= (a * LCG.s g) mod m < m) by (apply Z.mod_pos_bound; lia).
      lia. }
    destruct (IH g1 Hs1) as [Hvs Hst]. rewrite Hvs, Hst. simpl LCG.s.
    assert (Hpow : forall j : nat,
               (a ^ Z.of_nat j * ((a * LCG.s g) mod m)) mod m
               = (a ^ Z.of_nat (S j) * LCG.s g) mod m).
    { intros j. rewrite Zmult_mod_idemp_r. f_equal.
      rewrite Nat2Z.inj_succ, Z.pow_succ_r by lia. ring. }
    split.
    + cbn [seq map]. f_equal.
      * f_equal. change (Z.of_nat 1) with 1. ring.
      * rewrite <- seq_shift, map_map. apply map_ext. intros i. apply Hpow.
    + apply Hpow.
Qed.

(** X4. With [a] prime to [m] and a state [s] in [1, m-1], the numbers
    drawn are the powers of the multiplier: the [i]-th call of [next]
    (counting from 0) returns [a^(i+1) * s mod m], and after [k] calls the
    state is [a^k * s mod m]; the reset of the state to 1 never happens. *)
Theorem draw_closed_form (k : nat) (g : LCG.t) :
  schrage m a q r ->
  Z.gcd a m = 1 ->
  1 <= LCG.s g < m ->
  (LCG.draw m a q r k g).1
  = map (fun i => (a ^ Z.of_nat (S i) * LCG.s g) mod m) (seq 0 k) /\
  LCG.s (LCG.draw m a q r k g).2 = (a ^ Z.of_nat k * LCG.s g) mod m /\
  Forall (fun v => v <> 0) (LCG.draw m a q r k g).1.
Proof.
  intros Hp Hgcd Hs.
  destruct (draw_powers k g Hp Hgcd Hs) as [Hvs Hst].
  split; [exact Hvs |]. split; [exact Hst |].
  rewrite Hvs. apply Forall_forall. intros v Hin.
  apply list_elem_of_In, in_map_iff in Hin as (i & <- & _).
  assert (Hm : 2 <= m <= 2 ^ 31) by apply Hp.
  destruct (draw_powers (S i) g Hp Hgcd Hs) as [_ Hsi].
  destruct (draw_range (S i) g Hp Hs) as [_ Hr].
  rewrite Hsi in Hr. lia.
Qed.

End GeneratorProperties.

Lemma RandomGenerator_schrage :
  schrage LCG.RandomGenerator_m LCG.RandomGenerator_a
          LCG.RandomGenerator_q LCG.RandomGenerator_r.
Proof. repeat split; vm_compute; congruence. Defined.

Lemma RandomGenerator_coprime :
  Z.gcd LCG.RandomGenerator_a LCG.RandomGenerator_m = 1.
Proof. reflexivity. Defined.

(** X5. [RandomGenerator] is the multiplicative generator of Knuth's
    table: from a state [s] in [1, 2147483646], [next] returns
    [48271 * s mod 2147483647], which is never 0 and is the new state. *)
Theorem RandomGenerator_next (g : LCG.t) :
  1 <= LCG.s g < 2147483647 ->
  let vg := LCG.next LCG.RandomGenerator_m LCG.RandomGenerator_a
              LCG.RandomGenerator_q LCG.RandomGenerator_r g in
  vg.1 = (48271 * LCG.s g) mod 2147483647 /\
  1 <= vg.1 < 2147483647 /\
  LCG.s vg.2 = vg.1.
Proof.
  intros Hs vg. subst vg.
  rewrite (schrage_step _ _ _ _ g RandomGenerator_schrage)
    by (unfold LCG.RandomGenerator_m; lia).
  cbn [fst snd LCG.s].
  change LCG.RandomGenerator_a with 48271.
  change LCG.RandomGenerator_m with 2147483647.
  assert (Hnz : (48271 * LCG.s g) mod 2147483647 <> 0)
    by exact (next_nonzero _ _ _ _ (LCG.s g) RandomGenerator_schrage
                RandomGenerator_coprime Hs).
  assert (Hv : 0 <= (48271 * LCG.s g) mod 2147483647 < 2147483647)
    by (apply Z.mod_pos_bound; lia).
  destruct (Z.eqb_spec ((48271 * LCG.s g) mod 2147483647) 0); [done |].
  repeat split; lia.
Qed.

Section GeneratorCycle.

Context (m a q r : Z).

(** Multiplication by a multiplier prime to [m] is one-to-one on
    [0, m). *)
Lemma multiplier_cancels (s1 s2 : Z) :
  2 <= m -> Z.gcd a m = 1 -> 0 <= s1 < m -> 0 <= s2 < m ->
  (a * s1) mod m = (a * s2) mod m -> s1 = s2.
Proof.
  intros Hm Hgcd H1 H2 Heq.
  assert (Hd : (m | a * (s1 - s2))).
  { apply Z.mod_divide; [lia |].
    replace (a * (s1 - s2)) with (a * s1 - a * s2) by ring.
    rewrite Zminus_mod, Heq, Z.sub_diag. apply Z.mod_0_l. lia. }
  apply Z.gauss in Hd; [| by rewrite Z.gcd_comm].
  destruct Hd as [c Hc].
  assert (c = 0) by nia. lia.
Qed.

(** X17. With [a] prime to [m], [next] is one-to-one on the states in
    [1, m-1]: two generators that return the same number were in the same
    state. *)
Theorem next_injective (g1 g2 : LCG.t) :
  schrage m a q r ->
  Z.gcd a m = 1 ->
  1 <= LCG.s g1 < m ->
  1 <= LCG.s g2 < m ->
  (LCG.next m a q r g1).1 = (LCG.next m a q r g2).1 ->
  LCG.s g1 = LCG.s g2.
Proof.
  intros Hp Hgcd H1 H2.
  rewrite (schrage_step m a q r g1 Hp), (schrage_step m a q r g2 Hp) by lia.
  cbn [fst]. intros Heq.
  assert (Hm : 2 <= m <= 2 ^ 31) by apply Hp.
  apply multiplier_cancels; [lia | done | lia | lia | done].
Qed.

End GeneratorCycle.

(** ** Sharing, aliasing and exact counts *)

Section Sharing.

Context {T Space : Type}.
Implicit Types (st : heap T) (s : SAO.t) (b : list (option T)).

Lemma SharedArray_set_run (x : hid) o s p b (i : nat) (v : T) st :
  handles st !! x = Some (Some o) -> saos st !! o = Some s ->
  SAO.a s = Some p -> blocks st !! p = Some b -> (i < length b)%nat ->
  SharedArray_set x (Z.of_nat i) v st
  = Ok (tt, Heap (saos st) (<[p := <[i := Some v]> b]> (blocks st))
                 (handles st) (trace st)).
Proof.
  intros Hx Ho Ha Hp Hi. unfold SharedArray_set.
  erewrite bind_ok by (by apply handle_load_ok). cbv beta iota.
  erewrite bind_ok by (by apply sao_load_ok).
  rewrite Ha. by apply slot_write_ok.
Qed.

(** Reading slot [k] of two blocks that agree there. *)
Lemma slot_read_same p1 p2 b1 b2 (k : nat) st1 st2 :
  blocks st1 !! p1 = Some b1 -> blocks st2 !! p2 = Some b2 ->
  (k < length b1)%nat -> (k < length b2)%nat -> b1 !! k = b2 !! k ->
  answer (slot_read (Some p1) (Z.of_nat k) st1)
  = answer (slot_read (Some p2) (Z.of_nat k) st2).
Proof.
  intros H1 H2 Hk1 Hk2 Heq.
  rewrite (slot_read_ok p1 b1), (slot_read_ok p2 b2) by done.
  simpl. by rewrite Heq.
Qed.

(** Reading a block before and after slot [i] is written: the other slots
    answer as before. *)
Lemma slot_read_other p b (i : nat) v j st st' :
  blocks st !! p = Some b -> blocks st' !! p = Some (<[i := v]> b) ->
  j <> Z.of_nat i ->
  answer (slot_read (Some p) j st') = answer (slot_read (Some p) j st).
Proof.
  intros Hp Hp' Hj. unfold slot_read, block_of, bind. rewrite Hp, Hp'.
  simpl. unfold in_block. rewrite length_insert.
  destruct (Z.leb_spec 0 j); simpl; [| done].
  destruct (Z.ltb_spec j (Z.of_nat (length b))); simpl; [| done].
  rewrite list_lookup_insert_ne by lia. done.
Qed.

(** X6. Element access through [operator[]] is shared: after [x[i] = v]
    on a handle whose storage has slot [i], every handle [y] that holds the
    same buffer ([x] itself included) reads [v] at [i] and reads every other
    index as before; the length, the counts and the event trace are
    unchanged. *)
Theorem write_seen_by_sharers (x y : hid) o s p b (i : Z) (v : T) st :
  handles st !! x = Some (Some o) ->
  handles st !! y = Some (Some o) ->
  saos st !! o = Some s ->
  SAO.a s = Some p ->
  blocks st !! p = Some b ->
  0 <= i < Z.of_nat (length b) ->
  exists st',
    SharedArray_set x i v st = Ok (tt, st') /\
    answer (SharedArray_get y i st') = Ok (Some v) /\
    (forall j, j <> i ->
               answer (SharedArray_get y j st')
               = answer (SharedArray_get y j st)) /\
    SharedArray_size y st' = Ok (SAO.n s, st') /\
    saos st' = saos st /\
    since st st' = [].
Proof.
  intros Hx Hy Ho Ha Hp Hi.
  rewrite <- (Z2Nat.id i) by lia.
  erewrite SharedArray_set_run by (done || lia).
  eexists; split; [reflexivity |].
  split.
  { rewrite (SharedArray_get_held y o s) by done. rewrite Ha.
    erewrite slot_read_ok;
      [| simpl; apply lookup_insert_eq | rewrite length_insert; lia].
    simpl. rewrite list_lookup_insert_eq by lia. done. }
  split.
  { intros j Hj.
    rewrite !(SharedArray_get_held y o s) by done. rewrite Ha.
    eapply (slot_read_other p b (Z.to_nat i)); simpl;
      [done | apply lookup_insert_eq | done]. }
  split; [by apply (SharedArray_size_held y o s) |].
  split; [done |].
  by apply since_same.
Qed.

(** The store [update] without sharing leaves, between two handles of one
    buffer with elements. *)
Lemma update_copy_run (x y : hid) (home : Space) o s p b st :
  handles st !! x = Some (Some o) ->
  handles st !! y = Some (Some o) ->
  saos st !! o = Some s ->
  2 <= SAO.use s < UINT_MOD ->
  SAO.a s = Some p -> 0 < SAO.n s ->
  blocks st !! p = Some b -> SAO.n s <= Z.of_nat (length b) ->
  let s1 := SAO.mk (SAO.use s - 1) (SAO.a s) (SAO.n s) in
  let c := fresh (dom (<[o := s1]> (saos st))) in
  let q := fresh (dom (blocks st)) in
  SharedArray_update x home false y st
  = Ok (tt, Heap (<[c := SAO.mk 1 (Some q) (SAO.n s)]>
                    (<[o := s1]> (saos st)))
                 (<[q := take (Z.to_nat (SAO.n s)) b]> (blocks st))
                 (<[x := Some c]> (handles st))
                 (trace st ++ [EMalloc q (SAO.n s); ENew c]
                    ++ (EConstruct q <$> countdown (Z.to_nat (SAO.n s))))).
Proof.
  intros Hx Hy Ho Hu Ha Hn Hp Hlen s1 c q. unfold SharedArray_update.
  erewrite bind_ok by (by apply handle_load_ok). simpl.
  erewrite bind_ok by (by apply SAO_release_shared).
  erewrite bind_ok by (by apply handle_load_ok). simpl.
  erewrite bind_ok; cycle 1.
  { eapply (SAO_copy_elems o s1 p b); simpl; try done.
    apply lookup_insert_eq. }
  reflexivity.
Qed.

(** X7. Copy, then write: after [x.update(home, false, y)] between two
    handles of one buffer, a write through [x] is read back through [x]
    and leaves every element [y] reports as it was; a write through [y]
    leaves every element [x] reports as it was. *)
Theorem write_after_divergence (x y : hid) (home : Space) o s (i : Z)
    (v : T) st :
  x <> y ->
  handles st !! x = Some (Some o) ->
  handles st !! y = Some (Some o) ->
  saos st !! o = Some s ->
  wf_sao st s ->
  2 <= SAO.use s ->
  0 <= i < SAO.n s ->
  exists st1 st2 st3,
    SharedArray_update x home false y st = Ok (tt, st1) /\
    SharedArray_set x i v st1 = Ok (tt, st2) /\
    answer (SharedArray_get x i st2) = Ok (Some v) /\
    (forall j, answer (SharedArray_get y j st2)
               = answer (SharedArray_get y j st)) /\
    SharedArray_set y i v st1 = Ok (tt, st3) /\
    answer (SharedArray_get y i st3) = Ok (Some v) /\
    (forall j, answer (SharedArray_get x j st3)
               = answer (SharedArray_get x j st1)).
Proof.
  intros Hxy Hx Hy Ho [Hu Hwf] H2 Hi. unfold wf_storage in Hwf.
  destruct (SAO.a s) as [p|] eqn:Ha; [| lia].
  destruct Hwf as (Hn & b & Hp & Hlen).
  erewrite update_copy_run by (done || lia). rewrite Ha.
  set (s1 := SAO.mk (SAO.use s - 1) (Some p) (SAO.n s)).
  set (c := fresh (dom (<[o := s1]> (saos st)))).
  set (q := fresh (dom (blocks st))).
  set (sc := SAO.mk 1 (Some q) (SAO.n s)).
  set (bq := take (Z.to_nat (SAO.n s)) b).
  assert (Hc : <[o := s1]> (saos st) !! c = None)
    by apply not_elem_of_dom, is_fresh.
  assert (Hco : c <> o).
  { intros E. rewrite E, lookup_insert_eq in Hc. done. }
  assert (Hpq : p <> q) by (by eapply fresh_block_ne).
  assert (Hbq : length bq = Z.to_nat (SAO.n s))
    by (unfold bq; rewrite length_take; lia).
  match goal with
  | |- exists st1 _ _, Ok (tt, ?h) = _ /\ _ => set (st1 := h)
  end.
  assert (Hx1 : handles st1 !! x = Some (Some c)) by apply lookup_insert_eq.
  assert (Hy1 : handles st1 !! y = Some (Some o))
    by (simpl; by rewrite lookup_insert_ne).
  assert (Hc1 : saos st1 !! c = Some sc) by apply lookup_insert_eq.
  assert (Ho1 : saos st1 !! o = Some s1).
  { simpl. rewrite lookup_insert_ne by done. apply lookup_insert_eq. }
  assert (Hq1 : blocks st1 !! q = Some bq) by apply lookup_insert_eq.
  assert (Hp1 : blocks st1 !! p = Some b)
    by (simpl; by rewrite lookup_insert_ne).
  exists st1.
  rewrite <- (Z2Nat.id i) by lia.
  rewrite (SharedArray_set_run x c sc q bq (Z.to_nat i) v st1)
    by (done || lia).
  rewrite (SharedArray_set_run y o s1 p b (Z.to_nat i) v st1)
    by (done || lia).
  eexists _, _. split; [reflexivity |]. split; [reflexivity |].
  split.
  { rewrite (SharedArray_get_held x c sc) by done.
    change (SAO.a sc) with (Some q).
    erewrite slot_read_ok;
      [| simpl; apply lookup_insert_eq | rewrite length_insert; lia].
    simpl. rewrite list_lookup_insert_eq by lia. done. }
  split.
  { intros j.
    rewrite (SharedArray_get_held y o s1) by done.
    rewrite (SharedArray_get_held y o s) by done. rewrite Ha.
    change (SAO.a s1) with (Some p).
    apply slot_read_answer. intros p' [= <-]. simpl.
    rewrite lookup_insert_ne by done. by rewrite lookup_insert_ne. }
  split; [reflexivity |].
  split.
  { rewrite (SharedArray_get_held y o s1) by done.
    change (SAO.a s1) with (Some p).
    erewrite slot_read_ok;
      [| simpl; apply lookup_insert_eq | rewrite length_insert; lia].
    simpl. rewrite list_lookup_insert_eq by lia. done. }
  intros j.
  rewrite !(SharedArray_get_held x c sc) by done.
  change (SAO.a sc) with (Some q).
  apply slot_read_answer. intros p' [= <-]. simpl.
  by rewrite lookup_insert_ne.
Qed.

End Sharing.

Section Structure.

Context {T Space : Type}.
Implicit Types (st : heap T) (s : SAO.t) (b : list (option T)).

(** X8. [ensure] does not copy on write: when two handles hold one
    well-formed buffer of length [n], growing it through [x] is seen
    through [y], which reports the new length [max(2*n, i)] and the old
    elements at their positions. *)
Theorem ensure_seen_by_sibling (x y : hid) o s (i : Z) st :
  handles st !! x = Some (Some o) ->
  handles st !! y = Some (Some o) ->
  saos st !! o = Some s ->
  wf_sao st s ->
  SAO.n s <= i ->
  2 * SAO.n s <= INT_MAX ->
  exists st',
    SharedArray_ensure x i st = Ok (tt, st') /\
    SharedArray_size y st' = Ok (Z.max (2 * SAO.n s) i, st') /\
    forall j, 0 <= j < SAO.n s ->
              answer (SharedArray_get y j st')
              = answer (SharedArray_get y j st).
Proof.
  intros Hx Hy Ho [Hu Hwf] Hi H2. unfold wf_storage in Hwf.
  rewrite (SharedArray_ensure_held x o) by done.
  destruct (SAO.a s) as [p|] eqn:Ha.
  - destruct Hwf as (Hn & b & Hp & Hlen).
    erewrite SAO_ensure_grow by (done || lia).
    set (m := Z.max (2 * SAO.n s) i).
    set (q := fresh (dom (blocks st))).
    set (s' := SAO.mk (SAO.use s) (Some q) m).
    assert (Hpq : p <> q) by (by eapply fresh_block_ne).
    eexists; split; [reflexivity |].
    split.
    { apply (SharedArray_size_held y o s'); simpl;
        [done | apply lookup_insert_eq]. }
    intros j Hj.
    rewrite (SharedArray_get_held y o s');
      [| done | simpl; apply lookup_insert_eq].
    rewrite (SharedArray_get_held y o s) by done. rewrite Ha.
    change (SAO.a s') with (Some q).
    rewrite <- (Z2Nat.id j) by lia.
    eapply slot_read_same; simpl.
    + rewrite lookup_delete_ne by done. apply lookup_insert_eq.
    + exact Hp.
    + rewrite length_app, length_take. lia.
    + lia.
    + rewrite lookup_app_l by (rewrite length_take; lia).
      apply lookup_take_lt. lia.
  - assert (Hm : Z.max (2 * SAO.n s) i = i) by lia. rewrite Hm.
    erewrite SAO_ensure_first by (done || lia).
    eexists; split; [reflexivity |].
    split.
    { apply (SharedArray_size_held y o
               (SAO.mk (SAO.use s) (Some (fresh (dom (blocks st)))) i));
        simpl; [done | apply lookup_insert_eq]. }
    intros j Hj. lia.
Qed.

(** X9. [shrink] does not copy on write either: when two handles hold one
    buffer of length [n], shrinking it to [m < n] through [x] is seen
    through [y], which reports length [m], still reads the first [m]
    elements, and can no longer reach any element from [m] on. *)
Theorem shrink_seen_by_sibling (x y : hid) o s p b (m : Z) st :
  handles st !! x = Some (Some o) ->
  handles st !! y = Some (Some o) ->
  saos st !! o = Some s ->
  SAO.a s = Some p ->
  blocks st !! p = Some b ->
  SAO.n s <= Z.of_nat (length b) ->
  0 <= m < SAO.n s ->
  exists st',
    SharedArray_shrink x m st = Ok (tt, st') /\
    SharedArray_size y st' = Ok (m, st') /\
    (forall j, 0 <= j < m ->
               answer (SharedArray_get y j st')
               = answer (SharedArray_get y j st)) /\
    (forall j, m <= j ->
               exists e, answer (SharedArray_get y j st') = Err e).
Proof.
  intros Hx Hy Ho Ha Hp Hlen Hm.
  rewrite (SharedArray_shrink_held x o) by done.
  destruct (decide (m = 0)) as [-> | Hne].
  - erewrite SAO_shrink_zero by (done || lia).
    set (s' := SAO.mk (SAO.use s) None 0).
    eexists; split; [reflexivity |].
    split.
    { apply (SharedArray_size_held y o s'); simpl;
        [done | apply lookup_insert_eq]. }
    split; [intros j Hj; lia |].
    intros j Hj. exists NullDeref.
    rewrite (SharedArray_get_held y o s');
      [| done | simpl; apply lookup_insert_eq].
    reflexivity.
  - erewrite SAO_shrink_some by (done || lia).
    set (q := fresh (dom (blocks st))).
    set (s' := SAO.mk (SAO.use s) (Some q) m).
    assert (Hpq : p <> q) by (by eapply fresh_block_ne).
    eexists; split; [reflexivity |].
    split.
    { apply (SharedArray_size_held y o s'); simpl;
        [done | apply lookup_insert_eq]. }
    split.
    + intros j Hj.
      rewrite (SharedArray_get_held y o s');
        [| done | simpl; apply lookup_insert_eq].
      rewrite (SharedArray_get_held y o s) by done. rewrite Ha.
      change (SAO.a s') with (Some q).
      rewrite <- (Z2Nat.id j) by lia.
      eapply slot_read_same; simpl.
      * rewrite lookup_delete_ne by done. apply lookup_insert_eq.
      * exact Hp.
      * rewrite length_take. lia.
      * lia.
      * apply lookup_take_lt. lia.
    + intros j Hj. exists OutOfBounds.
      rewrite (SharedArray_get_held y o s');
        [| done | simpl; apply lookup_insert_eq].
      change (SAO.a s') with (Some q).
      unfold slot_read, block_of, bind. simpl.
      rewrite lookup_delete_ne by done. rewrite lookup_insert_eq. simpl.
      unfold in_block. rewrite length_take.
      destruct (Z.leb_spec 0 j); [| lia].
      destruct (Z.ltb_spec j (Z.of_nat (Z.to_nat m `min` length b)));
        [lia | done].
Qed.

(** X10. Copy-constructing a handle at a location that holds none and
    destroying it again leaves the whole store as it was: counts, storage,
    other handles and event trace. *)
Theorem copy_delete_round_trip (a b : hid) x st :
  handles st !! a = Some x ->
  handles st !! b = None ->
  (forall o, x = Some o ->
             exists s, saos st !! o = Some s /\
                       1 <= SAO.use s /\ SAO.use s + 1 < UINT_MOD) ->
  (SharedArray_copy b a ;; SharedArray_delete b) st = Ok (tt, st).
Proof.
  intros Ha Hb Hlive.
  destruct x as [o|].
  - destruct (Hlive o eq_refl) as (s & Ho & Hu & Hv).
    erewrite bind_ok by (apply (SharedArray_copy_stakes b a o s); done || lia).
    erewrite (SharedArray_delete_shared b o
                (SAO.mk (SAO.use s + 1) (SAO.a s) (SAO.n s)));
      simpl; [| apply lookup_insert_eq | apply lookup_insert_eq | lia].
    rewrite insert_insert_eq, delete_insert_id by done.
    replace (SAO.use s + 1 - 1) with (SAO.use s) by lia.
    destruct s as [u a0 n0]. simpl. rewrite insert_id by done.
    by rewrite heap_eta.
  - unfold SharedArray_copy, SharedArray_delete.
    erewrite bind_ok; cycle 1.
    { erewrite bind_ok by (by apply handle_load_ok).
      erewrite bind_ok by reflexivity. reflexivity. }
    erewrite bind_ok by (apply handle_load_ok; simpl; apply lookup_insert_eq).
    erewrite bind_ok by reflexivity.
    unfold handle_drop. simpl.
    rewrite delete_insert_id by done. by rewrite heap_eta.
Qed.

Lemma countdown_once (k : nat) (p : addr) (j : Z) :
  0 <= j < Z.of_nat k ->
  count_occ event_eq_dec (EDestruct p <$> countdown k) (EDestruct p j)
  = 1%nat.
Proof.
  induction k as [|k IH]; intros Hj; [lia |].
  cbn [countdown fmap list_fmap count_occ].
  destruct (event_eq_dec (EDestruct p (Z.of_nat k)) (EDestruct p j))
    as [E | E].
  - injection E as E. f_equal.
    assert (Hout : forall i, (i <= k)%nat ->
              count_occ event_eq_dec (EDestruct p <$> countdown i)
                (EDestruct p j) = 0%nat).
    { clear IH. intros i. induction i as [|i IHi]; intros Hi; [done |].
      cbn [countdown fmap list_fmap count_occ].
      destruct (event_eq_dec (EDestruct p (Z.of_nat i)) (EDestruct p j))
        as [E' | _]; [injection E' as E'; lia | apply IHi; lia]. }
    by apply Hout.
  - apply IH. assert (j <> Z.of_nat k) by congruence. lia.
Qed.

(** X11. Destroying the only handle of a well-formed buffer runs the
    destructor of [SAO]: each of the [n] elements is destructed exactly
    once, from index [n-1] down to 0, then the storage is freed, then the
    object is deleted; a buffer without elements is deleted without any
    destructor call or free. The handle is gone afterwards. *)
Theorem sole_handle_teardown (h : hid) o s st :
  handles st !! h = Some (Some o) ->
  saos st !! o = Some s ->
  wf_sao st s ->
  SAO.use s = 1 ->
  exists st',
    SharedArray_delete h st = Ok (tt, st') /\
    handles st' !! h = None /\
    saos st' !! o = None /\
    since st st'
    = match SAO.a s with
      | Some p =>
          (EDestruct p <$> countdown (Z.to_nat (SAO.n s)))
            ++ [EFree p; EDelete o]
      | None => [EDelete o]
      end /\
    forall p, SAO.a s = Some p ->
      blocks st' = delete p (blocks st) /\
      forall j, 0 <= j < SAO.n s ->
        count_occ event_eq_dec (since st st') (EDestruct p j) = 1%nat.
Proof.
  intros Hh Ho Hwf Hu.
  erewrite SharedArray_delete_last by done.
  eexists; split; [reflexivity |].
  split; [simpl; apply lookup_delete_eq |].
  split; [simpl; apply lookup_delete_eq |].
  erewrite since_app by (simpl; reflexivity).
  unfold teardown, blocks_without.
  destruct (SAO.a s) as [p|] eqn:Ha.
  - split; [by rewrite <- app_assoc |].
    intros p' [= <-]. split; [done |].
    intros j Hj. rewrite !count_occ_app.
    rewrite countdown_once by lia.
    cbn [count_occ].
    destruct (event_eq_dec (EFree p) (EDestruct p j)); [congruence |].
    destruct (event_eq_dec (EDelete o) (EDestruct p j)); [congruence |].
    done.
  - split; [done |]. intros p [=].
Qed.

(** X12. Growing and shrinking back: [ensure(i)] with [i >= n > 0]
    followed by [shrink(n)] ends with the length [n], the count unchanged
    and the elements read as before; the storage [ensure] allocated is
    freed again, so that the store holds as many blocks as at the start. *)
Theorem ensure_shrink_round_trip (x : hid) o s p b (i : Z) st :
  handles st !! x = Some (Some o) ->
  saos st !! o = Some s ->
  SAO.a s = Some p ->
  blocks st !! p = Some b ->
  SAO.n s <= Z.of_nat (length b) ->
  0 < SAO.n s <= i ->
  2 * SAO.n s <= INT_MAX ->
  exists st' q,
    (SharedArray_ensure x i ;; SharedArray_shrink x (SAO.n s)) st
    = Ok (tt, st') /\
    SharedArray_size x st' = Ok (SAO.n s, st') /\
    (forall j, 0 <= j < SAO.n s ->
               answer (SharedArray_get x j st')
               = answer (SharedArray_get x j st)) /\
    saos st' !! o = Some (SAO.mk (SAO.use s) (Some q) (SAO.n s)) /\
    size (blocks st') = size (blocks st).
Proof.
  intros Hx Ho Ha Hp Hlen Hn H2.
  set (m := Z.max (2 * SAO.n s) i).
  set (q1 := fresh (dom (blocks st))).
  assert (Hpq1 : p <> q1) by (by eapply fresh_block_ne).
  set (b1 := take (Z.to_nat (SAO.n s)) b
               ++ replicate (Z.to_nat m - Z.to_nat (SAO.n s)) None).
  set (s1 := SAO.mk (SAO.use s) (Some q1) m).
  erewrite bind_ok; cycle 1.
  { rewrite (SharedArray_ensure_held x o) by done.
    apply (SAO_ensure_grow o s p b); done || lia. }
  fold m q1 b1 s1.
  match goal with |- exists _ _, SharedArray_shrink _ _ ?h = _ /\ _ =>
    set (st1 := h) end.
  assert (Hb1 : blocks st1 !! q1 = Some b1).
  { simpl. rewrite lookup_delete_ne by done. apply lookup_insert_eq. }
  assert (Hlen1 : length b1 = Z.to_nat m).
  { unfold b1. rewrite length_app, length_take, length_replicate. lia. }
  rewrite (SharedArray_shrink_held x o) by done.
  erewrite (SAO_shrink_some o s1 q1 b1);
    [| simpl; apply lookup_insert_eq | done | done | simpl; lia
     | simpl; lia].
  set (q := fresh (dom (blocks st1))).
  assert (Hq : blocks st1 !! q = None) by apply fresh_block.
  assert (Hq1q : q1 <> q) by (by eapply fresh_block_ne).
  set (s' := SAO.mk (SAO.use s) (Some q) (SAO.n s)).
  eexists _, q. split; [reflexivity |].
  assert (Ho' : <[o := s']> (<[o := s1]> (saos st)) !! o = Some s')
    by apply lookup_insert_eq.
  split.
  { apply (SharedArray_size_held x o s'); simpl; done. }
  split.
  { intros j Hj.
    rewrite (SharedArray_get_held x o s') by done.
    rewrite (SharedArray_get_held x o s) by done. rewrite Ha.
    change (SAO.a s') with (Some q).
    rewrite <- (Z2Nat.id j) by lia.
    eapply slot_read_same.
    - cbn [blocks SAO.n s1]. rewrite lookup_delete_ne by done.
      apply lookup_insert_eq.
    - exact Hp.
    - rewrite length_take. lia.
    - lia.
    - rewrite lookup_take_lt by lia. unfold b1.
      rewrite lookup_app_l by (rewrite length_take; lia).
      apply lookup_take_lt. lia. }
  split; [exact Ho' |].
  cbn [blocks SAO.n s1].
  rewrite map_size_delete_Some
    by (rewrite lookup_insert_ne by done; eauto).
  rewrite map_size_insert_None by exact Hq.
  subst st1. cbn [blocks].
  rewrite map_size_delete_Some
    by (rewrite lookup_insert_ne by done; eauto).
  rewrite map_size_insert_None by apply fresh_block.
  done.
Qed.

End Structure.

Section Lifecycle.

Context {T Space : Type}.
Implicit Types (st : heap T) (s : SAO.t) (b : list (option T)).

(** X15. [update] with sharing against [operator=]: on two different
    handles the two calls are the same computation; on one and the same
    handle [update] still leaves the store as it is when the handle is
    empty or its buffer has a second stake, but when the handle is the only
    one of its buffer [update] deletes the buffer and then subscribes to the
    deleted object, where [operator=] does nothing. *)
Theorem update_share_against_assign (this a : hid) (home : Space) st :
  (this <> a ->
   SharedArray_update this home true a st = SharedArray_assign this a st) /\
  (handles st !! this = Some None ->
   SharedArray_update this home true this st = Ok (tt, st)) /\
  (forall o s,
      handles st !! this = Some (Some o) -> saos st !! o = Some s ->
      2 <= SAO.use s < UINT_MOD ->
      SharedArray_update this home true this st = Ok (tt, st)) /\
  (forall o s,
      handles st !! this = Some (Some o) -> saos st !! o = Some s ->
      wf_sao st s -> SAO.use s = 1 ->
      SharedArray_update this home true this st = Err DanglingPointer).
Proof.
  split; [| split; [| split]].
  - intros Hne. unfold SharedArray_update, SharedArray_assign.
    by rewrite decide_False.
  - intros Hh. unfold SharedArray_update.
    erewrite bind_ok by (by apply handle_load_ok). simpl.
    erewrite bind_ok by reflexivity.
    erewrite bind_ok by (by apply handle_load_ok). simpl.
    erewrite bind_ok by reflexivity.
    unfold ret. simpl. rewrite insert_id by done. by rewrite heap_eta.
  - intros o s Hh Ho Hu. unfold SharedArray_update.
    erewrite bind_ok by (by apply handle_load_ok). simpl.
    erewrite bind_ok by (by apply SAO_release_shared).
    rewrite (adopt_stake this this o
               (SAO.mk (SAO.use s - 1) (SAO.a s) (SAO.n s)));
      simpl; [| done | apply lookup_insert_eq | lia | lia].
    rewrite insert_insert_eq, (insert_id (handles st)) by done.
    replace (SAO.use s - 1 + 1) with (SAO.use s) by lia.
    destruct s as [u a0 n0]. simpl. rewrite insert_id by done.
    by rewrite heap_eta.
  - intros o s Hh Ho Hwf Hu. unfold SharedArray_update.
    erewrite bind_ok by (by apply handle_load_ok). simpl.
    erewrite bind_ok by (by apply SAO_release_last).
    erewrite bind_ok by (by apply handle_load_ok). simpl.
    erewrite bind_ok by reflexivity.
    unfold SAO_subscribe, sao_load, bind. simpl.
    by rewrite lookup_delete_eq.
Qed.

(** X16. Constructing an array of [n >= 0] elements at a location that
    holds no handle and destroying it at once leaves the objects, the
    storage and the handles of the store as they were: nothing leaks. The
    events are the allocation, then one destructor call on each of the [n]
    slots, none of which was constructed, then the free and the delete. *)
Theorem new_delete_round_trip (this : hid) (n : Z) st :
  handles st !! this = None ->
  0 <= n ->
  exists st',
    (SharedArray_new this n ;; SharedArray_delete this) st = Ok (tt, st') /\
    saos st' = saos st /\
    blocks st' = blocks st /\
    handles st' = handles st /\
    (forall p j, EConstruct p j ∉ since st st') /\
    since st st'
    = let o := fresh (dom (saos st)) in
      let p := fresh (dom (blocks st)) in
      if decide (n = 0) then [ENew o; EDelete o]
      else [EMalloc p n; ENew o]
             ++ (EDestruct p <$> countdown (Z.to_nat n))
             ++ [EFree p; EDelete o].
Proof.
  intros Hh Hn.
  set (o := fresh (dom (saos st))). set (p := fresh (dom (blocks st))).
  assert (Ho : saos st !! o = None) by apply fresh_sao.
  assert (Hp : blocks st !! p = None) by apply fresh_block.
  unfold SharedArray_new.
  destruct (decide (n = 0)) as [-> | Hne].
  - erewrite bind_ok; cycle 1.
    { erewrite bind_ok by (by apply SAO_new_none). reflexivity. }
    fold o. set (s := SAO.mk 1 None 0).
    set (st1 := Heap _ _ _ _).
    assert (Hwf : wf_sao st1 s).
    { split; [unfold UINT_MOD; simpl; lia | done]. }
    rewrite (SharedArray_delete_last this o s st1);
      [| apply lookup_insert_eq | apply lookup_insert_eq | done | done].
    eexists; split; [reflexivity |]. simpl.
    rewrite !delete_insert_id by done.
    erewrite since_app by (simpl; rewrite <- app_assoc; reflexivity).
    repeat split.
    intros q j Hin. repeat (apply elem_of_cons in Hin as [Hin | Hin];
                            [discriminate |]).
    by apply elem_of_nil in Hin.
  - erewrite bind_ok; cycle 1.
    { erewrite bind_ok by (apply SAO_new_elems; lia). reflexivity. }
    fold o p. set (s := SAO.mk 1 (Some p) n).
    set (st1 := Heap _ _ _ _).
    assert (Hwf : wf_sao st1 s).
    { split; [unfold UINT_MOD; simpl; lia |]. split; [simpl; lia |].
      exists (replicate (Z.to_nat n) None).
      split; [simpl; apply lookup_insert_eq |].
      rewrite length_replicate. simpl. lia. }
    rewrite (SharedArray_delete_last this o s st1);
      [| apply lookup_insert_eq | apply lookup_insert_eq | done | done].
    eexists; split; [reflexivity |].
    unfold blocks_without, teardown. simpl.
    rewrite !delete_insert_id by done.
    erewrite since_app
      by (simpl; rewrite <- !app_assoc; simpl; reflexivity).
    repeat split.
    intros q j Hin.
    repeat (apply elem_of_cons in Hin as [Hin | Hin]; [discriminate |]).
    apply elem_of_app in Hin as [Hin | Hin].
    + apply list_elem_of_fmap in Hin as (k & Hk & _). discriminate.
    + repeat (apply elem_of_cons in Hin as [Hin | Hin]; [discriminate |]).
      by apply elem_of_nil in Hin.
Qed.

End Lifecycle.

Section Counting.

Implicit Types (hm : gmap hid (option addr)) (sm : gmap addr SAO.t).

Lemma stakes_insert_fresh hm h x o :
  hm !! h = None ->
  stakes (<[h := x]> hm) o
  = if decide (x = Some o) then S (stakes hm o) else stakes hm o.
Proof.
  intros Hh. unfold stakes. rewrite map_filter_insert. simpl.
  destruct (decide (x = Some o)) as [-> | Hne].
  - rewrite map_size_insert_None; [done |].
    apply map_lookup_filter_None. by left.
  - by rewrite delete_id.
Qed.

Lemma stakes_delete hm h x o :
  hm !! h = Some x ->
  stakes hm o
  = if decide (x = Some o) then S (stakes (delete h hm) o)
    else stakes (delete h hm) o.
Proof.
  intros Hh.
  rewrite <- (stakes_insert_fresh (delete h hm) h x o)
    by apply lookup_delete_eq.
  by rewrite insert_delete_eq, insert_id.
Qed.

Lemma stakes_le_size hm o : (stakes hm o <= size hm)%nat.
Proof. unfold stakes. apply map_size_filter. Qed.

Lemma stakes_zero hm h o : stakes hm o = 0%nat -> hm !! h <> Some (Some o).
Proof.
  unfold stakes. intros Hz Hh.
  apply map_size_empty_inv in Hz.
  assert (Hf : filter (fun kv : hid * option addr => kv.2 = Some o) hm !! h
               = Some (Some o))
    by (by apply map_lookup_filter_Some).
  rewrite Hz, lookup_empty in Hf. done.
Qed.

Lemma counted_use_bound sm hm o s :
  counted_objs sm hm -> sm !! o = Some s ->
  1 <= SAO.use s <= Z.of_nat (size hm).
Proof.
  intros [_ Hc] Ho. destruct (Hc o s Ho) as [H1 H2].
  pose proof (stakes_le_size hm o). lia.
Qed.

(** Giving up the stake of [h]: the count drops, or the buffer goes with
    its last stake; the handle is left out of the counting. *)
Lemma counted_release sm hm h o s :
  counted_objs sm hm -> hm !! h = Some (Some o) -> sm !! o = Some s ->
  counted_objs
    (if SAO.use s - 1 =? 0 then delete o sm
     else <[o := SAO.mk (SAO.use s - 1) (SAO.a s) (SAO.n s)]> sm)
    (delete h hm).
Proof.
  intros [Hlive Hc] Hh Ho.
  destruct (Hc o s Ho) as [Hu1 Hu].
  pose proof (stakes_delete hm h (Some o) o Hh) as Hst.
  rewrite decide_True in Hst by done.
  assert (Hother : forall o', o' <> o ->
            stakes (delete h hm) o' = stakes hm o').
  { intros o' Hne. pose proof (stakes_delete hm h (Some o) o' Hh) as E.
    rewrite decide_False in E by congruence. done. }
  destruct (Z.eqb_spec (SAO.use s - 1) 0) as [Hz | Hnz].
  - assert (Hz' : stakes (delete h hm) o = 0%nat) by lia.
    split.
    + intros h' o' Hh'.
      assert (Hne : o' <> o).
      { intros ->. exact (stakes_zero _ _ _ Hz' Hh'). }
      rewrite lookup_delete_ne by done.
      apply (Hlive h'). apply lookup_delete_Some in Hh'. tauto.
    + intros o' s' Ho'. apply lookup_delete_Some in Ho' as [Hne Ho'].
      rewrite Hother by done. by apply Hc.
  - split.
    + intros h' o' Hh'. apply lookup_delete_Some in Hh' as [_ Hh'].
      destruct (decide (o' = o)) as [-> | Hne].
      * rewrite lookup_insert_eq. eauto.
      * rewrite lookup_insert_ne by done. by apply (Hlive h').
    + intros o' s' Ho'.
      destruct (decide (o' = o)) as [-> | Hne].
      * rewrite lookup_insert_eq in Ho'. injection Ho' as <-. simpl. lia.
      * rewrite lookup_insert_ne in Ho' by done.
        rewrite Hother by done. by apply Hc.
Qed.

(** Leaving an empty or absent handle out of the counting. *)
Lemma counted_drop_empty sm hm h :
  counted_objs sm hm -> hm !! h = Some None \/ hm !! h = None ->
  counted_objs sm (delete h hm).
Proof.
  intros [Hlive Hc] Hh. split.
  - intros h' o' Hh'. apply lookup_delete_Some in Hh' as [_ Hh'].
    by apply (Hlive h').
  - intros o s Ho. destruct Hh as [Hh | Hh].
    + pose proof (stakes_delete hm h None o Hh) as E.
      rewrite decide_False in E by done. rewrite <- E. by apply Hc.
    + rewrite delete_id by done. by apply Hc.
Qed.

(** Taking a stake in a live buffer for a handle left out so far. *)
Lemma counted_stake sm hm h o s :
  counted_objs sm hm -> hm !! h = None -> sm !! o = Some s ->
  counted_objs (<[o := SAO.mk (SAO.use s + 1) (SAO.a s) (SAO.n s)]> sm)
               (<[h := Some o]> hm).
Proof.
  intros [Hlive Hc] Hh Ho. destruct (Hc o s Ho) as [Hu1 Hu]. split.
  - intros h' o' Hh'.
    destruct (decide (o' = o)) as [-> | Hne];
      [rewrite lookup_insert_eq; eauto |].
    rewrite lookup_insert_ne by done.
    apply lookup_insert_Some in Hh' as [[_ E] | [_ Hh']]; [congruence |].
    by apply (Hlive h').
  - intros o' s' Ho'. rewrite stakes_insert_fresh by done.
    destruct (decide (o' = o)) as [-> | Hne].
    + rewrite lookup_insert_eq in Ho'. injection Ho' as <-. simpl.
      rewrite decide_True by done. lia.
    + rewrite lookup_insert_ne in Ho' by done.
      rewrite decide_False by congruence. by apply Hc.
Qed.

(** A new buffer for a handle left out so far. *)
Lemma counted_fresh sm hm h c a n :
  counted_objs sm hm -> hm !! h = None -> sm !! c = None ->
  counted_objs (<[c := SAO.mk 1 a n]> sm) (<[h := Some c]> hm).
Proof.
  intros [Hlive Hc] Hh Hfresh.
  assert (Hz : stakes hm c = 0%nat).
  { unfold stakes. apply map_size_empty_iff, map_empty. intros h'.
    apply map_lookup_filter_None.
    destruct (hm !! h') as [x|] eqn:E; [right | by left].
    intros x' [= <-] Hx. simpl in Hx. subst x.
    destruct (Hlive h' c E) as [s Hs]. congruence. }
  split.
  - intros h' o' Hh'.
    destruct (decide (o' = c)) as [-> | Hne];
      [rewrite lookup_insert_eq; eauto |].
    rewrite lookup_insert_ne by done.
    apply lookup_insert_Some in Hh' as [[_ E] | [_ Hh']]; [congruence |].
    by apply (Hlive h').
  - intros o' s' Ho'. rewrite stakes_insert_fresh by done.
    destruct (decide (o' = c)) as [-> | Hne].
    + rewrite lookup_insert_eq in Ho'. injection Ho' as <-. simpl.
      rewrite decide_True by done. lia.
    + rewrite lookup_insert_ne in Ho' by done.
      rewrite decide_False by congruence. by apply Hc.
Qed.

(** An empty handle in place of one left out so far. *)
Lemma counted_empty_handle sm hm h :
  counted_objs sm hm -> hm !! h = None ->
  counted_objs sm (<[h := None]> hm).
Proof.
  intros [Hlive Hc] Hh. split.
  - intros h' o' Hh'.
    apply lookup_insert_Some in Hh' as [[_ E] | [_ Hh']]; [congruence |].
    by apply (Hlive h').
  - intros o s Ho. rewrite stakes_insert_fresh by done.
    rewrite decide_False by done. by apply Hc.
Qed.

(** Rewriting the storage pointer and the length of a live buffer. *)
Lemma counted_touch sm hm o s a n :
  counted_objs sm hm -> sm !! o = Some s ->
  counted_objs (<[o := SAO.mk (SAO.use s) a n]> sm) hm.
Proof.
  intros [Hlive Hc] Ho. split.
  - intros h' o' Hh'.
    destruct (decide (o' = o)) as [-> | Hne];
      [rewrite lookup_insert_eq; eauto |].
    rewrite lookup_insert_ne by done. by apply (Hlive h').
  - intros o' s' Ho'.
    destruct (decide (o' = o)) as [-> | Hne].
    + rewrite lookup_insert_eq in Ho'. injection Ho' as <-. simpl.
      by apply Hc.
    + rewrite lookup_insert_ne in Ho' by done. by apply Hc.
Qed.

End Counting.

Section Frames.

Context {T : Type}.
Implicit Types (st : heap T) (s : SAO.t).

Lemma bind_inv {A B} (c : M T A) (f : A -> M T B) st y st2 :
  bind c f st = Ok (y, st2) ->
  exists x st1, c st = Ok (x, st1) /\ f x st1 = Ok (y, st2).
Proof.
  unfold bind. destruct (c st) as [[x st1] | e]; [eauto | discriminate].
Qed.

Lemma keeps_ret {A} (x : A) : keeps_objects (@ret T A x).
Proof. intros st y st' H. by inversion H. Qed.

Lemma keeps_fail {A} e : keeps_objects (@fail T A e).
Proof. intros st y st' [=]. Qed.

Lemma keeps_bind {A B} (c : M T A) (f : A -> M T B) :
  keeps_objects c -> (forall x, keeps_objects (f x)) ->
  keeps_objects (bind c f).
Proof.
  intros Hc Hf st y st2 Hrun.
  apply bind_inv in Hrun as (x & st1 & H1 & H2).
  destruct (Hc _ _ _ H1) as [E1 E2], (Hf _ _ _ _ H2) as [E3 E4].
  split; congruence.
Qed.

Lemma keeps_emit e : keeps_objects (@emit T e).
Proof. intros st y st' H. by inversion H. Qed.

Lemma keeps_malloc n : keeps_objects (@Memory_malloc T n).
Proof.
  intros st p st'. unfold Memory_malloc.
  destruct (n <? 0); [discriminate |]. intros H. by inversion H.
Qed.

Lemma keeps_free a : keeps_objects (@Memory_free T a).
Proof.
  intros st y st'. unfold Memory_free.
  destruct a as [p|]; [| apply keeps_ret].
  destruct (blocks st !! p); [| discriminate]. intros H.
  by inversion H.
Qed.

Lemma keeps_block_of a : keeps_objects (@block_of T a).
Proof.
  intros st y st'. unfold block_of.
  destruct a as [p|]; [| discriminate].
  destruct (blocks st !! p); [| discriminate]. intros H.
  by inversion H.
Qed.

Lemma keeps_slot_read a i : keeps_objects (@slot_read T a i).
Proof.
  apply keeps_bind; [apply keeps_block_of |]. intros pb.
  destruct (in_block pb.2 i); [apply keeps_ret | apply keeps_fail].
Qed.

Lemma keeps_slot_write a i v : keeps_objects (@slot_write T a i v).
Proof.
  apply keeps_bind; [apply keeps_block_of |]. intros pb.
  destruct (in_block pb.2 i); [| apply keeps_fail].
  intros st y st' H. by inversion H.
Qed.

Lemma keeps_slot_construct a i v : keeps_objects (@slot_construct T a i v).
Proof.
  apply keeps_bind; [apply keeps_slot_write |]. intros _.
  apply keeps_bind; [apply keeps_block_of | intros pb; apply keeps_emit].
Qed.

Lemma keeps_slot_destruct a i : keeps_objects (@slot_destruct T a i).
Proof.
  apply keeps_bind; [apply keeps_slot_write |]. intros _.
  apply keeps_bind; [apply keeps_block_of | intros pb; apply keeps_emit].
Qed.

Lemma keeps_for_down n (body : Z -> M T unit) :
  (forall i, keeps_objects (body i)) -> keeps_objects (for_down n body).
Proof.
  intros Hbody. unfold for_down. destruct (n <? 0).
  - apply keeps_bind; [apply Hbody | intros _; apply keeps_fail].
  - induction (Z.to_nat n) as [|k IH]; simpl; [apply keeps_ret |].
    apply keeps_bind; [apply Hbody | intros _; apply IH].
Qed.

Lemma keeps_copy_loop n a1 a2 :
  keeps_objects
    (for_down n (fun i => let* v := @slot_read T a1 i in
                          slot_construct a2 i v)).
Proof.
  apply keeps_for_down. intros i.
  apply keeps_bind; [apply keeps_slot_read |].
  intros v. apply keeps_slot_construct.
Qed.

Lemma sao_load_inv o s st st' :
  sao_load o st = Ok (s, st') -> st' = st /\ saos st !! o = Some s.
Proof.
  unfold sao_load. destruct (saos st !! o); [| discriminate].
  intros [= -> ->]. done.
Qed.

Lemma sao_store_inv o s st st' :
  sao_store o s st = Ok (tt, st') ->
  saos st' = <[o := s]> (saos st) /\ handles st' = handles st.
Proof.
  unfold sao_store. destruct (saos st !! o); [| discriminate].
  intros [= <-]. done.
Qed.

Lemma handle_load_inv h x st st' :
  handle_load h st = Ok (x, st') -> st' = st /\ handles st !! h = Some x.
Proof.
  unfold handle_load. destruct (handles st !! h); [| discriminate].
  intros [= -> ->]. done.
Qed.

Lemma SAO_new_inv n0 o st st' :
  SAO_new n0 st = Ok (o, st') ->
  saos st !! o = None /\ handles st' = handles st /\
  exists a, saos st' = <[o := SAO.mk 1 a n0]> (saos st).
Proof.
  unfold SAO_new. intros Hrun.
  apply bind_inv in Hrun as (a & st1 & H1 & H2).
  assert (Hk : saos st1 = saos st /\ handles st1 = handles st).
  { revert H1. destruct (n0 >? 0); [| apply keeps_ret].
    apply keeps_bind; [apply keeps_malloc | intros p; apply keeps_ret]. }
  destruct Hk as [E1 E2]. cbv beta zeta in H2.
  inversion H2; subst o st'; clear H2. simpl.
  rewrite E1, E2. split; [apply fresh_sao |]. eauto.
Qed.

Lemma SAO_delete_inv o st st' :
  SAO_delete o st = Ok (tt, st') ->
  saos st' = delete o (saos st) /\ handles st' = handles st.
Proof.
  unfold SAO_delete. intros Hrun.
  apply bind_inv in Hrun as (s & st0 & H0 & Hrun).
  apply sao_load_inv in H0 as [-> Ho].
  apply bind_inv in Hrun as ([] & st1 & H1 & H2).
  assert (Hk : saos st1 = saos st /\ handles st1 = handles st).
  { revert H1. destruct (SAO.n s >? 0); [| apply keeps_ret].
    apply keeps_bind; [| intros _; apply keeps_free].
    apply keeps_for_down. intros i. apply keeps_slot_destruct. }
  destruct Hk as [E1 E2]. inversion H2; subst st'; clear H2. simpl.
  by rewrite E1, E2.
Qed.

Lemma SAO_release_inv o st st' :
  SAO_release o st = Ok (tt, st') ->
  exists s,
    saos st !! o = Some s /\ handles st' = handles st /\
    saos st'
    = if wrap_uint (SAO.use s - 1) =? 0 then delete o (saos st)
      else <[o := SAO.mk (wrap_uint (SAO.use s - 1)) (SAO.a s) (SAO.n s)]>
             (saos st).
Proof.
  unfold SAO_release. intros Hrun.
  apply bind_inv in Hrun as (s & st0 & H0 & Hrun).
  apply sao_load_inv in H0 as [-> Ho].
  apply bind_inv in Hrun as ([] & st1 & H1 & H2).
  apply sao_store_inv in H1 as [E1 E2].
  exists s. split; [done |].
  destruct (wrap_uint (SAO.use s - 1) =? 0).
  - apply SAO_delete_inv in H2 as [E3 E4].
    rewrite E3, E4, E1, E2. by rewrite delete_insert_eq.
  - inversion H2; subst st'. done.
Qed.

Lemma SAO_subscribe_inv o st st' :
  SAO_subscribe o st = Ok (tt, st') ->
  exists s,
    saos st !! o = Some s /\ handles st' = handles st /\
    saos st'
    = <[o := SAO.mk (wrap_uint (SAO.use s + 1)) (SAO.a s) (SAO.n s)]>
        (saos st).
Proof.
  unfold SAO_subscribe. intros Hrun.
  apply bind_inv in Hrun as (s & st0 & H0 & Hrun).
  apply sao_load_inv in H0 as [-> Ho].
  apply sao_store_inv in Hrun as [E1 E2]. eauto.
Qed.

Lemma SAO_copy_inv o c st st' :
  SAO_copy o st = Ok (c, st') ->
  saos st !! c = None /\ handles st' = handles st /\
  exists a n, saos st' = <[c := SAO.mk 1 a n]> (saos st).
Proof.
  unfold SAO_copy. intros Hrun.
  apply bind_inv in Hrun as (s & st0 & H0 & Hrun).
  apply sao_load_inv in H0 as [-> Ho].
  apply bind_inv in Hrun as (c' & st1 & H1 & Hrun).
  apply SAO_new_inv in H1 as (Hc & E2 & a & E1).
  apply bind_inv in Hrun as (so & st2 & H2 & Hrun).
  apply sao_load_inv in H2 as [-> _].
  apply bind_inv in Hrun as ([] & st3 & H3 & Hrun).
  apply keeps_copy_loop in H3 as [E3 E4].
  inversion Hrun; subst c' st'; clear Hrun.
  split; [done |]. split; [congruence |].
  exists a, (SAO.n s). congruence.
Qed.

Lemma SAO_shrink_inv o m st st' :
  SAO_shrink o m st = Ok (tt, st') ->
  handles st' = handles st /\
  exists s a n,
    saos st !! o = Some s /\
    saos st' = <[o := SAO.mk (SAO.use s) a n]> (saos st).
Proof.
  unfold SAO_shrink. intros Hrun.
  apply bind_inv in Hrun as (s & st0 & H0 & Hrun).
  apply sao_load_inv in H0 as [-> Ho].
  apply bind_inv in Hrun as ([] & st1 & H1 & Hrun).
  assert (K1 : saos st1 = saos st /\ handles st1 = handles st).
  { revert H1. destruct (m <? SAO.n s); [apply keeps_ret | apply keeps_fail]. }
  apply bind_inv in Hrun as (na & st2 & H2 & Hrun).
  assert (K2 : saos st2 = saos st1 /\ handles st2 = handles st1).
  { revert H2. destruct (m >? 0); [| apply keeps_ret].
    apply keeps_bind; [apply keeps_malloc |]. intros p.
    apply keeps_bind; [apply keeps_copy_loop | intros _; apply keeps_ret]. }
  apply bind_inv in Hrun as ([] & st3 & H3 & Hrun).
  assert (K3 : saos st3 = saos st2 /\ handles st3 = handles st2).
  { revert H3. destruct (SAO.n s >? 0); [apply keeps_free | apply keeps_ret]. }
  apply sao_store_inv in Hrun as [E1 E2].
  destruct K1 as [? ?], K2 as [? ?], K3 as [? ?].
  split; [congruence |]. exists s, na, m. split; [done | congruence].
Qed.

Lemma SAO_ensure_inv o i st st' :
  SAO_ensure o i st = Ok (tt, st') ->
  handles st' = handles st /\
  exists s a n,
    saos st !! o = Some s /\
    saos st' = <[o := SAO.mk (SAO.use s) a n]> (saos st).
Proof.
  unfold SAO_ensure. intros Hrun.
  apply bind_inv in Hrun as (s & st0 & H0 & Hrun).
  apply sao_load_inv in H0 as [-> Ho].
  destruct (i >=? SAO.n s).
  - apply bind_inv in Hrun as (p & st1 & H1 & Hrun).
    apply keeps_malloc in H1 as [S1 F1].
    apply bind_inv in Hrun as ([] & st2 & H2 & Hrun).
    apply keeps_copy_loop in H2 as [S2 F2].
    apply bind_inv in Hrun as ([] & st3 & H3 & Hrun).
    assert (K3 : saos st3 = saos st2 /\ handles st3 = handles st2).
    { revert H3.
      destruct (SAO.n s >? 0); [apply keeps_free | apply keeps_ret]. }
    destruct K3 as [S3 F3].
    apply sao_store_inv in Hrun as [E1 E2].
    split; [congruence |]. eexists s, _, _. split; [done |].
    rewrite E1, S3, S2, S1. reflexivity.
  - inversion Hrun; subst st'. split; [done |].
    exists s, (SAO.a s), (SAO.n s). split; [done |].
    destruct s. simpl. by rewrite insert_id.
Qed.

End Frames.

Section CountingCalls.

Context {T Space : Type}.
Implicit Types (st : heap T) (s : SAO.t).

Lemma size_delete_le (hm : gmap hid (option addr)) h :
  (size (delete h hm) <= size hm)%nat.
Proof. rewrite map_size_delete. destruct (hm !! h); simpl; lia. Qed.

(** The release at the head of the destructor, of [operator=], of
    [update] and of [size(0)]. *)
Lemma release_phase (this : hid) x st st1 :
  counted st ->
  handles st !! this = Some x ->
  Z.of_nat (size (handles st)) + 1 < UINT_MOD ->
  when_sao x SAO_release st = Ok (tt, st1) ->
  handles st1 = handles st /\
  counted_objs (saos st1) (delete this (handles st)).
Proof.
  intros Hc Hx Hb Hrun. destruct x as [o|]; simpl in Hrun.
  - apply SAO_release_inv in Hrun as (s & Ho & E2 & E1).
    split; [done |].
    pose proof (counted_use_bound _ _ _ _ Hc Ho) as Hu.
    rewrite wrap_uint_small in E1 by lia. rewrite E1.
    by apply counted_release.
  - inversion Hrun; subst st1. split; [done |].
    apply counted_drop_empty; [done | by left].
Qed.

(** The stake at the end of the copy constructor, of [operator=] and of
    [update] with sharing. *)
Lemma stake_phase (this : hid) (sa : option addr) st1 st' :
  counted_objs (saos st1) (delete this (handles st1)) ->
  Z.of_nat (size (handles st1)) + 1 < UINT_MOD ->
  (handle_store this sa ;; when_sao sa SAO_subscribe) st1 = Ok (tt, st') ->
  counted st'.
Proof.
  intros Hc Hb Hrun.
  apply bind_inv in Hrun as ([] & st2 & H2 & Hrun).
  inversion H2; subst st2; clear H2.
  destruct sa as [o|]; simpl in Hrun.
  - apply SAO_subscribe_inv in Hrun as (s & Ho & E2 & E1).
    simpl in Ho, E1, E2. unfold counted. rewrite E1, E2.
    pose proof (counted_use_bound _ _ _ _ Hc Ho) as Hu.
    pose proof (size_delete_le (handles st1) this).
    rewrite wrap_uint_small by lia.
    rewrite <- (insert_delete_eq (handles st1)).
    apply counted_stake; [done | apply lookup_delete_eq | done].
  - inversion Hrun; subst st'. unfold counted. simpl.
    rewrite <- insert_delete_eq.
    apply counted_empty_handle; [done | apply lookup_delete_eq].
Qed.

Lemma counted_same st st' :
  counted st -> saos st' = saos st -> handles st' = handles st ->
  counted st'.
Proof. unfold counted. by intros Hc -> ->. Qed.

Lemma counted_touched o s a n st st' :
  counted st -> saos st !! o = Some s ->
  saos st' = <[o := SAO.mk (SAO.use s) a n]> (saos st) ->
  handles st' = handles st ->
  counted st'.
Proof.
  unfold counted. intros Hc Ho -> ->. by apply counted_touch.
Qed.

(** One call keeps the counting exact. *)
Lemma counted_call (c : @call T Space) st st' :
  counted st ->
  placed st c ->
  Z.of_nat (size (handles st)) + 1 < UINT_MOD ->
  perform c st = Ok (tt, st') ->
  counted st'.
Proof.
  intros Hc Hplaced Hb Hrun.
  destruct c as [this n | this a | this | this a | this home share a
                 | this i v | this n | this n | this n];
    simpl in Hrun, Hplaced.
  - (* SharedArray(int n) *)
    unfold SharedArray_new in Hrun.
    apply bind_inv in Hrun as (o & st1 & H1 & Hrun).
    apply SAO_new_inv in H1 as (Hfresh & E2 & a & E1).
    inversion Hrun; subst st'; clear Hrun.
    unfold counted. simpl. rewrite E1, E2.
    by apply counted_fresh.
  - (* SharedArray(const SharedArray&) *)
    unfold SharedArray_copy in Hrun.
    apply bind_inv in Hrun as (sa & st0 & H0 & Hrun).
    apply handle_load_inv in H0 as [-> Ha].
    eapply stake_phase; [| done | exact Hrun].
    by rewrite delete_id.
  - (* ~SharedArray() *)
    unfold SharedArray_delete in Hrun.
    apply bind_inv in Hrun as (x & st0 & H0 & Hrun).
    apply handle_load_inv in H0 as [-> Hx].
    apply bind_inv in Hrun as ([] & st1 & H1 & Hrun).
    destruct (release_phase this x st st1 Hc Hx Hb H1) as [E2 Hc1].
    inversion Hrun; subst st'; clear Hrun.
    unfold counted. simpl. by rewrite E2.
  - (* operator= *)
    unfold SharedArray_assign in Hrun.
    destruct (decide (this = a)) as [-> | Hne].
    { inversion Hrun; by subst st'. }
    apply bind_inv in Hrun as (x & st0 & H0 & Hrun).
    apply handle_load_inv in H0 as [-> Hx].
    apply bind_inv in Hrun as ([] & st1 & H1 & Hrun).
    destruct (release_phase this x st st1 Hc Hx Hb H1) as [E2 Hc1].
    apply bind_inv in Hrun as (sa & st2 & H2 & Hrun).
    apply handle_load_inv in H2 as [-> Ha].
    eapply stake_phase; [| | exact Hrun]; by rewrite E2.
  - (* update *)
    unfold SharedArray_update in Hrun.
    apply bind_inv in Hrun as (x & st0 & H0 & Hrun).
    apply handle_load_inv in H0 as [-> Hx].
    apply bind_inv in Hrun as ([] & st1 & H1 & Hrun).
    destruct (release_phase this x st st1 Hc Hx Hb H1) as [E2 Hc1].
    apply bind_inv in Hrun as (sa & st2 & H2 & Hrun).
    apply handle_load_inv in H2 as [-> Ha].
    destruct share.
    + eapply stake_phase; [| | exact Hrun]; by rewrite E2.
    + destruct sa as [o|].
      * apply bind_inv in Hrun as (c & st3 & H3 & Hrun).
        apply SAO_copy_inv in H3 as (Hfresh & F3 & a' & n' & S3).
        inversion Hrun; subst st'; clear Hrun.
        unfold counted. simpl. rewrite S3, F3, E2.
        rewrite <- (insert_delete_eq (handles st)).
        apply counted_fresh; [done | apply lookup_delete_eq | done].
      * inversion Hrun; subst st'; clear Hrun.
        unfold counted. simpl. rewrite E2, <- insert_delete_eq.
        apply counted_empty_handle; [done | apply lookup_delete_eq].
  - (* operator[] *)
    unfold SharedArray_set in Hrun.
    apply bind_inv in Hrun as (x & st0 & H0 & Hrun).
    apply handle_load_inv in H0 as [-> Hx].
    destruct x as [o|]; [| discriminate].
    apply bind_inv in Hrun as (so & st1 & H1 & Hrun).
    apply sao_load_inv in H1 as [-> Ho].
    apply keeps_slot_write in Hrun as [E1 E2].
    by eapply counted_same.
  - (* size(int) *)
    unfold SharedArray_resize in Hrun.
    apply bind_inv in Hrun as (x & st0 & H0 & Hrun).
    apply handle_load_inv in H0 as [-> Hx].
    destruct (n =? 0).
    + apply bind_inv in Hrun as ([] & st1 & H1 & Hrun).
      destruct (release_phase this x st st1 Hc Hx Hb H1) as [E2 Hc1].
      inversion Hrun; subst st'; clear Hrun.
      unfold counted. simpl. rewrite E2, <- insert_delete_eq.
      apply counted_empty_handle; [done | apply lookup_delete_eq].
    + destruct x as [o|]; [| discriminate].
      apply bind_inv in Hrun as (so & st1 & H1 & Hrun).
      apply sao_load_inv in H1 as [-> Ho].
      apply sao_store_inv in Hrun as [E1 E2].
      by eapply counted_touched.
  - (* shrink *)
    unfold SharedArray_shrink in Hrun.
    apply bind_inv in Hrun as (x & st0 & H0 & Hrun).
    apply handle_load_inv in H0 as [-> Hx].
    destruct x as [o|]; simpl in Hrun.
    + apply SAO_shrink_inv in Hrun as (E2 & s & a & n' & Ho & E1).
      by eapply counted_touched.
    + inversion Hrun; by subst st'.
  - (* ensure *)
    unfold SharedArray_ensure in Hrun.
    apply bind_inv in Hrun as (x & st0 & H0 & Hrun).
    apply handle_load_inv in H0 as [-> Hx].
    destruct x as [o|]; simpl in Hrun.
    + apply SAO_ensure_inv in Hrun as (E2 & s & a & n' & Ho & E1).
      by eapply counted_touched.
    + inversion Hrun; by subst st'.
Qed.

Lemma counted_empty : counted (@empty_heap T).
Proof.
  split.
  - intros h o Hh. simpl in Hh. by rewrite lookup_empty in Hh.
  - intros o s Ho. simpl in Ho. by rewrite lookup_empty in Ho.
Qed.

Lemma reachable_counted st : @reachable T Space st -> counted st.
Proof.
  induction 1 as [| st c st' _ IH Hp Hb Hrun]; [apply counted_empty |].
  by eapply counted_call.
Qed.

(** X13. Reference counts stay exact: if every live buffer's count equals
    the number of handles that hold it (and is at least 1) and every
    handle's buffer is live, then the same holds after any constructor (at
    a location that holds no handle), destructor, assignment, [update],
    element write, [size(int)], [shrink] or [ensure] that returns, provided
    fewer than [2^32 - 1] handles exist. *)
Theorem calls_keep_counts_exact (c : @call T Space) st st' :
  counted st ->
  placed st c ->
  Z.of_nat (size (handles st)) + 1 < UINT_MOD ->
  perform c st = Ok (tt, st') ->
  counted st'.
Proof. intros Hc Hp Hb Hrun. exact (counted_call c st st' Hc Hp Hb Hrun). Qed.

(** X14. No dangling handle and no leaked buffer: in every store a
    program reaches from the empty store, each handle is empty or holds a
    live buffer, so that [size()] returns for it; and each live buffer is
    held by at least one handle, their number being its count. *)
Theorem reachable_is_safe st :
  @reachable T Space st ->
  (forall h x, handles st !! h = Some x ->
               exists n, SharedArray_size h st = Ok (n, st)) /\
  (forall o s, saos st !! o = Some s ->
               SAO.use s = Z.of_nat (stakes (handles st) o) /\
               exists h, handles st !! h = Some (Some o)).
Proof.
  intros Hr. destruct (reachable_counted st Hr) as [Hlive Hc]. split.
  - intros h [o|] Hh.
    + destruct (Hlive h o Hh) as [s Ho].
      exists (SAO.n s). by apply (SharedArray_size_held h o s).
    + exists 0. by apply SharedArray_size_empty.
  - intros o s Ho. destruct (Hc o s Ho) as [Hu1 Hu]. split; [done |].
    assert (Hnz : size (filter (fun kv : hid * option addr => kv.2 = Some o)
                          (handles st)) <> 0%nat)
      by (unfold stakes in Hu; lia).
    apply map_size_ne_0_lookup_1 in Hnz as (h & x & Hx).
    apply map_lookup_filter_Some in Hx as [Hx Hp]. simpl in Hp. subst x.
    eauto.
Qed.

End CountingCalls.

(** ** Instances: witnesses and counterexamples *)

Import Examples.

Example one_handle_buffer :
  handles one_handle !! 0%nat = Some (Some 1%positive) /\
  saos one_handle !! 1%positive = Some buffer3 /\
  blocks one_handle !! 1%positive = Some [Some 10; Some 11; Some 12].
Proof. repeat split; vm_compute; reflexivity. Qed.

Lemma one_handle_wf : wf_sao one_handle buffer3.
Proof.
  split; [vm_compute; split; congruence |].
  split; [reflexivity |].
  exists [Some 10; Some 11; Some 12]. split; [reflexivity |].
  vm_compute. congruence.
Defined.

Lemma create_then_size_witness :
  0 <= 3 /\
  exists st',
    SharedArray_new (T := Z) 0%nat 3 empty_heap = Ok (tt, st') /\
    SharedArray_size 0%nat st' = Ok (3, st').
Proof.
  split; [lia |]. apply (create_then_size (T := Z) 0%nat 3 empty_heap). lia.
Defined.



(** After [x.ensure(0)] on an array of no element the buffer holds a block
    of no slot; the next growth allocates and frees nothing, so that block
    stays. *)
Example ensure_events :
  let st' := run_from (SharedArray_ensure 0%nat 5) regrown in
  saos regrown !! 1%positive = Some buffer0 /\
  blocks regrown !! 1%positive = Some [] /\
  since regrown st' = [EMalloc 2 5] /\
  blocks st' !! 1%positive = Some [].
Proof. vm_compute. repeat split. Qed.



Lemma two_buffers_wf : wf_sao two_buffers buffer1.
Proof.
  split; [vm_compute; split; congruence |].
  split; [reflexivity |].
  exists [None]. split; [reflexivity |]. vm_compute. congruence.
Defined.

Lemma three_handles_wf : wf_sao three_handles (buffer3_shared 3).
Proof.
  split; [vm_compute; split; congruence |].
  split; [reflexivity |].
  exists [Some 10; Some 11; Some 12]. split; [reflexivity |].
  vm_compute. congruence.
Defined.

(** Two handles already share the buffer: [update] with [share = true]
    between them leaves the count at 2. *)
Lemma update_share_claim_fails :
  ~ update_share_claim two_handles 1%nat 0%nat tt.
Proof.
  intros Hclaim.
  destruct (Hclaim 1%positive (buffer3_shared 2) eq_refl eq_refl)
    as (st' & s' & Hrun & _ & _ & Hs' & Huse).
  vm_compute in Hrun. injection Hrun as <-.
  vm_compute in Hs'. injection Hs' as <-.
  vm_compute in Huse. discriminate.
Qed.

Lemma update_share_stakes_witness :
  handles two_buffers !! 0%nat = Some (Some 1%positive) /\
  saos two_buffers !! 1%positive = Some (buffer3_shared 2) /\
  1 <= SAO.use (buffer3_shared 2) /\
  SAO.use (buffer3_shared 2) + 1 < UINT_MOD /\
  handles two_buffers !! 3%nat = Some (Some 2%positive) /\
  releasable two_buffers (Some 2%positive) 1%positive (buffer3_shared 2) /\
  exists st',
    SharedArray_update 3%nat tt true 0%nat two_buffers = Ok (tt, st') /\
    saos st' !! 1%positive = Some (buffer3_shared 3).
Proof.
  assert (H1 : handles two_buffers !! 0%nat = Some (Some 1%positive))
    by reflexivity.
  assert (H2 : saos two_buffers !! 1%positive = Some (buffer3_shared 2))
    by reflexivity.
  assert (H3 : 1 <= SAO.use (buffer3_shared 2)) by (vm_compute; congruence).
  assert (H4 : SAO.use (buffer3_shared 2) + 1 < UINT_MOD) by reflexivity.
  assert (H5 : handles two_buffers !! 3%nat = Some (Some 2%positive))
    by reflexivity.
  assert (H6 : releasable two_buffers (Some 2%positive) 1%positive
                 (buffer3_shared 2)).
  { exists buffer1. split; [reflexivity | exact two_buffers_wf]. }
  repeat (split; [assumption |]).
  destruct (update_share_stakes 3%nat 0%nat tt 1%positive (buffer3_shared 2)
              (Some 2%positive) two_buffers H1 H2 H3 H4 H5 H6)
    as (st' & Hrun & _ & _ & _ & _ & _ & Hs).
  exists st'. split; [exact Hrun | exact Hs].
Defined.

(** Shrinking to no element allocates nothing: the storage pointer is
    NULL afterwards. *)
Lemma shrink_claim_fails : ~ shrink_claim one_handle 0%nat 0.
Proof.
  intros Hclaim.
  destruct (Hclaim 1%positive buffer3 1%positive
              [Some 10; Some 11; Some 12] eq_refl eq_refl eq_refl eq_refl)
    as (st' & q & Hrun & _ & Hs & _).
  { vm_compute. split; congruence. }
  vm_compute in Hrun. injection Hrun as <-.
  vm_compute in Hs. discriminate.
Qed.

(** [shrink] runs no destructor: the events of shrinking three elements
    to two. *)
Example shrink_events :
  since one_handle (run_from (SharedArray_shrink 0%nat 2) one_handle)
  = [EMalloc 2 2; EConstruct 2 1; EConstruct 2 0; EFree 1].
Proof. vm_compute. reflexivity. Qed.

Lemma shrink_reallocates_witness :
  handles one_handle !! 0%nat = Some (Some 1%positive) /\
  saos one_handle !! 1%positive = Some buffer3 /\
  SAO.a buffer3 = Some 1%positive /\
  blocks one_handle !! 1%positive = Some [Some 10; Some 11; Some 12] /\
  SAO.n buffer3 <= Z.of_nat (length [Some 10; Some 11; Some 12]) /\
  0 <= 2 < SAO.n buffer3 /\
  exists st',
    SharedArray_shrink 0%nat 2 one_handle = Ok (tt, st') /\
    SharedArray_size 0%nat st' = Ok (2, st').
Proof.
  assert (H1 : handles one_handle !! 0%nat = Some (Some 1%positive))
    by reflexivity.
  assert (H2 : saos one_handle !! 1%positive = Some buffer3)
    by reflexivity.
  assert (H3 : SAO.a buffer3 = Some 1%positive) by reflexivity.
  assert (H4 : blocks one_handle !! 1%positive
               = Some [Some 10; Some 11; Some 12]) by reflexivity.
  assert (H5 : SAO.n buffer3
               <= Z.of_nat (length [Some 10; Some 11; Some 12]))
    by (vm_compute; congruence).
  assert (H6 : 0 <= 2 < SAO.n buffer3) by (vm_compute; split; congruence).
  repeat (split; [assumption |]).
  destruct (shrink_reallocates 0%nat 1%positive buffer3 1%positive
              [Some 10; Some 11; Some 12] 2 one_handle H1 H2 H3 H4 H5 H6)
    as (st' & Hrun & Hsize & _).
  exists st'. split; [exact Hrun | exact Hsize].
Defined.

Lemma stakes_released_in_turn_witness :
  saos three_handles !! 1%positive = Some (buffer3_shared 3) /\
  wf_sao three_handles (buffer3_shared 3) /\
  NoDup [1%nat; 2%nat; 0%nat] /\
  (forall h, h ∈ [1%nat; 2%nat; 0%nat] ->
             handles three_handles !! h = Some (Some 1%positive)) /\
  SAO.use (buffer3_shared 3) = Z.of_nat (length [1%nat; 2%nat; 0%nat]) /\
  exists st',
    delete_all [1%nat; 2%nat; 0%nat] three_handles = Ok (tt, st') /\
    saos st' !! 1%positive = None /\
    count_occ event_eq_dec (since three_handles st') (EDelete 1%positive)
    = 1%nat.
Proof.
  assert (H1 : saos three_handles !! 1%positive = Some (buffer3_shared 3))
    by reflexivity.
  assert (H2 : NoDup [1%nat; 2%nat; 0%nat]).
  { repeat (apply NoDup_cons; split;
            [intros Hin; repeat (apply elem_of_cons in Hin as [Hin | Hin];
                                 [discriminate |]);
             by apply elem_of_nil in Hin |]).
    apply NoDup_nil. done. }
  assert (H3 : forall h, h ∈ [1%nat; 2%nat; 0%nat] ->
               handles three_handles !! h = Some (Some 1%positive)).
  { intros h Hin.
    repeat (apply elem_of_cons in Hin as [-> | Hin]; [reflexivity |]).
    by apply elem_of_nil in Hin. }
  assert (H4 : SAO.use (buffer3_shared 3)
               = Z.of_nat (length [1%nat; 2%nat; 0%nat])) by reflexivity.
  split; [assumption |]. split; [exact three_handles_wf |].
  repeat (split; [assumption |]).
  destruct (stakes_released_in_turn [1%nat; 2%nat; 0%nat]
              1%positive (buffer3_shared 3) three_handles
              H1 three_handles_wf H2 H3 H4)
    as [_ (st' & Hrun & Hgone & _ & Honce)].
  exists st'.
  split; [exact Hrun |]. split; [exact Hgone | exact Honce].
Defined.

(** Copying an empty handle and updating the copy from it leaves the copy
    empty: it holds no buffer. *)
Lemma copy_then_diverge_claim_fails :
  ~ copy_then_diverge_claim emptied 0%nat 1%nat tt.
Proof.
  intros (st1 & st2 & Hcopy & Hrun & _ & _ & c & sc & len & Hc & _).
  vm_compute in Hcopy. injection Hcopy as <-.
  vm_compute in Hrun. injection Hrun as <-.
  vm_compute in Hc. discriminate.
Qed.

Lemma copy_then_diverge_witness :
  0%nat <> 1%nat /\
  handles one_handle !! 0%nat = Some (Some 1%positive) /\
  saos one_handle !! 1%positive = Some buffer3 /\
  wf_sao one_handle buffer3 /\
  SAO.use buffer3 + 1 < UINT_MOD /\
  exists st1 st2,
    SharedArray_copy 1%nat 0%nat one_handle = Ok (tt, st1) /\
    SharedArray_update 1%nat tt false 0%nat st1 = Ok (tt, st2) /\
    diverged st1 st2 1%nat 0%nat.
Proof.
  assert (H0 : 0%nat <> 1%nat) by discriminate.
  assert (H1 : handles one_handle !! 0%nat = Some (Some 1%positive))
    by reflexivity.
  assert (H2 : saos one_handle !! 1%positive = Some buffer3)
    by reflexivity.
  assert (H3 : SAO.use buffer3 + 1 < UINT_MOD) by reflexivity.
  split; [assumption |]. split; [assumption |]. split; [assumption |].
  split; [exact one_handle_wf |]. split; [assumption |].
  destruct (copy_then_diverge 0%nat 1%nat tt 1%positive buffer3 one_handle
              H0 H1 H2 one_handle_wf H3) as (st1 & Hcopy & Hboth).
  destruct (Hboth 1%nat 0%nat (or_introl (conj eq_refl eq_refl)))
    as (st2 & Hrun & Hdiv).
  exists st1, st2.
  split; [exact Hcopy |]. split; [exact Hrun | exact Hdiv].
Defined.

(** [size(5)] on an empty handle dereferences the NULL pointer. *)
Lemma resize_claim_fails : ~ resize_claim emptied 0%nat 5.
Proof.
  unfold resize_claim. simpl.
  intros (st' & Hrun & _). vm_compute in Hrun. discriminate.
Qed.

Lemma resize_contract_witness :
  handles one_handle !! 0%nat = Some (Some 1%positive) /\
  holds_wf one_handle (Some 1%positive) /\
  SharedArray_resize 0%nat 2 one_handle
  = Ok (tt, Heap (<[1%positive := SAO.mk 1 (Some 1%positive) 2]>
                    (saos one_handle))
                 (blocks one_handle) (handles one_handle)
                 (trace one_handle)).
Proof.
  assert (H1 : handles one_handle !! 0%nat = Some (Some 1%positive))
    by reflexivity.
  assert (H2 : holds_wf one_handle (Some 1%positive)).
  { exists buffer3. split; [reflexivity | exact one_handle_wf]. }
  split; [assumption |]. split; [assumption |].
  destruct (resize_contract 0%nat (Some 1%positive) one_handle H1 H2)
    as [_ Hset].
  apply (Hset 2 1%positive buffer3); [discriminate | | ]; reflexivity.
Defined.

Example scenario_posts_equality :
  let r := Deserializer_post Scenario.poster Scenario.registry
             Scenario.session2 Scenario.eq01 in
  r.1 = Returns tt /\
  v r.2 = [0%nat; 1%nat] /\
  Scenario.constraints (space (home r.2)) = [("eq"%string, [0%nat; 1%nat])].
Proof. vm_compute. repeat split. Qed.

Example scenario_undefined_reference :
  let r := Deserializer_post Scenario.poster Scenario.registry
             Scenario.session2 Scenario.eq02 in
  r.1 = Throws UndefinedVariableReference /\
  Scenario.constraints (space (home r.2)) = [].
Proof. vm_compute. repeat split. Qed.

Lemma scenario_bad_index :
  bad_index (v Scenario.session2) [0; 2].
Proof.
  exists 2. split.
  - apply list_elem_of_further, list_elem_of_here.
  - vm_compute. intros [_ H]. discriminate.
Defined.

(** In the first reading the lookup fails first on an unregistered kind:
    the error is UnknownConstraintKind although index 2 is not a valid
    position, and the statement of C9 does not hold of that reading. *)
Lemma post_claim_fails :
  ~ post_claim (Deserializer_post Scenario.poster Scenario.registry)
      Scenario.session2 Scenario.neq02.
Proof.
  intros (_ & _ & Hbad).
  destruct (Hbad scenario_bad_index) as [Hexn _].
  vm_compute in Hexn. discriminate.
Qed.

(** The input on which the two readings part: an unregistered kind with
    an index out of range. *)
Example post_readings_part :
  (Deserializer_post Scenario.poster Scenario.registry Scenario.session2
     Scenario.neq02).1 = Throws UnknownConstraintKind /\
  (Deserializer_post_checked Scenario.poster Scenario.registry
     Scenario.session2 Scenario.neq02).1
  = Throws UndefinedVariableReference.
Proof. vm_compute. split; reflexivity. Qed.

(** *** Instances for the generator, the sharing and the counting *)

Lemma next_is_multiplication_witness :
  schrage LCG.RandomGenerator_m LCG.RandomGenerator_a
          LCG.RandomGenerator_q LCG.RandomGenerator_r /\
  0 <= LCG.s default_generator < LCG.RandomGenerator_m /\
  (LCG.next LCG.RandomGenerator_m LCG.RandomGenerator_a
            LCG.RandomGenerator_q LCG.RandomGenerator_r default_generator).1
  = 48271.
Proof.
  assert (Hs : 0 <= LCG.s default_generator < LCG.RandomGenerator_m)
    by (vm_compute; split; congruence).
  split; [exact RandomGenerator_schrage |]. split; [exact Hs |].
  destruct (next_is_multiplication _ _ _ _ default_generator
              RandomGenerator_schrage Hs) as [Hv _].
  rewrite Hv. reflexivity.
Defined.

Lemma generator_stays_in_range_witness :
  schrage LCG.RandomGenerator_m LCG.RandomGenerator_a
          LCG.RandomGenerator_q LCG.RandomGenerator_r /\
  INT_MIN <= -1 <= INT_MAX /\
  1 <= LCG.s (LCG.draw LCG.RandomGenerator_m LCG.RandomGenerator_a
                LCG.RandomGenerator_q LCG.RandomGenerator_r 3
                (LCG.create LCG.RandomGenerator_m (-1))).2
    < LCG.RandomGenerator_m.
Proof.
  assert (Hseed : INT_MIN <= -1 <= INT_MAX) by (vm_compute; split; congruence).
  split; [exact RandomGenerator_schrage |]. split; [exact Hseed |].
  destruct (generator_stays_in_range _ _ _ _ (-1) 3 RandomGenerator_schrage
              Hseed) as (_ & _ & Hs & _).
  exact Hs.
Defined.

Lemma seed_round_trip_witness :
  2 <= LCG.RandomGenerator_m <= 2 ^ 31 /\
  1 <= 42 < LCG.RandomGenerator_m /\
  LCG.get_seed (LCG.seed LCG.RandomGenerator_m default_generator 42) = 42.
Proof.
  assert (Hm : 2 <= LCG.RandomGenerator_m <= 2 ^ 31)
    by (vm_compute; split; congruence).
  assert (Hx : 1 <= 42 < LCG.RandomGenerator_m)
    by (vm_compute; split; congruence).
  split; [exact Hm |]. split; [exact Hx |].
  destruct (seed_round_trip LCG.RandomGenerator_m default_generator 42 Hm)
    as [_ Hback].
  exact (Hback Hx).
Defined.

Lemma draw_closed_form_witness :
  schrage LCG.RandomGenerator_m LCG.RandomGenerator_a
          LCG.RandomGenerator_q LCG.RandomGenerator_r /\
  Z.gcd LCG.RandomGenerator_a LCG.RandomGenerator_m = 1 /\
  1 <= LCG.s default_generator < LCG.RandomGenerator_m /\
  LCG.s (LCG.draw LCG.RandomGenerator_m LCG.RandomGenerator_a
           LCG.RandomGenerator_q LCG.RandomGenerator_r 2
           default_generator).2
  = (LCG.RandomGenerator_a ^ Z.of_nat 2 * LCG.s default_generator)
      mod LCG.RandomGenerator_m.
Proof.
  assert (Hs : 1 <= LCG.s default_generator < LCG.RandomGenerator_m)
    by (vm_compute; split; congruence).
  split; [exact RandomGenerator_schrage |].
  split; [exact RandomGenerator_coprime |]. split; [exact Hs |].
  destruct (draw_closed_form _ _ _ _ 2 default_generator
              RandomGenerator_schrage RandomGenerator_coprime Hs)
    as (_ & Hst & _).
  exact Hst.
Defined.

Lemma RandomGenerator_next_witness :
  1 <= LCG.s default_generator < 2147483647 /\
  LCG.s (LCG.next LCG.RandomGenerator_m LCG.RandomGenerator_a
           LCG.RandomGenerator_q LCG.RandomGenerator_r default_generator).2
  = (LCG.next LCG.RandomGenerator_m LCG.RandomGenerator_a
       LCG.RandomGenerator_q LCG.RandomGenerator_r default_generator).1.
Proof.
  assert (Hs : 1 <= LCG.s default_generator < 2147483647)
    by (vm_compute; split; congruence).
  split; [exact Hs |].
  destruct (RandomGenerator_next default_generator Hs) as (_ & _ & Hst).
  exact Hst.
Defined.

Lemma next_injective_witness :
  schrage LCG.RandomGenerator_m LCG.RandomGenerator_a
          LCG.RandomGenerator_q LCG.RandomGenerator_r /\
  Z.gcd LCG.RandomGenerator_a LCG.RandomGenerator_m = 1 /\
  1 <= LCG.s default_generator < LCG.RandomGenerator_m /\
  1 <= LCG.s (LCG.mk 1 0) < LCG.RandomGenerator_m /\
  LCG.s default_generator = LCG.s (LCG.mk 1 0).
Proof.
  assert (H1 : 1 <= LCG.s default_generator < LCG.RandomGenerator_m)
    by (vm_compute; split; congruence).
  assert (H2 : 1 <= LCG.s (LCG.mk 1 0) < LCG.RandomGenerator_m)
    by (vm_compute; split; congruence).
  split; [exact RandomGenerator_schrage |].
  split; [exact RandomGenerator_coprime |].
  split; [exact H1 |]. split; [exact H2 |].
  apply (next_injective _ _ _ _ default_generator (LCG.mk 1 0)
           RandomGenerator_schrage RandomGenerator_coprime H1 H2).
  reflexivity.
Defined.

Lemma two_handles_facts :
  handles two_handles !! 0%nat = Some (Some 1%positive) /\
  handles two_handles !! 1%nat = Some (Some 1%positive) /\
  saos two_handles !! 1%positive = Some (buffer3_shared 2) /\
  blocks two_handles !! 1%positive = Some [Some 10; Some 11; Some 12].
Proof. repeat split; reflexivity. Defined.

Lemma two_handles_wf : wf_sao two_handles (buffer3_shared 2).
Proof.
  split; [vm_compute; split; congruence |].
  split; [reflexivity |].
  exists [Some 10; Some 11; Some 12]. split; [reflexivity |].
  vm_compute. congruence.
Defined.

Lemma write_seen_by_sharers_witness :
  handles two_handles !! 0%nat = Some (Some 1%positive) /\
  handles two_handles !! 1%nat = Some (Some 1%positive) /\
  saos two_handles !! 1%positive = Some (buffer3_shared 2) /\
  SAO.a (buffer3_shared 2) = Some 1%positive /\
  blocks two_handles !! 1%positive = Some [Some 10; Some 11; Some 12] /\
  0 <= 1 < Z.of_nat (length [Some 10; Some 11; Some 12]) /\
  exists st',
    SharedArray_set 0%nat 1 99 two_handles = Ok (tt, st') /\
    answer (SharedArray_get 1%nat 1 st') = Ok (Some 99).
Proof.
  destruct two_handles_facts as (H1 & H2 & H3 & H4).
  assert (H5 : SAO.a (buffer3_shared 2) = Some 1%positive) by reflexivity.
  assert (H6 : 0 <= 1 < Z.of_nat (length [Some 10; Some 11; Some 12]))
    by (vm_compute; split; congruence).
  repeat (split; [assumption |]).
  destruct (write_seen_by_sharers 0%nat 1%nat 1%positive (buffer3_shared 2)
              1%positive [Some 10; Some 11; Some 12] 1 99 two_handles
              H1 H2 H3 H5 H4 H6) as (st' & Hrun & Hget & _).
  exists st'. split; [exact Hrun | exact Hget].
Defined.

Lemma write_after_divergence_witness :
  0%nat <> 1%nat /\
  handles two_handles !! 0%nat = Some (Some 1%positive) /\
  handles two_handles !! 1%nat = Some (Some 1%positive) /\
  saos two_handles !! 1%positive = Some (buffer3_shared 2) /\
  wf_sao two_handles (buffer3_shared 2) /\
  2 <= SAO.use (buffer3_shared 2) /\
  0 <= 1 < SAO.n (buffer3_shared 2) /\
  exists st1 st2,
    SharedArray_update 0%nat tt false 1%nat two_handles = Ok (tt, st1) /\
    SharedArray_set 0%nat 1 99 st1 = Ok (tt, st2) /\
    answer (SharedArray_get 1%nat 1 st2)
    = answer (SharedArray_get 1%nat 1 two_handles).
Proof.
  destruct two_handles_facts as (H1 & H2 & H3 & _).
  assert (H0 : 0%nat <> 1%nat) by discriminate.
  assert (H5 : 2 <= SAO.use (buffer3_shared 2)) by (vm_compute; congruence).
  assert (H6 : 0 <= 1 < SAO.n (buffer3_shared 2))
    by (vm_compute; split; congruence).
  split; [assumption |]. split; [assumption |]. split; [assumption |].
  split; [assumption |]. split; [exact two_handles_wf |].
  split; [assumption |]. split; [assumption |].
  destruct (write_after_divergence 0%nat 1%nat tt 1%positive
              (buffer3_shared 2) 1 99 two_handles H0 H1 H2 H3
              two_handles_wf H5 H6)
    as (st1 & st2 & st3 & Hrun & Hset & _ & Hy & _).
  exists st1, st2. split; [exact Hrun |]. split; [exact Hset | apply Hy].
Defined.

Lemma ensure_seen_by_sibling_witness :
  handles two_handles !! 0%nat = Some (Some 1%positive) /\
  handles two_handles !! 1%nat = Some (Some 1%positive) /\
  saos two_handles !! 1%positive = Some (buffer3_shared 2) /\
  wf_sao two_handles (buffer3_shared 2) /\
  SAO.n (buffer3_shared 2) <= 7 /\
  2 * SAO.n (buffer3_shared 2) <= INT_MAX /\
  exists st',
    SharedArray_ensure 0%nat 7 two_handles = Ok (tt, st') /\
    SharedArray_size 1%nat st' = Ok (7, st').
Proof.
  destruct two_handles_facts as (H1 & H2 & H3 & _).
  assert (H4 : SAO.n (buffer3_shared 2) <= 7) by (vm_compute; congruence).
  assert (H5 : 2 * SAO.n (buffer3_shared 2) <= INT_MAX)
    by (vm_compute; congruence).
  split; [assumption |]. split; [assumption |]. split; [assumption |].
  split; [exact two_handles_wf |]. split; [assumption |].
  split; [assumption |].
  destruct (ensure_seen_by_sibling 0%nat 1%nat 1%positive (buffer3_shared 2)
              7 two_handles H1 H2 H3 two_handles_wf H4 H5)
    as (st' & Hrun & Hsize & _).
  exists st'. split; [exact Hrun | exact Hsize].
Defined.

Lemma shrink_seen_by_sibling_witness :
  handles two_handles !! 0%nat = Some (Some 1%positive) /\
  handles two_handles !! 1%nat = Some (Some 1%positive) /\
  saos two_handles !! 1%positive = Some (buffer3_shared 2) /\
  SAO.a (buffer3_shared 2) = Some 1%positive /\
  blocks two_handles !! 1%positive = Some [Some 10; Some 11; Some 12] /\
  SAO.n (buffer3_shared 2)
  <= Z.of_nat (length [Some 10; Some 11; Some 12]) /\
  0 <= 1 < SAO.n (buffer3_shared 2) /\
  exists st',
    SharedArray_shrink 0%nat 1 two_handles = Ok (tt, st') /\
    SharedArray_size 1%nat st' = Ok (1, st').
Proof.
  destruct two_handles_facts as (H1 & H2 & H3 & H4).
  assert (H5 : SAO.a (buffer3_shared 2) = Some 1%positive) by reflexivity.
  assert (H6 : SAO.n (buffer3_shared 2)
               <= Z.of_nat (length [Some 10; Some 11; Some 12]))
    by (vm_compute; congruence).
  assert (H7 : 0 <= 1 < SAO.n (buffer3_shared 2))
    by (vm_compute; split; congruence).
  repeat (split; [assumption |]).
  destruct (shrink_seen_by_sibling 0%nat 1%nat 1%positive (buffer3_shared 2)
              1%positive [Some 10; Some 11; Some 12] 1 two_handles
              H1 H2 H3 H5 H4 H6 H7) as (st' & Hrun & Hsize & _).
  exists st'. split; [exact Hrun | exact Hsize].
Defined.

Lemma copy_delete_round_trip_witness :
  handles one_handle !! 0%nat = Some (Some 1%positive) /\
  handles one_handle !! 1%nat = None /\
  (forall o, Some 1%positive = Some o ->
             exists s, saos one_handle !! o = Some s /\
                       1 <= SAO.use s /\ SAO.use s + 1 < UINT_MOD) /\
  (SharedArray_copy 1%nat 0%nat ;; SharedArray_delete 1%nat)%mem one_handle
  = Ok (tt, one_handle).
Proof.
  assert (H1 : handles one_handle !! 0%nat = Some (Some 1%positive))
    by reflexivity.
  assert (H2 : handles one_handle !! 1%nat = None) by reflexivity.
  assert (H3 : forall o, Some 1%positive = Some o ->
             exists s, saos one_handle !! o = Some s /\
                       1 <= SAO.use s /\ SAO.use s + 1 < UINT_MOD).
  { intros o [= <-]. exists buffer3.
    split; [reflexivity |]. split; [vm_compute; congruence | reflexivity]. }
  split; [assumption |]. split; [assumption |]. split; [assumption |].
  exact (copy_delete_round_trip 0%nat 1%nat (Some 1%positive) one_handle
           H1 H2 H3).
Defined.

Lemma sole_handle_teardown_witness :
  handles one_handle !! 0%nat = Some (Some 1%positive) /\
  saos one_handle !! 1%positive = Some buffer3 /\
  wf_sao one_handle buffer3 /\
  SAO.use buffer3 = 1 /\
  exists st',
    SharedArray_delete 0%nat one_handle = Ok (tt, st') /\
    since one_handle st'
    = [EDestruct 1 2; EDestruct 1 1; EDestruct 1 0; EFree 1; EDelete 1].
Proof.
  assert (H1 : handles one_handle !! 0%nat = Some (Some 1%positive))
    by reflexivity.
  assert (H2 : saos one_handle !! 1%positive = Some buffer3) by reflexivity.
  assert (H3 : SAO.use buffer3 = 1) by reflexivity.
  split; [assumption |]. split; [assumption |].
  split; [exact one_handle_wf |]. split; [assumption |].
  destruct (sole_handle_teardown 0%nat 1%positive buffer3 one_handle
              H1 H2 one_handle_wf H3) as (st' & Hrun & _ & _ & Hev & _).
  exists st'. split; [exact Hrun | exact Hev].
Defined.

Lemma ensure_shrink_round_trip_witness :
  handles one_handle !! 0%nat = Some (Some 1%positive) /\
  saos one_handle !! 1%positive = Some buffer3 /\
  SAO.a buffer3 = Some 1%positive /\
  blocks one_handle !! 1%positive = Some [Some 10; Some 11; Some 12] /\
  SAO.n buffer3 <= Z.of_nat (length [Some 10; Some 11; Some 12]) /\
  0 < SAO.n buffer3 <= 7 /\
  2 * SAO.n buffer3 <= INT_MAX /\
  exists st',
    (SharedArray_ensure 0%nat 7 ;; SharedArray_shrink 0%nat (SAO.n buffer3))%mem
      one_handle = Ok (tt, st') /\
    SharedArray_size 0%nat st' = Ok (SAO.n buffer3, st').
Proof.
  assert (H1 : handles one_handle !! 0%nat = Some (Some 1%positive))
    by reflexivity.
  assert (H2 : saos one_handle !! 1%positive = Some buffer3) by reflexivity.
  assert (H3 : SAO.a buffer3 = Some 1%positive) by reflexivity.
  assert (H4 : blocks one_handle !! 1%positive
               = Some [Some 10; Some 11; Some 12]) by reflexivity.
  assert (H5 : SAO.n buffer3
               <= Z.of_nat (length [Some 10; Some 11; Some 12]))
    by (vm_compute; congruence).
  assert (H6 : 0 < SAO.n buffer3 <= 7) by (vm_compute; split; congruence).
  assert (H7 : 2 * SAO.n buffer3 <= INT_MAX) by (vm_compute; congruence).
  repeat (split; [assumption |]).
  destruct (ensure_shrink_round_trip 0%nat 1%positive buffer3 1%positive
              [Some 10; Some 11; Some 12] 7 one_handle H1 H2 H3 H4 H5 H6 H7)
    as (st' & q & Hrun & Hsize & _).
  exists st'. split; [exact Hrun | exact Hsize].
Defined.

Lemma update_share_against_assign_witness :
  SharedArray_update 0%nat tt true 0%nat two_handles = Ok (tt, two_handles) /\
  SharedArray_update 0%nat tt true 0%nat one_handle = Err DanglingPointer.
Proof.
  destruct two_handles_facts as (H1 & _ & H3 & _).
  destruct (update_share_against_assign 0%nat 0%nat tt two_handles)
    as (_ & _ & Hshared & _).
  destruct (update_share_against_assign 0%nat 0%nat tt one_handle)
    as (_ & _ & _ & Hlast).
  split.
  - apply (Hshared 1%positive (buffer3_shared 2) H1 H3).
    vm_compute. split; congruence.
  - apply (Hlast 1%positive buffer3);
      [reflexivity | reflexivity | exact one_handle_wf | reflexivity].
Defined.

Lemma new_delete_round_trip_witness :
  handles (@empty_heap Z) !! 0%nat = None /\
  0 <= 3 /\
  exists st',
    (SharedArray_new 0%nat 3 ;; SharedArray_delete 0%nat)%mem empty_heap
    = Ok (tt, st') /\
    blocks st' = blocks (@empty_heap Z) /\
    since empty_heap st'
    = [EMalloc 1 3; ENew 1; EDestruct 1 2; EDestruct 1 1; EDestruct 1 0;
       EFree 1; EDelete 1].
Proof.
  assert (H1 : handles (@empty_heap Z) !! 0%nat = None) by reflexivity.
  assert (H2 : 0 <= 3) by (vm_compute; congruence).
  split; [exact H1 |]. split; [exact H2 |].
  destruct (new_delete_round_trip 0%nat 3 empty_heap H1 H2)
    as (st' & Hrun & _ & Hb & _ & _ & Hev).
  exists st'. split; [exact Hrun |]. split; [exact Hb | exact Hev].
Defined.

Lemma first_call :
  perform (CallNew (T := Z) (Space := unit) 0%nat 3) empty_heap
  = Ok (tt, first_handle).
Proof. reflexivity. Defined.

Lemma calls_keep_counts_exact_witness :
  counted (@empty_heap Z) /\
  placed empty_heap (CallNew (T := Z) (Space := unit) 0%nat 3) /\
  Z.of_nat (size (handles (@empty_heap Z))) + 1 < UINT_MOD /\
  perform (CallNew (T := Z) (Space := unit) 0%nat 3) empty_heap
  = Ok (tt, first_handle) /\
  counted first_handle.
Proof.
  assert (H1 : placed empty_heap (CallNew (T := Z) (Space := unit) 0%nat 3))
    by reflexivity.
  assert (H2 : Z.of_nat (size (handles (@empty_heap Z))) + 1 < UINT_MOD)
    by reflexivity.
  split; [exact counted_empty |]. split; [exact H1 |]. split; [exact H2 |].
  split; [exact first_call |].
  exact (calls_keep_counts_exact _ _ _ counted_empty H1 H2 first_call).
Defined.

Lemma reachable_is_safe_witness :
  @reachable Z unit first_handle /\
  exists n, SharedArray_size 0%nat first_handle = Ok (n, first_handle).
Proof.
  assert (Hr : @reachable Z unit first_handle).
  { eapply (reachable_call empty_heap (CallNew 0%nat 3));
      [apply reachable_empty | reflexivity | reflexivity | exact first_call]. }
  split; [exact Hr |].
  destruct (reachable_is_safe first_handle Hr) as [Hsize _].
  apply (Hsize 0%nat (Some 1%positive)). reflexivity.
Defined.
